(** * loosh-farm: the processing-and-scoring pipeline, embedded and verified

    A shallow embedding of the Python sources
      - [src/collectors/base.py]    (CollectedItem),
      - [src/processors/cleaner.py] (TextCleaner),
      - [src/processors/dedup.py]   (Deduplicator),
      - [src/models/emotion.py]     (EmotionAnalyzer, lexicon strategy),
      - [src/models/sentiment.py]   (SentimentResult),
      - [src/scoring/aggregator.py] (Aggregator),
      - [src/scoring/loosh_index.py] (LooshIndexCalculator),
      - [src/processors/pipeline.py] (ProcessingPipeline),
      - [src/models/topics.py]      (TopicExtractor),
      - the transformer strategies of the two analyzers,
    followed by the theorems that settle the properties stated about them
    and by further properties of the same code.

    Conventions of the embedding.
      - A Python [str] is a Rocq [string] read as a sequence of code points
        U+0000..U+00FF; [lower], [isspace] and the regular-expression
        classes [\w], [\s] are the Unicode ones restricted to that range.
      - A Python number ([int] or finite [float]) is an exact rational [Q];
        comparisons are the exact ones, arithmetic is carried out without
        the rounding error of binary floating point, and [round(x, n)] is
        rounding to [n] decimals with ties to even.
      - An insertion-ordered [dict] is an association list; a [set] is a
        stdpp [gset].
      - An exception is a [Raise] result. *)

From Stdlib Require Import ZArith QArith Qround String Ascii List Lia Lqa.
From stdpp Require Import gmap strings list.

Local Open Scope string_scope.

(** ** Python values *)

Module Py.

Inductive exn : Type :=
| IndexError
| ValueError.

Inductive result (A : Type) : Type :=
| Ok (a : A)
| Raise (e : exn).
Arguments Ok {A} a.
Arguments Raise {A} e.

Definition bind {A B : Type} (r : result A) (k : A -> result B) : result B :=
  match r with
  | Ok a => k a
  | Raise e => Raise e
  end.

(** [mapM f l]: evaluate [f] on the elements from left to right, stopping
    at the first exception. *)
Fixpoint mapM {A B : Type} (f : A -> result B) (l : list A) : result (list B) :=
  match l with
  | [] => Ok []
  | x :: l' =>
      bind (f x) (fun y => bind (mapM f l') (fun ys => Ok (y :: ys)))
  end.

(** Insertion-ordered dictionaries with string keys. *)
Definition dict (V : Type) : Type := list (string * V).

Fixpoint lookup {V : Type} (d : dict V) (k : string) : option V :=
  match d with
  | [] => None
  | (k', v) :: d' => if String.eqb k' k then Some v else lookup d' k
  end.

(** [d.get(k, dflt)] *)
Definition get {V : Type} (d : dict V) (k : string) (dflt : V) : V :=
  match lookup d k with
  | Some v => v
  | None => dflt
  end.

(** [d[k] = v]: an existing key keeps its position, a new key goes last. *)
Fixpoint set {V : Type} (d : dict V) (k : string) (v : V) : dict V :=
  match d with
  | [] => [(k, v)]
  | (k', v') :: d' =>
      if String.eqb k' k then (k', v) :: d' else (k', v') :: set d' k v
  end.

Definition keys {V : Type} (d : dict V) : list string := map fst d.
Definition values {V : Type} (d : dict V) : list V := map snd d.

(** [bool(d)] for a container: non-empty. *)
Definition truthy {A : Type} (l : list A) : bool :=
  match l with
  | [] => false
  | _ :: _ => true
  end.

Local Open Scope Q_scope.

(** [sum(xs)] *)
Definition sum (xs : list Q) : Q := fold_left Qplus xs 0.

(** Two-argument [max(a, b)] and [min(a, b)]: the first argument is
    returned unless the second is strictly better. *)
Definition max (a b : Q) : Q := if Qlt_le_dec a b then b else a.
Definition min (a b : Q) : Q := if Qlt_le_dec b a then b else a.

(** Nearest integer, ties to the even one. *)
Definition round_half_even (x : Q) : Z :=
  let f := Qfloor x in
  match Qcompare (x - inject_Z f) (1 # 2) with
  | Lt => f
  | Gt => (f + 1)%Z
  | Eq => if Z.even f then f else (f + 1)%Z
  end.

Definition pow10 (ndigits : nat) : Q := inject_Z (10 ^ Z.of_nat ndigits).

(** [round(x, ndigits)] *)
Definition round (x : Q) (ndigits : nat) : Q :=
  inject_Z (round_half_even (x * pow10 ndigits)) / pow10 ndigits.

(** [max(d, key=d.get)]: the first key, in iteration order, whose value is
    not exceeded by any other; [ValueError] on an empty dictionary. *)
Fixpoint max_key_from (best : string) (best_v : Q) (d : dict Q) : string :=
  match d with
  | [] => best
  | (k, v) :: d' =>
      if Qlt_le_dec best_v v then max_key_from k v d'
      else max_key_from best best_v d'
  end.

Definition max_key (d : dict Q) : result string :=
  match d with
  | [] => Raise ValueError
  | (k, v) :: d' => Ok (max_key_from k v d')
  end.

End Py.

#[global] Instance result_ret : MRet Py.result := @Py.Ok.
#[global] Instance result_bind : MBind Py.result :=
  fun A B k r => Py.bind r k.

(** ** Python strings *)

Module PyStr.

Definition code (c : ascii) : N := N_of_ascii c.

Definition in_range (lo hi : N) (c : ascii) : bool :=
  ((lo <=? code c) && (code c <=? hi))%N.

(** [str.isspace] on one character, which is also the class [\s]. *)
Definition isspace (c : ascii) : bool :=
  in_range 9 13 c || in_range 28 32 c
  || (code c =? 133)%N || (code c =? 160)%N.

(** The class [[a-z]]. *)
Definition is_az (c : ascii) : bool := in_range 97 122 c.

(** The class [[0-9]]. *)
Definition is_09 (c : ascii) : bool := in_range 48 57 c.

(** The class [\w]: alphanumeric (in the sense of [str.isalnum]) or the
    underscore. *)
Definition is_word (c : ascii) : bool :=
  in_range 48 57 c || in_range 65 90 c || (code c =? 95)%N
  || in_range 97 122 c || (code c =? 170)%N || in_range 178 179 c
  || (code c =? 181)%N || in_range 185 186 c || in_range 188 190 c
  || in_range 192 214 c || in_range 216 246 c || in_range 248 255 c.

Definition lower_char (c : ascii) : ascii :=
  if in_range 65 90 c || in_range 192 214 c || in_range 216 222 c
  then ascii_of_N (code c + 32)
  else c.

Definition chars (s : string) : list ascii := list_ascii_of_string s.
Definition str (l : list ascii) : string := string_of_list_ascii l.

(** [len(s)] *)
Definition len (s : string) : Z := Z.of_nat (String.length s).

(** [s.lower()] *)
Definition lower (s : string) : string := str (map lower_char (chars s)).

Fixpoint lstrip_chars (l : list ascii) : list ascii :=
  match l with
  | [] => []
  | c :: l' => if isspace c then lstrip_chars l' else l
  end.

(** [s.strip()] *)
Definition strip (s : string) : string :=
  str (rev (lstrip_chars (rev (lstrip_chars (chars s))))).

(** [bool(s)]: non-empty. *)
Definition truthy (s : string) : bool :=
  match s with
  | EmptyString => false
  | String _ _ => true
  end.

(** [s[:n]] for an integer [n]; a negative [n] counts from the end. *)
Definition slice_to (s : string) (n : Z) : string :=
  if (0 <=? n)%Z then substring 0 (Z.to_nat n) s
  else substring 0 (Z.to_nat (len s + n)) s.

(** [sep.join(parts)] *)
Fixpoint join (sep : string) (parts : list string) : string :=
  match parts with
  | [] => ""
  | [p] => p
  | p :: ps => p ++ sep ++ join sep ps
  end.

(** [re.sub(r"\s+", " ", s)]: every maximal run of white space becomes one
    space. [in_run] tells that the previous character was white space. *)
Fixpoint sub_spaces_chars (in_run : bool) (l : list ascii) : list ascii :=
  match l with
  | [] => []
  | c :: l' =>
      if isspace c then
        if in_run then sub_spaces_chars true l'
        else " "%char :: sub_spaces_chars true l'
      else c :: sub_spaces_chars false l'
  end.

Definition sub_spaces (s : string) : string :=
  str (sub_spaces_chars false (chars s)).

(** [re.sub] of a one-character class by a space: every character outside
    [keep] becomes a space. *)
Definition sub_class (keep : ascii -> bool) (s : string) : string :=
  str (map (fun c => if keep c then c else " "%char) (chars s)).

(** Does [l] start with the characters of [p]? If so, the rest. *)
Fixpoint strip_prefix (p l : list ascii) : option (list ascii) :=
  match p, l with
  | [], _ => Some l
  | _ :: _, [] => None
  | a :: p', b :: l' => if Ascii.eqb a b then strip_prefix p' l' else None
  end.

(** The prefix [p] followed by at least one character that is not white
    space: the pattern [p\S+] matches at the start of [l]. *)
Definition starts_nonspace (p : string) (l : list ascii) : bool :=
  match strip_prefix (chars p) l with
  | Some (c :: _) => negb (isspace c)
  | _ => false
  end.

End PyStr.

(** ** src/collectors/base.py *)

Module Base.

Record CollectedItem : Type := {
  text : string;
  source_name : string;
  source_category : string;
  url : option string;
  title : option string;
  published : option string;
  metadata : Py.dict string
}.

End Base.

(** ** hashlib.sha256 (FIPS 180-4) *)

Module Hashlib.
Local Open Scope Z_scope.

Definition mask32 : Z := 0xffffffff.

Definition add32 (a b : Z) : Z := Z.land (a + b) mask32.

Definition rotr (n x : Z) : Z :=
  Z.lor (Z.shiftr x n) (Z.land (Z.shiftl x (32 - n)) mask32).

Definition Ch (x y z : Z) : Z :=
  Z.lxor (Z.land x y) (Z.land (Z.lxor x mask32) z).

Definition Maj (x y z : Z) : Z :=
  Z.lxor (Z.lxor (Z.land x y) (Z.land x z)) (Z.land y z).

Definition Sigma0 (x : Z) : Z :=
  Z.lxor (Z.lxor (rotr 2 x) (rotr 13 x)) (rotr 22 x).

Definition Sigma1 (x : Z) : Z :=
  Z.lxor (Z.lxor (rotr 6 x) (rotr 11 x)) (rotr 25 x).

Definition sigma0 (x : Z) : Z :=
  Z.lxor (Z.lxor (rotr 7 x) (rotr 18 x)) (Z.shiftr x 3).

Definition sigma1 (x : Z) : Z :=
  Z.lxor (Z.lxor (rotr 17 x) (rotr 19 x)) (Z.shiftr x 10).

(** The primes below [bound], by trial division. *)
Definition is_prime (n : Z) : bool :=
  (1 <? n)
  && forallb (fun d => negb (n mod d =? 0) || (n <=? d))
       (map Z.of_nat (seq 2 (Z.to_nat (Z.sqrt n)))).

Definition primes_below (bound : nat) : list Z :=
  List.filter is_prime (map Z.of_nat (seq 0 bound)).

(** Integer cube root, bit by bit from bit [k] down. *)
Fixpoint cbrt_bits (k : nat) (n acc : Z) : Z :=
  match k with
  | O => acc
  | S k' =>
      let cand := acc + 2 ^ Z.of_nat k' in
      if cand * cand * cand <=? n then cbrt_bits k' n cand
      else cbrt_bits k' n acc
  end.

(** The first 32 bits of the fractional part of the cube root of [p]. *)
Definition frac_cbrt (p : Z) : Z := Z.land (cbrt_bits 40 (p * 2 ^ 96) 0) mask32.

(** The first 32 bits of the fractional part of the square root of [p]. *)
Definition frac_sqrt (p : Z) : Z := Z.land (Z.sqrt (p * 2 ^ 64)) mask32.

(** The round constants: from the cube roots of the first 64 primes. *)
Definition K : list Z := Eval vm_compute in map frac_cbrt (primes_below 312).

(** The initial hash value: from the square roots of the first 8 primes. *)
Definition H0 : list Z := Eval vm_compute in map frac_sqrt (primes_below 20).

(** UTF-8 encoding of a string of code points below 256. *)
Definition encode_utf8 (s : string) : list Z :=
  flat_map
    (fun c =>
       let n := Z.of_N (N_of_ascii c) in
       if n <? 128 then [n]
       else [Z.lor 0xc0 (Z.shiftr n 6); Z.lor 0x80 (Z.land n 0x3f)])
    (list_ascii_of_string s).

(** Big-endian bytes of [x], [n] of them. *)
Fixpoint be_bytes (n : nat) (x : Z) : list Z :=
  match n with
  | O => []
  | S n' => Z.land (Z.shiftr x (8 * Z.of_nat n')) 0xff :: be_bytes n' x
  end.

(** The message followed by the bit 1, zeros up to 56 modulo 64 bytes, and
    the length in bits on 8 bytes. *)
Definition pad (msg : list Z) : list Z :=
  let l := Z.of_nat (length msg) in
  let zeros := Z.to_nat ((55 - l) mod 64) in
  msg ++ [0x80] ++ repeat 0 zeros ++ be_bytes 8 (8 * l).

(** Big-endian 32-bit words of a byte string. *)
Fixpoint words_of (fuel : nat) (bytes : list Z) : list Z :=
  match fuel, bytes with
  | S fuel', b0 :: b1 :: b2 :: b3 :: rest =>
      (Z.shiftl b0 24 + Z.shiftl b1 16 + Z.shiftl b2 8 + b3)
        :: words_of fuel' rest
  | _, _ => []
  end.

(** Blocks of 16 words. *)
Fixpoint blocks_of (fuel : nat) (ws : list Z) : list (list Z) :=
  match fuel, ws with
  | S fuel', _ :: _ => firstn 16 ws :: blocks_of fuel' (skipn 16 ws)
  | _, _ => []
  end.

(** The message schedule: [w] holds W(0..t-1); [n] more words are added. *)
Fixpoint schedule (n : nat) (w : list Z) : list Z :=
  match n with
  | O => w
  | S n' =>
      let t := length w in
      let at_ (i : nat) := nth (t - i) w 0 in
      schedule n'
        (w ++ [add32 (add32 (sigma1 (at_ 2%nat)) (at_ 7%nat))
                     (add32 (sigma0 (at_ 15%nat)) (at_ 16%nat))])
  end.

Record regs : Type := {
  ra : Z; rb : Z; rc : Z; rd : Z; re : Z; rf : Z; rg : Z; rh : Z
}.

Definition round (r : regs) (kw : Z * Z) : regs :=
  let '(k, w) := kw in
  let t1 :=
    add32 (add32 (add32 (rh r) (Sigma1 (re r))) (Ch (re r) (rf r) (rg r)))
          (add32 k w) in
  let t2 := add32 (Sigma0 (ra r)) (Maj (ra r) (rb r) (rc r)) in
  {| ra := add32 t1 t2; rb := ra r; rc := rb r; rd := rc r;
     re := add32 (rd r) t1; rf := re r; rg := rf r; rh := rg r |}.

Definition compress (h : regs) (block : list Z) : regs :=
  let r := fold_left round (combine K (schedule 48 block)) h in
  {| ra := add32 (ra h) (ra r); rb := add32 (rb h) (rb r);
     rc := add32 (rc h) (rc r); rd := add32 (rd h) (rd r);
     re := add32 (re h) (re r); rf := add32 (rf h) (rf r);
     rg := add32 (rg h) (rg r); rh := add32 (rh h) (rh r) |}.

Definition init_regs : regs :=
  {| ra := nth 0 H0 0; rb := nth 1 H0 0; rc := nth 2 H0 0; rd := nth 3 H0 0;
     re := nth 4 H0 0; rf := nth 5 H0 0; rg := nth 6 H0 0; rh := nth 7 H0 0 |}.

Definition hex_digit (d : Z) : ascii :=
  if d <? 10 then ascii_of_N (Z.to_N (48 + d))
  else ascii_of_N (Z.to_N (87 + d)).

Fixpoint hex_of (digits : nat) (x : Z) : list ascii :=
  match digits with
  | O => []
  | S n' => hex_digit (Z.land (Z.shiftr x (4 * Z.of_nat n')) 0xf) :: hex_of n' x
  end.

(** [hashlib.sha256(data).hexdigest()] *)
Definition sha256_hexdigest (data : list Z) : string :=
  let padded := pad data in
  let ws := words_of (length padded) padded in
  let h := fold_left compress (blocks_of (length ws) ws) init_regs in
  string_of_list_ascii
    (flat_map (hex_of 8)
       [ra h; rb h; rc h; rd h; re h; rf h; rg h; rh h]).

End Hashlib.

(** ** src/processors/cleaner.py *)

Module Cleaner.
Import PyStr.

(** [_HTML_TAG_RE.sub(" ", text)] with [_HTML_TAG_RE = <[^>]+>]. The
    scanner remembers in [pending] the characters read since a ['<'] that
    may open a match (most recent first); the match is completed by the
    next ['>'] provided at least one character lies between them. *)
Fixpoint sub_html_tags (pending : option (list ascii)) (l : list ascii)
    : list ascii :=
  match l with
  | [] =>
      match pending with
      | None => []
      | Some buf => "<"%char :: rev buf
      end
  | c :: l' =>
      match pending with
      | None =>
          if Ascii.eqb c "<" then sub_html_tags (Some []) l'
          else c :: sub_html_tags None l'
      | Some buf =>
          if Ascii.eqb c ">" then
            match buf with
            | [] => "<"%char :: ">"%char :: sub_html_tags None l'
            | _ :: _ => " "%char :: sub_html_tags None l'
            end
          else sub_html_tags (Some (c :: buf)) l'
      end
  end.

Definition _HTML_TAG_RE_sub (text : string) : string :=
  str (sub_html_tags None (chars text)).

(** [_URL_RE] matches at the start of [l], for
    [_URL_RE = https?://\S+|www\.\S+]. *)
Definition url_starts (l : list ascii) : bool :=
  starts_nonspace "https://" l || starts_nonspace "http://" l
  || starts_nonspace "www." l.

(** [_URL_RE.sub("", text)]: a match runs up to the next white space.
    [in_url] tells that the scanner is inside a match. *)
Fixpoint sub_urls (in_url : bool) (l : list ascii) : list ascii :=
  match l with
  | [] => []
  | c :: l' =>
      if in_url then
        if isspace c then c :: sub_urls false l' else sub_urls true l'
      else if url_starts l then sub_urls true l'
      else c :: sub_urls false l'
  end.

Definition _URL_RE_sub (text : string) : string :=
  str (sub_urls false (chars text)).

(** The characters kept by [_SPECIAL_CHARS_RE]: the classes [\w] and
    [\s], the marks [. , ! ? ; : ' -] and the double quote (code 34). *)
Definition is_kept_char (c : ascii) : bool :=
  is_word c || isspace c
  || existsb (Ascii.eqb c) (chars ".,!?;:'-") || (code c =? 34)%N.

Definition _SPECIAL_CHARS_RE_sub (text : string) : string :=
  sub_class is_kept_char text.

Record TextCleaner : Type := {
  min_length : Z;
  max_length : Z
}.

(** [TextCleaner(min_length=10, max_length=5000)] *)
Definition __init__ (min_length max_length : option Z) : TextCleaner :=
  {| min_length := default 10%Z min_length;
     max_length := default 5000%Z max_length |}.

Section WithHtmlUnescape.

(** [html.unescape] of the Python standard library. *)
Variable html_unescape : string -> string.

Definition clean (self : TextCleaner) (text : string) : option string :=
  if negb (truthy text) then None
  else
    (* Decode HTML entities *)
    let text := html_unescape text in
    (* Strip HTML tags *)
    let text := _HTML_TAG_RE_sub text in
    (* Remove URLs *)
    let text := _URL_RE_sub text in
    (* Remove special characters *)
    let text := _SPECIAL_CHARS_RE_sub text in
    (* Normalize whitespace *)
    let text := strip (sub_spaces text) in
    (* Truncate if too long *)
    let text :=
      if (max_length self <? len text)%Z
      then slice_to text (max_length self)
      else text in
    (* Check minimum length *)
    if (len text <? min_length self)%Z then None
    else Some text.

(** The loop of [clean_batch]; [results] is the list built so far. *)
Definition clean_batch_step (self : TextCleaner)
    (results : list string) (t : string) : list string :=
  match clean self t with
  | Some cleaned => (results ++ [cleaned])%list
  | None => results
  end.

Definition clean_batch (self : TextCleaner) (texts : list string)
    : list string :=
  fold_left (clean_batch_step self) texts [].

End WithHtmlUnescape.

(** [html.unescape] returns its argument unchanged when it contains no
    ['&']; this is the instance for such texts. *)
Definition html_unescape_plain (s : string) : string := s.

End Cleaner.

(** ** src/collectors/base.py: [combined_text] *)

Module BaseText.
Import Base PyStr.

(** The property [CollectedItem.combined_text]: title and text, each only
    when present and non-empty, joined by one space. *)
Definition combined_text (self : CollectedItem) : string :=
  let parts : list string := [] in
  let parts :=
    match title self with
    | Some t => if truthy t then (parts ++ [t])%list else parts
    | None => parts
    end in
  let parts := if truthy (text self) then (parts ++ [text self])%list else parts in
  join " " parts.

End BaseText.

(** ** src/processors/dedup.py *)

Module Dedup.
Import Base BaseText PyStr.
Local Open Scope Q_scope.

Record Deduplicator : Type := {
  similarity_threshold : Q;
  _seen_hashes : gset string
}.

(** [Deduplicator(similarity_threshold)] *)
Definition __init__ (similarity_threshold : Q) : Deduplicator :=
  {| similarity_threshold := similarity_threshold; _seen_hashes := ∅ |}.

Definition default_similarity_threshold : Q := 85 # 100.

(** The characters kept by [_NORMALIZE_RE = [^a-z0-9 ]]. *)
Definition is_norm_char (c : ascii) : bool :=
  is_az c || is_09 c || Ascii.eqb c " ".

Definition _normalize_for_hash (text : string) : string :=
  let text := lower text in
  let text := sub_class is_norm_char text in
  strip (sub_spaces text).

Definition _content_hash (text : string) : string :=
  let normalized := _normalize_for_hash text in
  Hashlib.sha256_hexdigest (Hashlib.encode_utf8 normalized).

(** [{normalized[i : i + n] for i in range(len(normalized) - n + 1)}] *)
Definition ngrams (normalized : string) (n : nat) : list string :=
  map (fun i => substring i n normalized)
      (seq 0 (String.length normalized - n + 1)).

Definition _ngram_fingerprint (text : string) (n : nat) : gset string :=
  let normalized := _normalize_for_hash text in
  if (String.length normalized <? n)%nat then {[ normalized ]}
  else list_to_set (ngrams normalized n).

Definition _jaccard_similarity (set_a set_b : gset string) : Q :=
  if bool_decide (set_a = ∅) || bool_decide (set_b = ∅) then 0
  else
    let intersection := size (set_a ∩ set_b) in
    let union := size (set_a ∪ set_b) in
    if (0 <? union)%nat
    then inject_Z (Z.of_nat intersection) / inject_Z (Z.of_nat union)
    else 0.

Arguments _normalize_for_hash : simpl never.
Arguments _content_hash : simpl never.
Arguments _ngram_fingerprint : simpl never.
Arguments _jaccard_similarity : simpl never.

(** The local variables of [deduplicate] together with the one attribute
    the loop updates. *)
Record LoopState : Type := {
  seen_hashes : gset string;
  fingerprints : list (gset string);
  unique : list CollectedItem;
  duplicates_removed : nat
}.

(** The inner loop: is some earlier fingerprint of this call at least
    [similarity_threshold] similar to [fp]? *)
Definition is_near_dup (threshold : Q) (fp : gset string)
    (fingerprints : list (gset string)) : bool :=
  existsb
    (fun existing_fp => Qle_bool threshold (_jaccard_similarity fp existing_fp))
    fingerprints.

(** One iteration of [for item in items]. *)
Definition dedup_step (threshold : Q) (st : LoopState) (item : CollectedItem)
    : LoopState :=
  let combined := combined_text item in
  if negb (truthy (strip combined)) then st
  else
    (* Exact duplicate check *)
    let content_hash := _content_hash combined in
    if bool_decide (content_hash ∈ seen_hashes st) then
      {| seen_hashes := seen_hashes st;
         fingerprints := fingerprints st;
         unique := unique st;
         duplicates_removed := S (duplicates_removed st) |}
    else
      (* Near-duplicate check via n-gram Jaccard similarity *)
      let fp := _ngram_fingerprint combined 3 in
      if is_near_dup threshold fp (fingerprints st) then
        {| seen_hashes := seen_hashes st;
           fingerprints := fingerprints st;
           unique := unique st;
           duplicates_removed := S (duplicates_removed st) |}
      else
        {| seen_hashes := {[ content_hash ]} ∪ seen_hashes st;
           fingerprints := (fingerprints st ++ [fp])%list;
           unique := (unique st ++ [item])%list;
           duplicates_removed := duplicates_removed st |}.

(** [deduplicate]: the returned list and the instance after the call. *)
Definition deduplicate (self : Deduplicator) (items : list CollectedItem)
    : list CollectedItem * Deduplicator :=
  let st :=
    fold_left (dedup_step (similarity_threshold self)) items
      {| seen_hashes := _seen_hashes self;
         fingerprints := [];
         unique := [];
         duplicates_removed := 0 |} in
  (unique st,
   {| similarity_threshold := similarity_threshold self;
      _seen_hashes := seen_hashes st |}).

(** [reset]: the instance after the call. *)
Definition reset (self : Deduplicator) : Deduplicator :=
  {| similarity_threshold := similarity_threshold self; _seen_hashes := ∅ |}.

(** A session: successive [deduplicate] calls on one instance; the outputs
    of the calls in order, and the instance at the end. *)
Fixpoint run_session (self : Deduplicator) (calls : list (list CollectedItem))
    : list (list CollectedItem) * Deduplicator :=
  match calls with
  | [] => ([], self)
  | items :: calls' =>
      let '(out, self') := deduplicate self items in
      let '(outs, self'') := run_session self' calls' in
      (out :: outs, self'')
  end.

End Dedup.

(** ** src/processors/pipeline.py *)

Module Pipeline.
Import Base PyStr.

Record ProcessingPipeline : Type := {
  cleaner : Cleaner.TextCleaner;
  dedup : Dedup.Deduplicator
}.

(** [ProcessingPipeline(config)]: a default cleaner and deduplicator. *)
Definition __init__ : ProcessingPipeline :=
  {| cleaner := Cleaner.__init__ None None;
     dedup := Dedup.__init__ Dedup.default_similarity_threshold |}.

Section WithHtmlUnescape.

(** [html.unescape] of the Python standard library. *)
Variable html_unescape : string -> string.

(** The body of the cleaning loop; [cleaned_items] is the list built so
    far. The item is updated in place before it is appended. *)
Definition clean_step (self : ProcessingPipeline)
    (cleaned_items : list CollectedItem) (item : CollectedItem)
    : list CollectedItem :=
  let cleaned_text := Cleaner.clean html_unescape (cleaner self) (text item) in
  let cleaned_title :=
    match title item with
    | Some t =>
        if truthy t then Cleaner.clean html_unescape (cleaner self) t
        else Some t
    | None => None
    end in
  let title_empty :=
    match cleaned_title with
    | None => true
    | Some t => negb (truthy t)
    end in
  match cleaned_text with
  | None =>
      if title_empty then cleaned_items
      else
        (cleaned_items
         ++ [ {| text := "";
                 source_name := source_name item;
                 source_category := source_category item;
                 url := url item;
                 title := cleaned_title;
                 published := published item;
                 metadata := metadata item |} ])%list
  | Some t =>
      (cleaned_items
       ++ [ {| text := t;
               source_name := source_name item;
               source_category := source_category item;
               url := url item;
               title := match cleaned_title with
                        | Some _ => cleaned_title
                        | None => title item
                        end;
               published := published item;
               metadata := metadata item |} ])%list
  end.

(** [process]: the unique items and the pipeline after the call. *)
Definition process (self : ProcessingPipeline) (items : list CollectedItem)
    : list CollectedItem * ProcessingPipeline :=
  let cleaned_items := fold_left (clean_step self) items [] in
  let '(unique_items, dedup') := Dedup.deduplicate (dedup self) cleaned_items in
  (unique_items, {| cleaner := cleaner self; dedup := dedup' |}).

End WithHtmlUnescape.

End Pipeline.

(** ** src/models/sentiment.py *)

Module Sentiment.

Record SentimentResult : Type := {
  positive : Q;
  neutral : Q;
  negative : Q;
  compound : Q
}.

Section WithVader.

(** [SentimentIntensityAnalyzer.polarity_scores] of the vaderSentiment
    package: the scores ["pos"], ["neu"], ["neg"] and ["compound"]. *)
Variable polarity_scores : string -> Q * Q * Q * Q.

Definition _analyze_vader (text : string) : SentimentResult :=
  let '(pos, neu, neg, compound) := polarity_scores text in
  {| positive := pos; neutral := neu; negative := neg; compound := compound |}.

(** [SentimentAnalyzer.analyze_batch] in the lightweight mode, where
    [analyze] is [_analyze_vader]. *)
Definition analyze_batch (texts : list string) : list SentimentResult :=
  map _analyze_vader texts.

End WithVader.

End Sentiment.

(** ** src/models/emotion.py *)

Module Emotion.
Import PyStr.
Local Open Scope Q_scope.

Definition EMOTION_CATEGORIES : list string :=
  [ "joy"; "anger"; "fear"; "sadness";
    "surprise"; "disgust"; "trust"; "anticipation" ].

Record EmotionResult : Type := {
  scores : Py.dict Q;
  dominant_emotion : string
}.

(** Curated emotion lexicon. *)
Definition _EMOTION_LEXICON : Py.dict (list string) :=
[
  ("joy",
   [ "happy"; "love"; "wonderful"; "great"; "amazing"; "excellent";
    "beautiful"; "celebrate"; "delight"; "fantastic"; "glad"; "cheerful";
    "pleased"; "joy"; "thrilled"; "ecstatic"; "bliss"; "elated";
    "grateful"; "optimistic"; "success"; "win"; "triumph"; "paradise";
    "brilliant"; "superb"; "awesome"; "hope"; "proud"; "laugh"; "smile";
    "fun"; "enjoy"; "peace"; "comfort"; "bright"; "radiant"; "warm";
    "kind"; "generous"; "uplift"; "inspire" ]);
  ("anger",
   [ "angry"; "furious"; "outrage"; "rage"; "hate"; "hostile"; "violent";
    "attack"; "destroy"; "war"; "fight"; "aggression"; "resent"; "bitter";
    "irritate"; "annoy"; "frustrate"; "provoke"; "enrage"; "infuriate";
    "condemn"; "denounce"; "protest"; "revolt"; "clash"; "conflict";
    "abuse"; "exploit"; "corruption"; "injustice"; "oppression"; "tyranny";
    "bully"; "harass"; "threaten"; "demand"; "blame"; "accuse"; "betray" ]);
  ("fear",
   [ "afraid"; "fear"; "terror"; "panic"; "scare"; "dread"; "horror";
    "threat"; "danger"; "risk"; "crisis"; "emergency"; "alarm"; "anxiety";
    "worry"; "nervous"; "concern"; "caution"; "warn"; "hazard"; "peril";
    "catastrophe"; "disaster"; "devastation"; "collapse"; "doom"; "chaos";
    "plague"; "epidemic"; "pandemic"; "vulnerable"; "helpless";
    "desperate"; "uncertain"; "unstable"; "volatile"; "flee"; "escape";
    "survive" ]);
  ("sadness",
   [ "sad"; "grief"; "sorrow"; "mourn"; "tragic"; "loss"; "suffer"; "pain";
    "hurt"; "cry"; "tears"; "misery"; "despair"; "hopeless"; "depress";
    "lonely"; "abandon"; "neglect"; "regret"; "disappoint"; "fail";
    "defeat"; "decline"; "deteriorate"; "poverty"; "famine"; "death";
    "die"; "kill"; "victim"; "casualty"; "funeral"; "memorial";
    "devastate"; "heartbreak"; "anguish"; "agony"; "lament"; "woe" ]);
  ("surprise",
   [ "surprise"; "shock"; "astonish"; "amaze"; "stun"; "unexpected";
    "sudden"; "breaking"; "unprecedented"; "remarkable"; "extraordinary";
    "incredible"; "unbelievable"; "dramatic"; "revelation"; "discover";
    "breakthrough"; "miracle"; "twist"; "upset"; "bombshell";
    "jaw-dropping"; "alert"; "flash"; "interrupt"; "announce"; "reveal";
    "unveil" ]);
  ("disgust",
   [ "disgust"; "repulsive"; "gross"; "vile"; "sick"; "revolting"; "nasty";
    "foul"; "corrupt"; "scandal"; "fraud"; "cheat"; "deceive"; "toxic";
    "contaminate"; "pollute"; "waste"; "filth"; "sleaze"; "hypocrisy";
    "shameful"; "despicable"; "contempt"; "loathe"; "abhor"; "obscene";
    "vulgar"; "offensive"; "grotesque"; "perverse" ]);
  ("trust",
   [ "trust"; "reliable"; "honest"; "integrity"; "loyal"; "faithful";
    "secure"; "safe"; "stable"; "protect"; "support"; "ally"; "partner";
    "cooperate"; "unite"; "together"; "solidarity"; "agreement"; "treaty";
    "peace"; "harmony"; "respect"; "honor"; "commit"; "promise"; "pledge";
    "transparent"; "accountable"; "responsible"; "fair"; "just"; "equitable" ]);
  ("anticipation",
   [ "expect"; "anticipate"; "predict"; "forecast"; "plan"; "prepare";
    "upcoming"; "future"; "tomorrow"; "next"; "soon"; "await"; "pending";
    "potential"; "prospect"; "opportunity"; "launch"; "release"; "debut";
    "election"; "vote"; "decision"; "deadline"; "schedule"; "target";
    "goal"; "ambition"; "aspire"; "strategy"; "initiative"; "proposal" ])
].

(** [d.setdefault(word, []).append(emotion)] *)
Definition setdefault_append (d : Py.dict (list string))
    (word emotion : string) : Py.dict (list string) :=
  Py.set d word (Py.get d word [] ++ [emotion])%list.

(** The module-level loops that flatten a lexicon: word -> list of
    emotions. *)
Definition flatten_lexicon (lexicon : Py.dict (list string))
    : Py.dict (list string) :=
  fold_left
    (fun d '(_emotion, _words) =>
       fold_left (fun d _word => setdefault_append d _word _emotion) _words d)
    lexicon [].

Definition _WORD_TO_EMOTIONS : Py.dict (list string) := Eval vm_compute in
  flatten_lexicon _EMOTION_LEXICON.

(** [_WORD_RE.findall(s)] with [_WORD_RE = \b[a-z]+\b]: the maximal runs of
    word characters of [s] that consist of the letters a to z only. [run] is
    the current run of word characters (most recent first, [None] outside of
    a run) and [ok] tells that it holds letters a to z only. *)
Fixpoint findall_words (run : option (list ascii)) (ok : bool)
    (l : list ascii) : list string :=
  let emit (tail : list string) :=
    match run with
    | Some r => if ok then str (rev r) :: tail else tail
    | None => tail
    end in
  match l with
  | [] => emit []
  | c :: l' =>
      if is_word c then
        match run with
        | Some r => findall_words (Some (c :: r)) (ok && is_az c) l'
        | None => findall_words (Some [c]) (is_az c) l'
        end
      else emit (findall_words None true l')
  end.

Definition _WORD_RE_findall (s : string) : list string :=
  findall_words None true (chars s).

(** [emotion_counts[emotion] += 1] on a [Counter]. *)
Definition counter_incr (emotion_counts : gmap string nat) (emotion : string)
    : gmap string nat :=
  <[ emotion := S (default 0%nat (emotion_counts !! emotion)) ]> emotion_counts.

(** The body of [for emotion in _WORD_TO_EMOTIONS[word]]; the state is
    [(emotion_counts, total_hits)]. *)
Definition hit_step (st : gmap string nat * nat) (emotion : string)
    : gmap string nat * nat :=
  let '(emotion_counts, total_hits) := st in
  (counter_incr emotion_counts emotion, S total_hits).

(** The body of [for word in words]. *)
Definition word_step (st : gmap string nat * nat) (word : string)
    : gmap string nat * nat :=
  match Py.lookup _WORD_TO_EMOTIONS word with
  | Some emotions => fold_left hit_step emotions st
  | None => st
  end.

(** The body of the normalisation loop over [EMOTION_CATEGORIES]. *)
Definition score_step (emotion_counts : gmap string nat) (total_hits : nat)
    (scores : Py.dict Q) (emotion : string) : Py.dict Q :=
  if (0 <? total_hits)%nat then
    Py.set scores emotion
      (Py.round
         (inject_Z (Z.of_nat (default 0%nat (emotion_counts !! emotion)))
          / inject_Z (Z.of_nat total_hits)) 4)
  else
    Py.set scores emotion
      (Py.round (1 / inject_Z (Z.of_nat (length EMOTION_CATEGORIES))) 4).

(** [EmotionAnalyzer._analyze_lexicon] *)
Definition _analyze_lexicon (text : string) : Py.result EmotionResult :=
  let words := _WORD_RE_findall (lower text) in
  let '(emotion_counts, total_hits) := fold_left word_step words (∅, 0%nat) in
  (* Normalize to probabilities *)
  let scores :=
    fold_left (score_step emotion_counts total_hits) EMOTION_CATEGORIES [] in
  dominant ←
    (if (0 <? total_hits)%nat then Py.max_key scores else Py.Ok "neutral");
  Py.Ok {| scores := scores; dominant_emotion := dominant |}.

(** [EmotionAnalyzer.analyze_batch] in the lightweight mode, where
    [analyze] is [_analyze_lexicon]. *)
Definition analyze_batch (texts : list string)
    : Py.result (list EmotionResult) :=
  Py.mapM _analyze_lexicon texts.

End Emotion.

(** ** src/scoring/aggregator.py *)

Module Aggregator.
Import Base Sentiment Emotion.
Local Open Scope Q_scope.

(** One entry of [source_breakdown]: the dictionary with the keys
    ["count"], ["sentiment"], ["emotions"] and ["weight"]. *)
Record SourceBreakdown : Type := {
  count : nat;
  sb_sentiment : Py.dict Q;
  sb_emotions : Py.dict Q;
  weight : Q
}.

Record AggregatedResult : Type := {
  items_analyzed : Z;
  sentiment : Py.dict Q;
  emotions : Py.dict Q;
  source_breakdown : Py.dict SourceBreakdown;
  dominant_emotion : string;
  avg_compound : Q
}.

(** [AggregatedResult()]: every field at its declared default. *)
Definition AggregatedResult_default : AggregatedResult := {|
  items_analyzed := 0;
  sentiment := [];
  emotions := [];
  source_breakdown := [];
  dominant_emotion := "neutral";
  avg_compound := 0
|}.

Record Aggregator : Type := {
  source_weights : Py.dict Q
}.

(** [Aggregator(config)], with [config.get("source_weights", {})]. *)
Definition __init__ (config_source_weights : option (Py.dict Q)) : Aggregator :=
  {| source_weights := default [] config_source_weights |}.

(** [l[i]], raising [IndexError] out of range. *)
Definition index {A : Type} (l : list A) (i : nat) : Py.result A :=
  match nth_error l i with
  | Some x => Py.Ok x
  | None => Py.Raise Py.IndexError
  end.

(** [sum(field(x) for x in xs) / n] *)
Definition mean_of {A : Type} (field : A -> Q) (xs : list A) (n : nat) : Q :=
  Py.sum (map field xs) / inject_Z (Z.of_nat n).

(** [e.scores.get(emotion, 0.0)] *)
Definition score_of (emotion : string) (e : EmotionResult) : Q :=
  Py.get (Emotion.scores e) emotion 0.

(** The loop that fills an emotion dictionary with rounded means over
    [EMOTION_CATEGORIES]. *)
Definition emotion_means (es : list EmotionResult) (n : nat) : Py.dict Q :=
  fold_left
    (fun d emotion => Py.set d emotion (Py.round (mean_of (score_of emotion) es n) 4))
    EMOTION_CATEGORIES [].

(** [{k: round(v / emo_total, 4) for k, v in global_emotions.items()}] when
    [emo_total > 0]. *)
Definition normalize_emotions (global_emotions : Py.dict Q) : Py.dict Q :=
  let emo_total := Py.sum (Py.values global_emotions) in
  if Qlt_le_dec 0 emo_total
  then map (fun '(k, v) => (k, Py.round (v / emo_total) 4)) global_emotions
  else global_emotions.

(** The loop over [enumerate(items)] that fills [source_groups]. *)
Definition source_groups (items : list CollectedItem) : Py.dict (list nat) :=
  fold_left
    (fun groups '(i, item) =>
       Py.set groups (source_category item)
         (Py.get groups (source_category item) [] ++ [i])%list)
    (combine (seq 0 (length items)) items) [].

(** The body of the loop over [source_groups.items()]. *)
Definition source_entry (self : Aggregator)
    (sentiments : list SentimentResult) (emotions : list EmotionResult)
    (source_cat : string) (indices : list nat) : Py.result SourceBreakdown :=
  let src_n := length indices in
  src_sents ← Py.mapM (index sentiments) indices;
  src_emos ← Py.mapM (index emotions) indices;
  Py.Ok {|
    count := src_n;
    sb_sentiment :=
      [ ("positive", Py.round (mean_of positive src_sents src_n) 4);
        ("neutral", Py.round (mean_of neutral src_sents src_n) 4);
        ("negative", Py.round (mean_of negative src_sents src_n) 4) ];
    sb_emotions := emotion_means src_emos src_n;
    weight := Py.get (source_weights self) source_cat 0
  |}.

Definition aggregate (self : Aggregator) (items : list CollectedItem)
    (sentiments : list SentimentResult) (emotions : list EmotionResult)
    : Py.result AggregatedResult :=
  if negb (Py.truthy items) then Py.Ok AggregatedResult_default
  else
    let n := length items in
    (* Global sentiment averages *)
    let avg_pos := mean_of positive sentiments n in
    let avg_neu := mean_of neutral sentiments n in
    let avg_neg := mean_of negative sentiments n in
    let avg_compound := mean_of compound sentiments n in
    let global_sentiment :=
      [ ("positive", Py.round avg_pos 4);
        ("neutral", Py.round avg_neu 4);
        ("negative", Py.round avg_neg 4) ] in
    (* Global emotion averages, normalized *)
    let global_emotions := normalize_emotions (emotion_means emotions n) in
    dominant ← Py.max_key global_emotions;
    (* Per-source breakdown *)
    source_breakdown ←
      Py.mapM
        (fun '(source_cat, indices) =>
           entry ← source_entry self sentiments emotions source_cat indices;
           Py.Ok (source_cat, entry))
        (source_groups items);
    Py.Ok {|
      items_analyzed := Z.of_nat n;
      sentiment := global_sentiment;
      emotions := global_emotions;
      source_breakdown := source_breakdown;
      dominant_emotion := dominant;
      avg_compound := Py.round avg_compound 4
    |}.

End Aggregator.

(** ** src/scoring/loosh_index.py *)

Module LooshIndex.
Import Aggregator.
Local Open Scope Q_scope.

Record EmotionComponent : Type := {
  score : Q;
  polarity : Q;
  contribution : Q
}.

(** The non-empty [components] dictionary of a score. *)
Record Components : Type := {
  c_emotion_signal : Q;
  c_sentiment_amplifier : Q;
  c_baseline : Q;
  c_raw_index : Q;
  c_emotion_breakdown : Py.dict EmotionComponent
}.

(** [components] is [None] for the empty dictionary [{}]. *)
Record LooshScore : Type := {
  index : Q;
  label : string;
  components : option Components
}.

(** The configuration dictionary; an absent key is [None]. *)
Record LooshConfig : Type := {
  cfg_emotion_polarity : option (Py.dict Q);
  cfg_baseline : option Q;
  cfg_scale_min : option Q;
  cfg_scale_max : option Q
}.

Record Config : Type := {
  cfg_loosh_index : option LooshConfig;
  cfg_source_weights : option (Py.dict Q)
}.

Record LooshIndexCalculator : Type := {
  emotion_polarity : Py.dict Q;
  baseline : Q;
  scale_min : Q;
  scale_max : Q;
  calc_source_weights : Py.dict Q
}.

Definition default_emotion_polarity : Py.dict Q :=
  [ ("joy", - (1)); ("anger", 15 # 10); ("fear", 18 # 10);
    ("sadness", 12 # 10); ("surprise", 3 # 10); ("disgust", 1);
    ("trust", - (8 # 10)); ("anticipation", 2 # 10) ].

(** [config.get("loosh_index", {})] *)
Definition empty_loosh_config : LooshConfig := {|
  cfg_emotion_polarity := None;
  cfg_baseline := None;
  cfg_scale_min := None;
  cfg_scale_max := None
|}.

(** [LooshIndexCalculator.__init__]: no statement of the constructor
    raises, so the result is always [Ok]. *)
Definition __init__ (config : Config) : Py.result LooshIndexCalculator :=
  let loosh_config := default empty_loosh_config (cfg_loosh_index config) in
  Py.Ok {|
    emotion_polarity :=
      default default_emotion_polarity (cfg_emotion_polarity loosh_config);
    baseline := default 50 (cfg_baseline loosh_config);
    scale_min := default 0 (cfg_scale_min loosh_config);
    scale_max := default 100 (cfg_scale_max loosh_config);
    calc_source_weights := default [] (cfg_source_weights config)
  |}.

Definition _label (index : Q) : string :=
  if Qlt_le_dec index 20 then "Very Calm"
  else if Qlt_le_dec index 35 then "Calm"
  else if Qlt_le_dec index 45 then "Slightly Calm"
  else if Qlt_le_dec index 55 then "Neutral"
  else if Qlt_le_dec index 65 then "Slightly Elevated"
  else if Qlt_le_dec index 75 then "Elevated"
  else if Qlt_le_dec index 85 then "High"
  else "Very High".

(** Step 1, the loop over [aggregated.emotions.items()]; the state is
    [(emotion_signal, emotion_components)]. *)
Definition emotion_step (self : LooshIndexCalculator)
    (st : Q * Py.dict EmotionComponent) (kv : string * Q)
    : Q * Py.dict EmotionComponent :=
  let '(emotion_signal, emotion_components) := st in
  let '(emotion, score) := kv in
  let polarity := Py.get (emotion_polarity self) emotion 0 in
  let contribution := score * polarity in
  (emotion_signal + contribution,
   Py.set emotion_components emotion
     {| score := score; polarity := polarity;
        contribution := Py.round contribution 4 |}).

(** The inner loop of step 3: one source's own emotion signal. *)
Definition src_signal_step (self : LooshIndexCalculator)
    (src_signal : Q) (kv : string * Q) : Q :=
  let '(emotion, score) := kv in
  let polarity := Py.get (emotion_polarity self) emotion 0 in
  src_signal + score * polarity.

(** The outer loop of step 3; the state is
    [(weighted_signal, total_weight)]. *)
Definition source_step (self : LooshIndexCalculator)
    (st : Q * Q) (kv : string * SourceBreakdown) : Q * Q :=
  let '(weighted_signal, total_weight) := st in
  let '(source_cat, breakdown) := kv in
  let weight := Py.get (calc_source_weights self) source_cat 0 in
  if Qlt_le_dec 0 weight then
    let src_signal :=
      fold_left (src_signal_step self) (sb_emotions breakdown) 0 in
    (weighted_signal + src_signal * weight, total_weight + weight)
  else (weighted_signal, total_weight).

Definition calculate (self : LooshIndexCalculator)
    (aggregated : AggregatedResult) : LooshScore :=
  if (items_analyzed aggregated =? 0)%Z then
    {| index := baseline self; label := "No Data"; components := None |}
  else
    (* Step 1: emotion-weighted contribution *)
    let '(emotion_signal, emotion_components) :=
      fold_left (emotion_step self) (emotions aggregated) (0, []) in
    (* Step 2: sentiment negativity amplifier *)
    let neg_ratio := Py.get (sentiment aggregated) "negative" 0 in
    let pos_ratio := Py.get (sentiment aggregated) "positive" 0 in
    let sentiment_amplifier := 1 + (neg_ratio - pos_ratio) * (1 # 2) in
    (* Step 3: source-weighted adjustment *)
    let emotion_signal :=
      if Py.truthy (source_breakdown aggregated)
         && Py.truthy (calc_source_weights self)
      then
        let '(weighted_signal, total_weight) :=
          fold_left (source_step self) (source_breakdown aggregated) (0, 0) in
        if Qlt_le_dec 0 total_weight then weighted_signal / total_weight
        else emotion_signal
      else emotion_signal in
    (* Step 4: raw index *)
    let raw_index := baseline self + emotion_signal * sentiment_amplifier * 25 in
    (* Step 5: clamp *)
    let index :=
      Py.max (scale_min self) (Py.min (scale_max self) (Py.round raw_index 1)) in
    {| index := index;
       label := _label index;
       components := Some {|
         c_emotion_signal := Py.round emotion_signal 4;
         c_sentiment_amplifier := Py.round sentiment_amplifier 4;
         c_baseline := baseline self;
         c_raw_index := Py.round raw_index 2;
         c_emotion_breakdown := emotion_components
       |}
    |}.

End LooshIndex.

(** ** Specification-level definitions *)

(** *** Finite sums *)

Module Sums.
Local Open Scope Q_scope.

(** Sum of a list of rationals, from the right. *)
Definition Qsum (xs : list Q) : Q := fold_right Qplus 0 xs.

(** Sum of a list of natural numbers. *)
Definition nsum (xs : list nat) : nat := fold_right Nat.add 0%nat xs.

End Sums.

(** *** Dominant category *)

Module DominantSpec.
Local Open Scope Q_scope.

(** [k] is the argmax of [d], the earliest one in iteration order among
    the keys that reach the maximum. *)
Definition is_first_argmax (d : Py.dict Q) (k : string) : Prop :=
  exists (i : nat) (v : Q),
    d !! i = Some (k, v)
    /\ (forall j k' v', d !! j = Some (k', v') -> v' <= v)
    /\ (forall j k' v', (j < i)%nat -> d !! j = Some (k', v') -> v' < v).

(** [k] is the argmax of the 8 fractions of [d], and among the categories
    that reach the maximum it is the earliest in the fixed category order
    (joy, anger, fear, sadness, surprise, disgust, trust, anticipation). *)
Definition spec_dominant (d : Py.dict Q) (k : string) : Prop :=
  exists i : nat,
    Emotion.EMOTION_CATEGORIES !! i = Some k
    /\ (forall j c, Emotion.EMOTION_CATEGORIES !! j = Some c ->
        Py.get d c 0 <= Py.get d k 0)
    /\ (forall j c, (j < i)%nat -> Emotion.EMOTION_CATEGORIES !! j = Some c ->
        Py.get d c 0 < Py.get d k 0).

End DominantSpec.

(** *** Composite index: the formula of the specification *)

Module LooshIndexSpec.
Import Emotion Aggregator LooshIndex Sums.
Local Open Scope Q_scope.

(** "For each of the 8 categories, multiply its corpus mean fraction by a
    configured polarity weight; sum the 8 products." A category absent from
    a mapping counts for 0. *)
Definition spec_emotion_signal (polarity fractions : Py.dict Q) : Q :=
  Qsum (map (fun c => Py.get fractions c 0 * Py.get polarity c 0)
            EMOTION_CATEGORIES).

(** "1.0 + (negative_ratio - positive_ratio) x 0.5, using the corpus-level
    sentiment means." *)
Definition spec_sentiment_amplifier (agg : AggregatedResult) : Q :=
  1 + (Py.get (sentiment agg) "negative" 0
       - Py.get (sentiment agg) "positive" 0) * (1 # 2).

(** The configured weights of the sources of the breakdown that are
    strictly positive: the weights the override uses. *)
Definition spec_weights_used (self : LooshIndexCalculator)
    (agg : AggregatedResult) : list Q :=
  List.filter (fun w => if Qlt_le_dec 0 w then true else false)
    (map (fun kv => Py.get (calc_source_weights self) (fst kv) 0)
         (source_breakdown agg)).

(** "If both a per-source breakdown and nonzero configured source weights
    exist": the override applies when some source of the breakdown has a
    strictly positive configured weight. *)
Definition spec_override_applies (self : LooshIndexCalculator)
    (agg : AggregatedResult) : Prop :=
  source_breakdown agg <> [] /\ calc_source_weights self <> []
  /\ 0 < Qsum (spec_weights_used self agg).

(** "For each source with a strictly positive configured weight, compute
    that source's own emotion signal and accumulate signal x weight; divide
    the accumulated total by the sum of weights used." *)
Definition spec_override_signal (self : LooshIndexCalculator)
    (agg : AggregatedResult) : Q :=
  Qsum
    (map (fun kv =>
            let w := Py.get (calc_source_weights self) (fst kv) 0 in
            if Qlt_le_dec 0 w
            then Qsum (map (fun ev => snd ev * Py.get (emotion_polarity self) (fst ev) 0)
                         (sb_emotions (snd kv))) * w
            else 0)
         (source_breakdown agg))
  / Qsum (spec_weights_used self agg).

(** "Clamped to [scale_min, scale_max]". *)
Definition spec_clamp (lo hi x : Q) : Q := Py.max lo (Py.min hi x).

(** The emotion signal that enters the raw index, as the code computes it. *)
Definition final_signal (self : LooshIndexCalculator) (agg : AggregatedResult)
    : Q :=
  let corpus := fold_left (src_signal_step self) (emotions agg) 0 in
  if Py.truthy (source_breakdown agg) && Py.truthy (calc_source_weights self)
  then
    let totals := fold_left (source_step self) (source_breakdown agg) (0, 0) in
    if Qlt_le_dec 0 (snd totals) then fst totals / snd totals else corpus
  else corpus.

End LooshIndexSpec.

(** *** Aggregation: the corpus-wide emotion mapping *)

Module AggregatorSpec.
Import Emotion Aggregator Sums.
Local Open Scope Q_scope.

(** "Arithmetic mean of each category's fraction across all items". *)
Definition spec_mean (c : string) (es : list EmotionResult) (n : nat) : Q :=
  Qsum (map (score_of c) es) / inject_Z (Z.of_nat n).

(** The mean as the code keeps it: rounded to 4 decimals. *)
Definition spec_rounded_mean (c : string) (es : list EmotionResult) (n : nat)
    : Q :=
  Py.round (spec_mean c es n) 4.

(** The total of the 8 rounded means. *)
Definition spec_total (es : list EmotionResult) (n : nat) : Q :=
  Qsum (map (fun c => spec_rounded_mean c es n) EMOTION_CATEGORIES).

End AggregatorSpec.

(** *** Lexicon strategy: hit counts *)

Module EmotionSpec.
Import Emotion Sums.

(** Number of occurrences of [x] in [l]. *)
Definition occ (x : string) (l : list string) : nat :=
  length (List.filter (String.eqb x) l).

(** "Each token is looked up in a curated mapping from words to one or more
    of the 8 categories; every match increments that category's hit count":
    the hits of one token for category [c] are its entries in the word list
    of [c]. *)
Definition spec_word_hits (c w : string) : nat :=
  occ w (Py.get _EMOTION_LEXICON c []).

Definition spec_hit_count (c : string) (words : list string) : nat :=
  nsum (map (spec_word_hits c) words).

(** "... and a global hit total": the hits of all categories. *)
Definition spec_total_hits (words : list string) : nat :=
  nsum (map (fun c => spec_hit_count c words) EMOTION_CATEGORIES).

(** No token is a word of the lexicon. *)
Definition spec_no_match (words : list string) : Prop :=
  forall w c ws, w ∈ words -> (c, ws) ∈ _EMOTION_LEXICON -> w ∉ ws.

(** At least one token is a word of the lexicon. *)
Definition spec_some_match (words : list string) : Prop :=
  exists w c ws, w ∈ words /\ (c, ws) ∈ _EMOTION_LEXICON /\ w ∈ ws.

(** [emotion_counts.get(c, 0)] *)
Definition counter_get (m : gmap string nat) (c : string) : nat :=
  default 0%nat (m !! c).

End EmotionSpec.

(** *** Deduplication: which items a session keeps *)

Module DedupSpec.
Import Base BaseText Dedup.
Local Open Scope Q_scope.

(** "An item with empty combined text". *)
Definition is_blank (x : CollectedItem) : bool :=
  negb (PyStr.truthy (PyStr.strip (combined_text x))).

(** The canonicalized combined title+text of an item. *)
Definition canon (x : CollectedItem) : string :=
  _normalize_for_hash (combined_text x).

(** The exact-duplicate key of an item: the digest of its canonical text. *)
Definition item_hash (x : CollectedItem) : string :=
  _content_hash (combined_text x).

(** The near-duplicate key of an item: its set of 3-character shingles. *)
Definition item_fp (x : CollectedItem) : gset string :=
  _ngram_fingerprint (combined_text x) 3.

(** Jaccard similarity of the shingle sets of two items. *)
Definition similarity (x y : CollectedItem) : Q :=
  _jaccard_similarity (item_fp x) (item_fp y).

Arguments is_blank : simpl never.
Arguments canon : simpl never.
Arguments item_hash : simpl never.
Arguments item_fp : simpl never.
Arguments similarity : simpl never.

(** "Exact duplicate": the digest matches that of an accepted item. *)
Definition exact_dup (x : CollectedItem) (accepted : list CollectedItem)
    : bool :=
  existsb (fun y => String.eqb (item_hash y) (item_hash x)) accepted.

(** "Near duplicate": the similarity against some kept item meets or
    exceeds the threshold. *)
Definition near_dup (threshold : Q) (x : CollectedItem)
    (kept : list CollectedItem) : bool :=
  existsb (fun y => Qle_bool threshold (similarity x y)) kept.

(** What one call keeps, as the code decides it: [session] are the items
    accepted by the earlier calls, [batch] those accepted so far by this
    call. The exact test looks at both, the near test at [batch] only. *)
Fixpoint spec_keep (threshold : Q) (session batch : list CollectedItem)
    (items : list CollectedItem) : list CollectedItem :=
  match items with
  | [] => []
  | x :: rest =>
      if is_blank x then spec_keep threshold session batch rest
      else if exact_dup x (session ++ batch)%list
      then spec_keep threshold session batch rest
      else if near_dup threshold x batch
      then spec_keep threshold session batch rest
      else x :: spec_keep threshold session (batch ++ [x])%list rest
  end.

Fixpoint spec_session (threshold : Q) (session : list CollectedItem)
    (calls : list (list CollectedItem)) : list (list CollectedItem) :=
  match calls with
  | [] => []
  | items :: calls' =>
      let out := spec_keep threshold session [] items in
      out :: spec_session threshold (session ++ out)%list calls'
  end.

(** What one call would keep if, as the claim has it, both tests looked at
    ALL items accepted earlier in the session. *)
Fixpoint claim_keep (threshold : Q) (session batch : list CollectedItem)
    (items : list CollectedItem) : list CollectedItem :=
  match items with
  | [] => []
  | x :: rest =>
      if is_blank x then claim_keep threshold session batch rest
      else if exact_dup x (session ++ batch)%list
      then claim_keep threshold session batch rest
      else if near_dup threshold x (session ++ batch)%list
      then claim_keep threshold session batch rest
      else x :: claim_keep threshold session (batch ++ [x])%list rest
  end.

Fixpoint claim_session (threshold : Q) (session : list CollectedItem)
    (calls : list (list CollectedItem)) : list (list CollectedItem) :=
  match calls with
  | [] => []
  | items :: calls' =>
      let out := claim_keep threshold session [] items in
      out :: claim_session threshold (session ++ out)%list calls'
  end.

(** The digests of a list of accepted items. *)
Definition hashes (accepted : list CollectedItem) : gset string :=
  list_to_set (map item_hash accepted).

End DedupSpec.

(** *** Shapes of cleaned and canonical text *)

Module TextForm.
Import PyStr.

(** The characters of [s.strip()]. *)
Definition strip_chars (l : list ascii) : list ascii :=
  rev (lstrip_chars (rev (lstrip_chars l))).

(** No two white-space characters in a row. *)
Fixpoint single_spaced (l : list ascii) : bool :=
  match l with
  | [] => true
  | a :: t =>
      match t with
      | [] => true
      | b :: _ => negb (isspace a && isspace b) && single_spaced t
      end
  end.

(** The first character, if any, is not white space. *)
Definition no_lead_space (l : list ascii) : bool :=
  match l with
  | [] => true
  | c :: _ => negb (isspace c)
  end.

(** The last character, if any, is not white space. *)
Definition no_trail_space (l : list ascii) : bool := no_lead_space (rev l).

(** The only white-space character is the space (code 32). *)
Definition plain_space (c : ascii) : bool :=
  negb (isspace c) || Ascii.eqb c " ".

(** The canonical form that [_normalize_for_hash] produces: letters a to z,
    digits and single spaces, with no space at either end. *)
Definition is_canonical (s : string) : bool :=
  forallb Dedup.is_norm_char (chars s)
  && single_spaced (chars s)
  && no_lead_space (chars s)
  && no_trail_space (chars s).

(** The form of a text returned by [clean]: allow-listed characters, the
    space as only white space, never two spaces in a row and none in front. *)
Definition is_clean_form (s : string) : bool :=
  forallb (fun c => Cleaner.is_kept_char c && plain_space c) (chars s)
  && single_spaced (chars s)
  && no_lead_space (chars s).

(** A word: a non-empty sequence without white space. *)
Definition is_run (q : list ascii) : Prop :=
  q <> [] /\ forallb (fun c => negb (isspace c)) q = true.

(** [_URL_RE] matches nowhere in [l]. *)
Fixpoint url_free (l : list ascii) : bool :=
  match l with
  | [] => true
  | _ :: l' => negb (Cleaner.url_starts l) && url_free l'
  end.

End TextForm.

Module CleanBody.
Import PyStr Cleaner.

Section WithHtmlUnescape.

Variable html_unescape : string -> string.

(** The text before truncation, as [clean] computes it. *)
Definition clean_body (text : string) : string :=
  strip (sub_spaces (_SPECIAL_CHARS_RE_sub (_URL_RE_sub
    (_HTML_TAG_RE_sub (html_unescape text))))).

End WithHtmlUnescape.

End CleanBody.

(** *** The loop of [deduplicate], item by item *)

Module DedupLoop.
Import Base Dedup DedupSpec.

(** The items one call keeps, for any set [seen] of digests: [kept] are the
    items kept so far by this call. *)
Fixpoint keep_loop (threshold : Q) (seen : gset string)
    (kept : list CollectedItem) (items : list CollectedItem)
    : list CollectedItem :=
  match items with
  | [] => []
  | x :: rest =>
      if is_blank x then keep_loop threshold seen kept rest
      else if bool_decide (item_hash x ∈ seen) || near_dup threshold x kept
      then keep_loop threshold seen kept rest
      else x :: keep_loop threshold ({[ item_hash x ]} ∪ seen)
                  (kept ++ [x])%list rest
  end.

(** What [deduplicate] would keep if only the digest test were made:
    the first item of every digest not in [seen], blank items left out. *)
Fixpoint keep_exact (seen : gset string) (items : list CollectedItem)
    : list CollectedItem :=
  match items with
  | [] => []
  | x :: rest =>
      if is_blank x || bool_decide (item_hash x ∈ seen)
      then keep_exact seen rest
      else x :: keep_exact ({[ item_hash x ]} ∪ seen) rest
  end.

(** The items that can be kept at all: not blank, digest not in [seen]. *)
Definition is_candidate (seen : gset string) (x : CollectedItem) : bool :=
  negb (is_blank x) && negb (bool_decide (item_hash x ∈ seen)).

(** The state in which [deduplicate] enters its loop. *)
Definition loop_start (self : Deduplicator) : LoopState :=
  {| seen_hashes := _seen_hashes self;
     fingerprints := [];
     unique := [];
     duplicates_removed := 0 |}.

End DedupLoop.

(** *** What the cleaning loop of [process] does to one item *)

Module PipelineSpec.
Import Base PyStr.

Section WithHtmlUnescape.

Variable html_unescape : string -> string.

(** [y] is the item [x] after the cleaning loop: the source fields are
    those of [x]; the text is the cleaned text, or empty when cleaning
    rejected it; the title is the cleaned title when cleaning returned one
    and the title of [x] as it was otherwise. *)
Definition cleaned_from (c : Cleaner.TextCleaner) (x y : CollectedItem)
    : Prop :=
  source_name y = source_name x
  /\ source_category y = source_category x
  /\ url y = url x
  /\ published y = published x
  /\ metadata y = metadata x
  /\ (Cleaner.clean html_unescape c (text x) = Some (text y)
      \/ Cleaner.clean html_unescape c (text x) = None /\ text y = "")
  /\ (title y = title x
      \/ exists t t', title x = Some t
                      /\ Cleaner.clean html_unescape c t = Some t'
                      /\ title y = Some t').

End WithHtmlUnescape.

End PipelineSpec.

(** *** The per-source breakdown, said by category *)

Module BreakdownSpec.
Import Base Sentiment Emotion Aggregator.
Local Open Scope Q_scope.

(** The distinct elements of a list in the order of their first
    occurrence. *)
Definition add_key (acc : list string) (c : string) : list string :=
  if existsb (String.eqb c) acc then acc else (acc ++ [c])%list.

Definition first_seen (l : list string) : list string :=
  fold_left add_key l [].

Definition in_category (c : string) (x : CollectedItem) : bool :=
  String.eqb (source_category x) c.

(** The positions, among numbered items, of those of category [c]. *)
Definition positions (c : string) (ps : list (nat * CollectedItem))
    : list nat :=
  map fst (List.filter (fun p => in_category c (snd p)) ps).

(** The analysis results of the items of category [c], [l] being aligned
    with [items]. *)
Definition select {A : Type} (c : string) (items : list CollectedItem)
    (l : list A) : list A :=
  map snd (List.filter (fun p => in_category c (fst p)) (combine items l)).

(** The entry of category [c]: the number of its items, the rounded means
    over their results and the configured weight. *)
Definition spec_entry (self : Aggregator) (items : list CollectedItem)
    (sentiments : list SentimentResult) (emotions : list EmotionResult)
    (c : string) : SourceBreakdown :=
  let k := length (List.filter (in_category c) items) in
  {| count := k;
     sb_sentiment :=
       [ ("positive", Py.round (mean_of positive (select c items sentiments) k) 4);
         ("neutral", Py.round (mean_of neutral (select c items sentiments) k) 4);
         ("negative", Py.round (mean_of negative (select c items sentiments) k) 4) ];
     sb_emotions := emotion_means (select c items emotions) k;
     weight := Py.get (source_weights self) c 0 |}.

Definition spec_breakdown (self : Aggregator) (items : list CollectedItem)
    (sentiments : list SentimentResult) (emotions : list EmotionResult)
    : Py.dict SourceBreakdown :=
  map (fun c => (c, spec_entry self items sentiments emotions c))
    (first_seen (map source_category items)).

(** The loop of [source_groups] over numbered items, from [groups]. *)
Definition group_step (groups : Py.dict (list nat))
    (p : nat * CollectedItem) : Py.dict (list nat) :=
  let '(i, item) := p in
  Py.set groups (source_category item)
    (Py.get groups (source_category item) [] ++ [i])%list.

(** The groups of numbered items, said by category. *)
Definition spec_groups (ps : list (nat * CollectedItem))
    : Py.dict (list nat) :=
  map (fun c => (c, positions c ps))
    (first_seen (map (fun p => source_category (snd p)) ps)).

End BreakdownSpec.

(** *** Labels in order, weights rescaled, the expected components *)

Module LooshIndexMore.
Import Aggregator LooshIndex.
Local Open Scope Q_scope.

(** The labels of [_label] from the calmest to the most intense. *)
Definition LABELS : list string :=
  [ "Very Calm"; "Calm"; "Slightly Calm"; "Neutral"; "Slightly Elevated";
    "Elevated"; "High"; "Very High" ].

(** The position of [s] in [l] ([length l] when absent). *)
Fixpoint position (s : string) (l : list string) : nat :=
  match l with
  | [] => 0
  | x :: l' => if String.eqb x s then 0 else S (position s l')
  end.

Definition label_rank (s : string) : nat := position s LABELS.

(** Every configured source weight multiplied by [k]. *)
Definition scale_weights (k : Q) (weights : Py.dict Q) : Py.dict Q :=
  map (fun '(c, w) => (c, k * w)) weights.

Definition with_source_weights (self : LooshIndexCalculator)
    (weights : Py.dict Q) : LooshIndexCalculator :=
  {| emotion_polarity := emotion_polarity self;
     baseline := baseline self;
     scale_min := scale_min self;
     scale_max := scale_max self;
     calc_source_weights := weights |}.

(** The entry of [emotion_breakdown] for one emotion of the aggregate. *)
Definition spec_component (self : LooshIndexCalculator) (kv : string * Q)
    : string * EmotionComponent :=
  (fst kv,
   {| score := snd kv;
      polarity := Py.get (emotion_polarity self) (fst kv) 0;
      contribution :=
        Py.round (snd kv * Py.get (emotion_polarity self) (fst kv) 0) 4 |}).

End LooshIndexMore.

(** ** src/models/emotion.py and src/models/sentiment.py: the analyzers
    and their transformer strategies *)

Module Transformers.

(** One dictionary [{"label": ..., "score": ...}] returned by a
    [transformers] text-classification pipeline. *)
Record LabelScore : Type := {
  ls_label : string;
  ls_score : Q
}.

(** The result of an attribute call: what the callee returns or raises,
    or the error of calling, or reading an attribute of, [None]. *)
Inductive call (A : Type) : Type :=
| Returned (r : Py.result A)
| NoneUsed.
Arguments Returned {A} r.
Arguments NoneUsed {A}.

End Transformers.

Module EmotionDeep.
Import PyStr Emotion Transformers.
Local Open Scope Q_scope.

(** [label_map] of [_analyze_transformer]: the model's labels and the
    category each one stands for ([None] for ["neutral"]). *)
Definition label_map : Py.dict (option string) :=
  [ ("joy", Some "joy"); ("anger", Some "anger"); ("fear", Some "fear");
    ("sadness", Some "sadness"); ("surprise", Some "surprise");
    ("disgust", Some "disgust"); ("neutral", None) ].

(** [k in d] *)
Definition has_key {V : Type} (d : Py.dict V) (k : string) : bool :=
  match Py.lookup d k with
  | Some _ => true
  | None => false
  end.

(** The body of [for r in results]. *)
Definition result_step (scores : Py.dict Q) (r : LabelScore) : Py.dict Q :=
  let mapped := Py.get label_map (ls_label r) None in
  match mapped with
  | Some m =>
      if truthy m && has_key scores m
      then Py.set scores m (Py.round (ls_score r) 4)
      else scores
  | None => scores
  end.

(** The part of [_analyze_transformer] after the model has answered. *)
Definition scores_of_results (results : list LabelScore) : Py.dict Q :=
  let scores := map (fun e => (e, 0)) EMOTION_CATEGORIES in
  let scores := fold_left result_step results scores in
  (* Fill unmapped categories *)
  let total := Py.sum (Py.values scores) in
  if Qlt_le_dec 0 total
  then map (fun '(k, v) => (k, Py.round (v / total) 4)) scores
  else map (fun k =>
              (k, Py.round (1 / inject_Z (Z.of_nat (length EMOTION_CATEGORIES))) 4))
         EMOTION_CATEGORIES.

Section WithTransformer.

(** The pipeline built with [top_k=None]: for one text, a list holding the
    list of all labels with their scores. *)
Variable _transformer_pipeline : string -> list (list LabelScore).

Definition _analyze_transformer (text : string) : Py.result EmotionResult :=
  let truncated := slice_to text 512 in
  results ← Aggregator.index (_transformer_pipeline truncated) 0;
  let scores := scores_of_results results in
  dominant ← Py.max_key scores;
  Py.Ok {| scores := scores; dominant_emotion := dominant |}.

End WithTransformer.

(** The attributes of an [EmotionAnalyzer]. *)
Record EmotionAnalyzer : Type := {
  mode : string;
  pipeline_attr : option (string -> list (list LabelScore))
}.

(** [EmotionAnalyzer(mode)]; [transformers] is the pipeline that
    [from transformers import pipeline] gives, [None] when the import
    fails. *)
Definition __init__ (mode : string)
    (transformers : option (string -> list (list LabelScore)))
    : EmotionAnalyzer :=
  if String.eqb mode "deep" then
    (* _init_transformer *)
    match transformers with
    | Some p => {| mode := mode; pipeline_attr := Some p |}
    | None => {| mode := "lightweight"; pipeline_attr := None |}
    end
  else {| mode := mode; pipeline_attr := None |}.

Definition analyze (self : EmotionAnalyzer) (text : string)
    : call EmotionResult :=
  if String.eqb (mode self) "lightweight" then Returned (_analyze_lexicon text)
  else
    match pipeline_attr self with
    | Some p => Returned (_analyze_transformer p text)
    | None => NoneUsed
    end.

End EmotionDeep.

Module SentimentDeep.
Import PyStr Sentiment Transformers.
Local Open Scope Q_scope.

Section WithTransformer.

(** The sentiment pipeline: for one text, a list holding one label with
    its score. *)
Variable _transformer_pipeline : string -> list LabelScore.

Definition _analyze_transformer (text : string) : Py.result SentimentResult :=
  (* Truncate for transformer input *)
  let truncated := slice_to text 512 in
  result ← Aggregator.index (_transformer_pipeline truncated) 0;
  let label := ls_label result in
  let score := ls_score result in
  if String.eqb label "POSITIVE" then
    Py.Ok {| positive := score;
             neutral := 0;
             negative := 1 - score;
             compound := score * 2 - 1 |}
  else
    Py.Ok {| positive := 1 - score;
             neutral := 0;
             negative := score;
             compound := - (score * 2 - 1) |}.

End WithTransformer.

(** The attributes of a [SentimentAnalyzer]. *)
Record SentimentAnalyzer : Type := {
  mode : string;
  _vader : option (string -> Q * Q * Q * Q);
  pipeline_attr : option (string -> list LabelScore)
}.

(** [SentimentAnalyzer(mode)]: [vader] and [transformers] are what the two
    imports give, [None] when the import fails; the result is [None] when
    the constructor lets the [ImportError] of vaderSentiment through. *)
Definition _init_vader (mode : string)
    (vader : option (string -> Q * Q * Q * Q)) : option SentimentAnalyzer :=
  match vader with
  | Some v => Some {| mode := mode; _vader := Some v; pipeline_attr := None |}
  | None => None
  end.

Definition __init__ (mode : string)
    (vader : option (string -> Q * Q * Q * Q))
    (transformers : option (string -> list LabelScore))
    : option SentimentAnalyzer :=
  if String.eqb mode "lightweight" then _init_vader mode vader
  else
    (* _init_transformer *)
    match transformers with
    | Some p => Some {| mode := mode; _vader := None; pipeline_attr := Some p |}
    | None => _init_vader "lightweight" vader
    end.

Definition analyze (self : SentimentAnalyzer) (text : string)
    : call SentimentResult :=
  if String.eqb (mode self) "lightweight" then
    match _vader self with
    | Some v => Returned (Py.Ok (_analyze_vader v text))
    | None => NoneUsed
    end
  else
    match pipeline_attr self with
    | Some p => Returned (_analyze_transformer p text)
    | None => NoneUsed
    end.

End SentimentDeep.

(** ** src/models/topics.py *)

Module Topics.
Import PyStr.

(** The words of the [frozenset] literal, as written. *)
Definition stop_word_list : list string :=
  [ "a"; "an"; "the"; "and"; "or"; "but"; "in"; "on"; "at"; "to"; "for"; "of";
    "with"; "by"; "from"; "is"; "are"; "was"; "were"; "be"; "been"; "being";
    "have"; "has"; "had"; "do"; "does"; "did"; "will"; "would"; "could";
    "should"; "may"; "might"; "must"; "shall"; "can"; "need"; "it"; "its";
    "this"; "that"; "these"; "those"; "i"; "you"; "he"; "she"; "we"; "they";
    "me"; "him"; "her"; "us"; "them"; "my"; "your"; "his"; "our"; "their";
    "what"; "which"; "who"; "whom"; "whose"; "when"; "where"; "why"; "how";
    "all"; "each"; "every"; "both"; "few"; "more"; "most"; "other"; "some";
    "such"; "no"; "nor"; "not"; "only"; "own"; "same"; "so"; "than"; "too";
    "very"; "just"; "because"; "as"; "until"; "while"; "if"; "then"; "also";
    "about"; "up"; "out"; "over"; "after"; "before"; "between"; "under";
    "again"; "further"; "once"; "here"; "there"; "any"; "into"; "through";
    "during"; "above"; "below"; "new"; "said"; "says"; "like"; "get"; "got";
    "go"; "going"; "one"; "two"; "first"; "last"; "long"; "great"; "little";
    "just"; "even"; "still"; "also"; "back"; "well"; "way"; "many"; "much";
    "now"; "old"; "see"; "time"; "make"; "know"; "take"; "come"; "think";
    "look"; "want"; "give"; "use"; "find"; "tell"; "ask"; "work"; "seem";
    "feel"; "try"; "leave"; "call"; "good"; "right"; "man"; "woman"; "day";
    "year"; "people"; "part"; "place"; "case"; "week"; "company"; "system";
    "program"; "question"; "home"; "government"; "number"; "night"; "point";
    "hand"; "high"; "keep"; "let"; "begin"; "life"; "thing"; "dont"; "doesnt";
    "didnt"; "wont"; "cant"; "isnt"; "arent"; "wasnt"; "amp"; "per"; "via";
    "etc"; "vs"; "re"; "de" ].

Definition _STOP_WORDS : gset string := list_to_set stop_word_list.

(** The characters of the class [[a-z'-]]. *)
Definition is_token_char (c : ascii) : bool :=
  is_az c || Ascii.eqb c "'" || Ascii.eqb c "-".

(** [\b] holds in front of [l] when the character before is a letter. *)
Definition boundary_after (l : list ascii) : bool :=
  match l with
  | [] => true
  | d :: _ => negb (is_word d)
  end.

(** The longest prefix of [l] that consists of characters of [[a-z'-]],
    ends in a letter and is followed by a word boundary: its length. This
    is where a match of [_WORD_RE] that starts at [l] ends, the star being
    greedy and the one-letter alternative coming last. *)
Fixpoint best_end (l : list ascii) : option nat :=
  match l with
  | [] => None
  | c :: l' =>
      if is_token_char c then
        match best_end l' with
        | Some k => Some (S k)
        | None => if is_az c && boundary_after l' then Some 1%nat else None
        end
      else None
  end.

(** [_WORD_RE.findall(s)] for
    [_WORD_RE = \b[a-z][a-z'-]*[a-z]\b|\b[a-z]\b]. [prev_word] tells that
    the character before is a word character, [skip] counts the characters
    of the current match still to be passed. *)
Fixpoint findall_tokens (prev_word : bool) (skip : nat) (l : list ascii)
    : list string :=
  match l with
  | [] => []
  | c :: l' =>
      match skip with
      | S k => findall_tokens (is_word c) k l'
      | O =>
          if negb prev_word && is_az c then
            match best_end l with
            | Some k => str (firstn k l) :: findall_tokens (is_word c) (k - 1) l'
            | None => findall_tokens (is_word c) 0 l'
            end
          else findall_tokens (is_word c) 0 l'
      end
  end.

Definition _WORD_RE_findall (s : string) : list string :=
  findall_tokens false 0 (chars s).

Record TopicResult : Type := {
  top_unigrams : list (string * nat);
  top_bigrams : list (string * nat);
  top_trigrams : list (string * nat)
}.

Record TopicExtractor : Type := {
  top_n : Z;
  min_word_length : Z
}.

(** [TopicExtractor(top_n=15, min_word_length=3)] *)
Definition __init__ (top_n min_word_length : option Z) : TopicExtractor :=
  {| top_n := default 15%Z top_n;
     min_word_length := default 3%Z min_word_length |}.

Definition _tokenize (self : TopicExtractor) (text : string) : list string :=
  let words := _WORD_RE_findall (lower text) in
  List.filter
    (fun w => negb (bool_decide (w ∈ _STOP_WORDS))
              && (min_word_length self <=? len w)%Z)
    words.

(** [_get_ngrams(tokens, n)] for [n >= 0] (it is called with 2 and 3):
    [tokens[i : i + n]] joined by a space, for [i] in
    [range(len(tokens) - n + 1)]. *)
Definition _get_ngrams (tokens : list string) (n : nat) : list string :=
  map (fun i => join " " (firstn n (skipn i tokens)))
    (seq 0 (length tokens + 1 - n)).

(** A [Counter]: the counts in the order in which the keys were first
    counted. [update] counts the elements of a list one by one. *)
Definition Counter : Type := Py.dict nat.

Definition count_one (c : Counter) (x : string) : Counter :=
  Py.set c x (Py.get c x 0%nat + 1)%nat.

Definition update (c : Counter) (xs : list string) : Counter :=
  fold_left count_one xs c.

(** [sorted(items, key=itemgetter(1), reverse=True)]: by decreasing count,
    entries of equal count in their original order. *)
Fixpoint insert_desc (kv : string * nat) (l : list (string * nat))
    : list (string * nat) :=
  match l with
  | [] => [kv]
  | x :: l' =>
      if (snd x <=? snd kv)%nat then kv :: l else x :: insert_desc kv l'
  end.

Definition sorted_desc (c : Counter) : list (string * nat) :=
  fold_right insert_desc [] c.

(** [Counter.most_common(n)] for an integer [n], which is
    [heapq.nlargest(n, items, key=itemgetter(1))]: the first [n] entries by
    decreasing count, none when [n <= 0]. *)
Definition most_common (c : Counter) (n : Z) : list (string * nat) :=
  firstn (Z.to_nat n) (sorted_desc c).

(** The body of [for text in texts]; the state is
    [(all_unigrams, all_bigrams, all_trigrams)]. *)
Definition extract_step (self : TopicExtractor)
    (st : Counter * Counter * Counter) (text : string)
    : Counter * Counter * Counter :=
  let '(all_unigrams, all_bigrams, all_trigrams) := st in
  let tokens := _tokenize self text in
  (update all_unigrams tokens,
   update all_bigrams (_get_ngrams tokens 2),
   update all_trigrams (_get_ngrams tokens 3)).

Definition extract (self : TopicExtractor) (texts : list string)
    : TopicResult :=
  let '(all_unigrams, all_bigrams, all_trigrams) :=
    fold_left (extract_step self) texts ([], [], []) in
  {| top_unigrams := most_common all_unigrams (top_n self);
     top_bigrams := most_common all_bigrams (top_n self);
     top_trigrams := most_common all_trigrams (top_n self) |}.

End Topics.

(** *** Tokens and counts, said directly *)

Module TopicsSpec.
Import PyStr Topics.

(** The last character exists and is a letter a to z. *)
Definition last_letter (l : list ascii) : bool :=
  match rev l with
  | [] => false
  | c :: _ => is_az c
  end.

(** A token of [_WORD_RE]: letters a to z, apostrophes and hyphens, with a
    letter at both ends. *)
Definition is_token (w : string) : bool :=
  match chars w with
  | [] => false
  | c :: _ => is_az c
  end
  && forallb is_token_char (chars w)
  && last_letter (chars w).

(** All tokens of a batch, text after text. *)
Definition all_tokens (self : TopicExtractor) (texts : list string)
    : list string :=
  flat_map (_tokenize self) texts.

(** All [n]-grams of a batch: those of each text, text after text. *)
Definition all_ngrams (self : TopicExtractor) (n : nat) (texts : list string)
    : list string :=
  flat_map (fun text => _get_ngrams (_tokenize self text) n) texts.

(** The counts never increase along the list. *)
Fixpoint is_desc (l : list (string * nat)) : bool :=
  match l with
  | [] => true
  | a :: t =>
      match t with
      | [] => true
      | b :: _ => (snd b <=? snd a)%nat && is_desc t
      end
  end.

(** [top] lists the most frequent elements of [xs] with their number of
    occurrences: at most [n] entries, distinct, by decreasing count, and
    an element that is left out occurs no more often than any listed one,
    the list then being full. *)
Definition is_top (n : Z) (xs : list string) (top : list (string * nat))
    : Prop :=
  (Z.of_nat (length top) <= Z.max 0 n)%Z
  /\ NoDup (map fst top)
  /\ (forall w k, (w, k) ∈ top -> k = EmotionSpec.occ w xs /\ (1 <= k)%nat)
  /\ is_desc top = true
  /\ (forall w, w ∈ xs -> w ∉ map fst top ->
        length top = Z.to_nat n
        /\ forall kv, kv ∈ top -> (EmotionSpec.occ w xs <= snd kv)%nat).

End TopicsSpec.

(** ** Concrete inputs used by the examples below *)

Module Fixtures.
Import Base Sentiment Emotion Aggregator.
Local Open Scope Q_scope.

(** The configuration of the test suite, with a baseline outside the scale. *)
Definition config_baseline_150 : LooshIndex.Config := {|
  LooshIndex.cfg_loosh_index := Some {|
    LooshIndex.cfg_emotion_polarity := None;
    LooshIndex.cfg_baseline := Some 150;
    LooshIndex.cfg_scale_min := Some 0;
    LooshIndex.cfg_scale_max := Some 100
  |};
  LooshIndex.cfg_source_weights := None
|}.

Definition calc_baseline_150 : LooshIndex.LooshIndexCalculator := {|
  LooshIndex.emotion_polarity := LooshIndex.default_emotion_polarity;
  LooshIndex.baseline := 150;
  LooshIndex.scale_min := 0;
  LooshIndex.scale_max := 100;
  LooshIndex.calc_source_weights := []
|}.

(** A calculator whose scale is inverted. *)
Definition calc_inverted_scale : LooshIndex.LooshIndexCalculator := {|
  LooshIndex.emotion_polarity := LooshIndex.default_emotion_polarity;
  LooshIndex.baseline := 50;
  LooshIndex.scale_min := 100;
  LooshIndex.scale_max := 0;
  LooshIndex.calc_source_weights := []
|}.

(** A configuration whose emotion-polarity table is empty. *)
Definition config_empty_polarity : LooshIndex.Config := {|
  LooshIndex.cfg_loosh_index := Some {|
    LooshIndex.cfg_emotion_polarity := Some [];
    LooshIndex.cfg_baseline := None;
    LooshIndex.cfg_scale_min := None;
    LooshIndex.cfg_scale_max := None
  |};
  LooshIndex.cfg_source_weights := None
|}.

Definition calc_empty_polarity : LooshIndex.LooshIndexCalculator := {|
  LooshIndex.emotion_polarity := [];
  LooshIndex.baseline := 50;
  LooshIndex.scale_min := 0;
  LooshIndex.scale_max := 100;
  LooshIndex.calc_source_weights := []
|}.

(** The default configuration: [LooshIndexCalculator({})]. *)
Definition config_empty : LooshIndex.Config := {|
  LooshIndex.cfg_loosh_index := None;
  LooshIndex.cfg_source_weights := None
|}.

Definition calc_default : LooshIndex.LooshIndexCalculator := {|
  LooshIndex.emotion_polarity := LooshIndex.default_emotion_polarity;
  LooshIndex.baseline := 50;
  LooshIndex.scale_min := 0;
  LooshIndex.scale_max := 100;
  LooshIndex.calc_source_weights := []
|}.

(** An aggregate of one item dominated by anger and fear. *)
Definition agg_angry : AggregatedResult := {|
  items_analyzed := 1;
  sentiment := [("positive", 1 # 10); ("neutral", 1 # 10); ("negative", 8 # 10)];
  emotions :=
    [ ("joy", 0); ("anger", 5 # 10); ("fear", 3 # 10); ("sadness", 5 # 100);
      ("surprise", 5 # 100); ("disgust", 5 # 100); ("trust", 0);
      ("anticipation", 5 # 100) ];
  source_breakdown := [];
  Aggregator.dominant_emotion := "anger";
  avg_compound := - (8 # 10)
|}.

(** One collected item and its analysis by the lexicon strategy. *)
Definition item_thirds : CollectedItem := {|
  text := "happy angry afraid";
  source_name := "feed";
  source_category := "rss_news";
  url := None;
  title := None;
  published := None;
  metadata := []
|}.

Definition sentiment_flat : SentimentResult := {|
  positive := 33 # 100;
  neutral := 34 # 100;
  negative := 33 # 100;
  compound := 0
|}.

(** What [_analyze_lexicon "happy angry afraid"] returns: one hit for each
    of joy, anger and fear. *)
Definition emotion_thirds : EmotionResult := {|
  scores :=
    [ ("joy", 3333 # 10000); ("anger", 3333 # 10000); ("fear", 3333 # 10000);
      ("sadness", 0 # 10000); ("surprise", 0 # 10000); ("disgust", 0 # 10000);
      ("trust", 0 # 10000); ("anticipation", 0 # 10000) ];
  Emotion.dominant_emotion := "joy"
|}.

(** What [_analyze_lexicon "hello world"] returns: no hit. *)
Definition emotion_no_hit : EmotionResult := {|
  scores :=
    [ ("joy", 1250 # 10000); ("anger", 1250 # 10000); ("fear", 1250 # 10000);
      ("sadness", 1250 # 10000); ("surprise", 1250 # 10000);
      ("disgust", 1250 # 10000); ("trust", 1250 # 10000);
      ("anticipation", 1250 # 10000) ];
  Emotion.dominant_emotion := "neutral"
|}.

(** [Aggregator({})] *)
Definition aggregator_default : Aggregator := Aggregator.__init__ None.

(** The items of the near-duplicate test of the test suite. *)
Definition make_item (text : string) : CollectedItem := {|
  text := text;
  source_name := "test";
  source_category := "test";
  url := None;
  title := Some "";
  published := None;
  metadata := []
|}.

Definition item_washington : CollectedItem :=
  make_item "The president announced new policy changes today in Washington".

Definition item_washington_dc : CollectedItem :=
  make_item "The president announced new policy changes today in Washington DC".

Definition item_markets : CollectedItem :=
  make_item "Stock markets crash amid global uncertainty and fears".

End Fixtures.

(** ** Further concrete inputs *)

Module FixturesMore.
Import Base Sentiment Emotion Aggregator Fixtures.
Local Open Scope Q_scope.

(** Deduplicators whose threshold lies outside of (0, 1]. *)
Definition dedup_zero : Dedup.Deduplicator := Dedup.__init__ 0.
Definition dedup_two : Dedup.Deduplicator := Dedup.__init__ 2.

Definition headlines : list CollectedItem :=
  [item_washington; item_washington_dc; item_markets].

Definition cleaner_default : Cleaner.TextCleaner := Cleaner.__init__ None None.

Definition markup : string :=
  "<p>Hello   world, see https://example.com now!</p>".

(** A calculator with one weighted source, and an aggregate with a
    breakdown for that source. *)
Definition calc_weighted : LooshIndex.LooshIndexCalculator := {|
  LooshIndex.emotion_polarity := LooshIndex.default_emotion_polarity;
  LooshIndex.baseline := 50;
  LooshIndex.scale_min := 0;
  LooshIndex.scale_max := 100;
  LooshIndex.calc_source_weights := [("rss_news", 3 # 10); ("reddit", 0)]
|}.

Definition breakdown_news : SourceBreakdown := {|
  count := 1;
  sb_sentiment := sentiment agg_angry;
  sb_emotions := emotions agg_angry;
  weight := 3 # 10
|}.

Definition agg_sources : AggregatedResult := {|
  items_analyzed := 1;
  sentiment := sentiment agg_angry;
  emotions := emotions agg_angry;
  source_breakdown := [("rss_news", breakdown_news)];
  Aggregator.dominant_emotion := "anger";
  avg_compound := - (8 # 10)
|}.

(** The same aggregate with another corpus-wide emotion mix. *)
Definition agg_sources_calm : AggregatedResult := {|
  items_analyzed := 1;
  sentiment := sentiment agg_angry;
  emotions := [("joy", 1)];
  source_breakdown := [("rss_news", breakdown_news)];
  Aggregator.dominant_emotion := "joy";
  avg_compound := - (8 # 10)
|}.

(** A sentiment scorer that finds every text neutral. *)
Definition polarity_neutral (text : string) : Q * Q * Q * Q := (0, 1, 0, 0).

(** Models that give the same answer for every text. *)
Definition emotion_model (text : string)
    : list (list Transformers.LabelScore) :=
  [ [ {| Transformers.ls_label := "joy"; Transformers.ls_score := 9 # 10 |};
      {| Transformers.ls_label := "neutral";
         Transformers.ls_score := 1 # 10 |} ] ].

Definition sentiment_model (text : string) : list Transformers.LabelScore :=
  [ {| Transformers.ls_label := "POSITIVE";
       Transformers.ls_score := 9 # 10 |} ].

(** An extractor that lists nothing. *)
Definition extractor_top_zero : Topics.TopicExtractor :=
  Topics.__init__ (Some 0%Z) None.

End FixturesMore.

(** * Verification *)

(** ** Rounding and clamping *)

Section Numbers.
Local Open Scope Q_scope.

Lemma round_half_even_comp (x y : Q) :
  x == y -> Py.round_half_even x = Py.round_half_even y.
Proof.
  intros E. unfold Py.round_half_even.
  rewrite (Qfloor_comp _ _ E).
  assert (C : Qcompare (x - inject_Z (Qfloor y)) (1 # 2)
              = Qcompare (y - inject_Z (Qfloor y)) (1 # 2)).
  { apply Qcompare_comp; [rewrite E |]; reflexivity. }
  now rewrite C.
Qed.

Lemma round_comp (x y : Q) (n : nat) : x == y -> Py.round x n == Py.round y n.
Proof.
  intros E. unfold Py.round.
  rewrite (round_half_even_comp (x * Py.pow10 n) (y * Py.pow10 n));
    [reflexivity | now rewrite E].
Qed.

Lemma floor_bounds (x : Q) :
  inject_Z (Qfloor x) <= x /\ x < inject_Z (Qfloor x) + 1.
Proof.
  split; [apply Qfloor_le |].
  pose proof (Qlt_floor x) as H.
  rewrite inject_Z_plus in H. exact H.
Qed.

(** The nearest integer is within one half. *)
Lemma round_half_even_error (x : Q) :
  x - (1 # 2) <= inject_Z (Py.round_half_even x)
  /\ inject_Z (Py.round_half_even x) <= x + (1 # 2).
Proof.
  unfold Py.round_half_even.
  destruct (floor_bounds x) as [Hlo Hhi].
  set (f := Qfloor x) in *.
  destruct (Qcompare_spec (x - inject_Z f) (1 # 2)) as [E | L | G].
  - destruct (Z.even f); [| rewrite inject_Z_plus];
      change (inject_Z 1) with 1; lra.
  - lra.
  - rewrite inject_Z_plus. change (inject_Z 1) with 1. lra.
Qed.

Lemma pow10_pos (n : nat) : 0 < Py.pow10 n.
Proof.
  unfold Py.pow10. change 0 with (inject_Z 0). rewrite <- Zlt_Qlt.
  apply Z.pow_pos_nonneg; lia.
Qed.

(** [round(x, n)] moves [x] by at most half a unit of the last digit. *)
Lemma round_error (x : Q) (n : nat) :
  x - (1 # 2) / Py.pow10 n <= Py.round x n
  /\ Py.round x n <= x + (1 # 2) / Py.pow10 n.
Proof.
  unfold Py.round.
  pose proof (pow10_pos n) as Hp.
  destruct (round_half_even_error (x * Py.pow10 n)) as [Hlo Hhi].
  set (r := inject_Z (Py.round_half_even (x * Py.pow10 n))) in *.
  set (p := Py.pow10 n) in *.
  split.
  - apply Qle_shift_div_l; [exact Hp |].
    assert (E : (x - (1 # 2) / p) * p == x * p - (1 # 2)) by (field; lra).
    rewrite E. exact Hlo.
  - apply Qle_shift_div_r; [exact Hp |].
    assert (E : (x + (1 # 2) / p) * p == x * p + (1 # 2)) by (field; lra).
    rewrite E. exact Hhi.
Qed.

Lemma round4_error (x : Q) :
  x - (1 # 20000) <= Py.round x 4 /\ Py.round x 4 <= x + (1 # 20000).
Proof.
  destruct (round_error x 4) as [Hlo Hhi].
  assert (E : (1 # 2) / Py.pow10 4 == 1 # 20000) by reflexivity.
  rewrite E in Hlo, Hhi. split; assumption.
Qed.

Lemma max_comp (a b a' b' : Q) :
  a == a' -> b == b' -> Py.max a b == Py.max a' b'.
Proof.
  intros Ea Eb. unfold Py.max.
  destruct (Qlt_le_dec a b), (Qlt_le_dec a' b'); lra.
Qed.

Lemma min_comp (a b a' b' : Q) :
  a == a' -> b == b' -> Py.min a b == Py.min a' b'.
Proof.
  intros Ea Eb. unfold Py.min.
  destruct (Qlt_le_dec b a), (Qlt_le_dec b' a'); lra.
Qed.

(** Clamping lands inside a non-empty range. *)
Lemma clamp_in_range (lo hi x : Q) :
  lo <= hi -> lo <= Py.max lo (Py.min hi x) /\ Py.max lo (Py.min hi x) <= hi.
Proof.
  intros H. unfold Py.max, Py.min.
  destruct (Qlt_le_dec x hi); destruct (Qlt_le_dec lo _); split; lra.
Qed.

Lemma round_half_even_mono (x y : Q) :
  x <= y -> (Py.round_half_even x <= Py.round_half_even y)%Z.
Proof.
  intros Hxy.
  pose proof (Qfloor_resp_le _ _ Hxy) as Hf.
  destruct (floor_bounds x) as [Hxl Hxh], (floor_bounds y) as [Hyl Hyh].
  unfold Py.round_half_even.
  destruct (Z.eq_dec (Qfloor x) (Qfloor y)) as [E | NE].
  - rewrite <- E in *. set (f := Qfloor x) in *.
    destruct (Qcompare_spec (x - inject_Z f) (1 # 2)),
             (Qcompare_spec (y - inject_Z f) (1 # 2));
      try destruct (Z.even f); try lia; lra.
  - assert (Qfloor x + 1 <= Qfloor y)%Z by lia.
    destruct (Qcompare (x - _) _), (Qcompare (y - _) _);
      try destruct (Z.even (Qfloor x)); try destruct (Z.even (Qfloor y)); lia.
Qed.

Lemma round_mono (x y : Q) (n : nat) : x <= y -> Py.round x n <= Py.round y n.
Proof.
  intros Hxy. unfold Py.round.
  pose proof (pow10_pos n) as Hp.
  apply Qmult_le_compat_r; [| apply Qlt_le_weak, Qinv_lt_0_compat, Hp].
  rewrite <- Zle_Qle. apply round_half_even_mono.
  apply Qmult_le_compat_r; [exact Hxy | lra].
Qed.

(** Rounding and clamping commute when the bounds are already rounded. *)
Lemma clamp_round_commute (lo hi x : Q) (n : nat) :
  lo <= hi -> Py.round lo n == lo -> Py.round hi n == hi ->
  Py.max lo (Py.min hi (Py.round x n))
  == Py.round (Py.max lo (Py.min hi x)) n.
Proof.
  intros Hlh Hlo Hhi.
  assert (Hbelow_lo : x <= lo -> Py.round x n <= lo)
    by (intros H; rewrite <- Hlo; now apply round_mono).
  assert (Habove_lo : lo <= x -> lo <= Py.round x n)
    by (intros H; rewrite <- Hlo; now apply round_mono).
  assert (Hbelow_hi : x <= hi -> Py.round x n <= hi)
    by (intros H; rewrite <- Hhi; now apply round_mono).
  assert (Habove_hi : hi <= x -> hi <= Py.round x n)
    by (intros H; rewrite <- Hhi; now apply round_mono).
  unfold Py.max, Py.min.
  destruct (Qlt_le_dec x lo) as [Hxl | Hxl];
    [assert (Hl := Hbelow_lo ltac:(lra)) | assert (Hl := Habove_lo Hxl)];
    (destruct (Qlt_le_dec x hi) as [Hxh | Hxh];
     [assert (Hh := Hbelow_hi ltac:(lra)) | assert (Hh := Habove_hi Hxh)]);
    destruct (Qlt_le_dec (Py.round x n) hi) as [Hr | Hr];
    repeat match goal with
           | |- context [Qlt_le_dec ?a ?b] => destruct (Qlt_le_dec a b)
           end;
    rewrite ?Hlo, ?Hhi; lra.
Qed.

End Numbers.

(** ** The embedding on concrete inputs *)

Section Examples.
Import PyStr.
Local Open Scope Q_scope.

Example sha256_empty :
  Hashlib.sha256_hexdigest (Hashlib.encode_utf8 "")
  = "e3b0c44298fc1c149afbf4c8996fb92427ae41e4649b934ca495991b7852b855".
Proof. vm_compute. reflexivity. Qed.

Example sha256_abc :
  Hashlib.sha256_hexdigest (Hashlib.encode_utf8 "abc")
  = "ba7816bf8f01cfea414140de5dae2223b00361a396177a9cb410ff61f20015ad".
Proof. vm_compute. reflexivity. Qed.

(** A message of 70 bytes takes two blocks. *)
Example sha256_two_blocks :
  Hashlib.sha256_hexdigest (repeat 97%Z 70%nat)
  = "6bd5e5034855a11241f0dee8fc72850ffd9955b28347a86428b5fa19119f6ad0".
Proof. vm_compute. reflexivity. Qed.

Example html_tags_removed :
  Cleaner._HTML_TAG_RE_sub "a<>b<c>d<e<f>g<h" = "a<>b d g<h".
Proof. vm_compute. reflexivity. Qed.

Example urls_removed :
  Cleaner._URL_RE_sub "see http://x.y/z now https:// q www.a www. httpshttp://k"
  = "see  now https:// q  www. https".
Proof. vm_compute. reflexivity. Qed.

Example clean_markup :
  Cleaner.clean Cleaner.html_unescape_plain (Cleaner.__init__ (Some 5%Z) None)
    "<p>Hello <b>world</b></p>"
  = Some "Hello world".
Proof. vm_compute. reflexivity. Qed.

Example clean_batch_filters :
  Cleaner.clean_batch Cleaner.html_unescape_plain
    (Cleaner.__init__ (Some 5%Z) None)
    ["Hello world today"; "Hi"; "<p>Good morning everyone</p>"; ""]
  = ["Hello world today"; "Good morning everyone"].
Proof. vm_compute. reflexivity. Qed.

Example normalize_for_hash_example :
  Dedup._normalize_for_hash "  Hello,   World!! x_y  " = "hello world x y".
Proof. vm_compute. reflexivity. Qed.

Example words_found :
  Emotion._WORD_RE_findall "ab1 cd_e fg h wor-ld x" = ["fg"; "h"; "wor"; "ld"; "x"].
Proof. vm_compute. reflexivity. Qed.

Example peace_counts_twice :
  Py.lookup Emotion._WORD_TO_EMOTIONS "peace" = Some ["joy"; "trust"].
Proof. vm_compute. reflexivity. Qed.

Example round_ties_to_even :
  Py.round_half_even (5 # 2) = 2%Z /\ Py.round_half_even (7 # 2) = 4%Z
  /\ Py.round_half_even (- (5 # 2)) = (-2)%Z.
Proof. repeat split. Qed.

Example init_default_calculator :
  LooshIndex.__init__ Fixtures.config_empty = Py.Ok Fixtures.calc_default.
Proof. reflexivity. Qed.

(** The aggregation test of the test suite: corpus positive is 0.5. *)
Example aggregate_two_items :
  (r ← Aggregator.aggregate Fixtures.aggregator_default
         [Fixtures.item_thirds; Fixtures.item_thirds]
         [ {| Sentiment.positive := 6 # 10; Sentiment.neutral := 3 # 10;
              Sentiment.negative := 1 # 10; Sentiment.compound := 5 # 10 |};
           {| Sentiment.positive := 4 # 10; Sentiment.neutral := 3 # 10;
              Sentiment.negative := 3 # 10; Sentiment.compound := 1 # 10 |} ]
         [Fixtures.emotion_no_hit; Fixtures.emotion_no_hit];
   Py.Ok (Aggregator.items_analyzed r,
          Qred (Py.get (Aggregator.sentiment r) "positive" 0)))
  = Py.Ok (2%Z, (1 # 2)%Q).
Proof. vm_compute. reflexivity. Qed.

End Examples.

(** ** Composite index: sums over the categories *)

Section LooshIndexLemmas.
Import Emotion Aggregator LooshIndex Sums LooshIndexSpec.
Local Open Scope Q_scope.

Lemma Qsum_zero {A : Type} (f : A -> Q) (l : list A) :
  (forall c, c ∈ l -> f c == 0) -> Qsum (map f l) == 0.
Proof.
  induction l as [| c l IH]; intros H; simpl; [reflexivity |].
  rewrite (H c), IH; [lra | | left].
  intros c' Hc'. apply H. now right.
Qed.

Lemma Qsum_ext {A : Type} (f g : A -> Q) (l : list A) :
  (forall c, c ∈ l -> f c == g c) -> Qsum (map f l) == Qsum (map g l).
Proof.
  induction l as [| c l IH]; intros H; simpl; [reflexivity |].
  rewrite (H c), IH; [reflexivity | | left].
  intros c' Hc'. apply H. now right.
Qed.

(** Singling out the one occurrence of [k] in a duplicate-free list. *)
Lemma Qsum_single (k : string) (a : Q) (g : string -> Q) (l : list string) :
  NoDup l -> k ∈ l -> g k == 0 ->
  Qsum (map (fun c => if String.eqb k c then a else g c) l)
  == a + Qsum (map g l).
Proof.
  induction 1 as [| c l Hc Hnd IH]; intros Hin Hk; [inversion Hin |].
  simpl. destruct (String.eqb_spec k c) as [-> | Hne].
  - rewrite Hk.
    rewrite (Qsum_ext (fun c0 => if String.eqb c c0 then a else g c0) g l).
    + lra.
    + intros c' Hc'. destruct (String.eqb_spec c c') as [-> | _];
        [contradiction | reflexivity].
  - apply elem_of_cons in Hin as [-> | Hin]; [contradiction |].
    rewrite (IH Hin Hk). lra.
Qed.

Lemma lookup_not_in {V : Type} (d : Py.dict V) (k : string) :
  k ∉ Py.keys d -> Py.lookup d k = None.
Proof.
  induction d as [| [k' v] d IH]; simpl; intros H; [reflexivity |].
  apply not_elem_of_cons in H as [Hne Hd].
  destruct (String.eqb_spec k' k) as [-> | _]; [contradiction |].
  apply IH, Hd.
Qed.

(** Summing over the keys of a listing or over the entries of the
    dictionary is the same. *)
Lemma Qsum_over_keys (f : string -> Q) (d : Py.dict Q) (l : list string) :
  NoDup l -> NoDup (Py.keys d) -> (forall k, k ∈ Py.keys d -> k ∈ l) ->
  Qsum (map (fun c => Py.get d c 0 * f c) l)
  == Qsum (map (fun kv => snd kv * f (fst kv)) d).
Proof.
  intros Hl. induction d as [| [k v] d IH]; intros Hd Hsub.
  - simpl. apply Qsum_zero. intros c _. unfold Py.get. simpl. lra.
  - simpl in Hd. apply NoDup_cons in Hd as [Hk Hd'].
    simpl.
    rewrite <- IH by (auto; intros; apply Hsub; now right).
    rewrite <- (Qsum_single k (v * f k) (fun c => Py.get d c 0 * f c) l Hl).
    + apply Qsum_ext. intros c _. unfold Py.get. simpl.
      destruct (String.eqb_spec k c) as [-> | _]; reflexivity.
    + apply Hsub. now left.
    + unfold Py.get. rewrite (lookup_not_in d k Hk). lra.
Qed.

(** The signal loop of step 1 and the per-source loop of step 3 compute the
    same running sum. *)
Lemma emotion_step_signal (self : LooshIndexCalculator) (d : Py.dict Q)
    (s : Q) (comps : Py.dict EmotionComponent) :
  fst (fold_left (emotion_step self) d (s, comps))
  = fold_left (src_signal_step self) d s.
Proof.
  revert s comps. induction d as [| [k v] d IH]; intros s comps; simpl;
    [reflexivity | apply IH].
Qed.

Lemma src_signal_sum (self : LooshIndexCalculator) (d : Py.dict Q) (s : Q) :
  fold_left (src_signal_step self) d s
  == s + Qsum (map (fun kv => snd kv * Py.get (emotion_polarity self) (fst kv) 0) d).
Proof.
  revert s. induction d as [| [k v] d IH]; intros s; simpl; [lra |].
  rewrite IH. simpl. lra.
Qed.

Lemma EMOTION_CATEGORIES_NoDup : NoDup EMOTION_CATEGORIES.
Proof. apply (bool_decide_unpack _). vm_compute. exact I. Qed.

End LooshIndexLemmas.

(** ** Composite index: what [calculate] returns *)

Section LooshIndexTheorems.
Import Emotion Aggregator LooshIndex Sums LooshIndexSpec.
Local Open Scope Q_scope.

Lemma calculate_index (self : LooshIndexCalculator) (agg : AggregatedResult) :
  items_analyzed agg <> 0%Z ->
  index (calculate self agg)
  = spec_clamp (scale_min self) (scale_max self)
      (Py.round (baseline self
                 + final_signal self agg * spec_sentiment_amplifier agg * 25) 1).
Proof.
  intros Hn. unfold calculate.
  destruct (Z.eqb_spec (items_analyzed agg) 0) as [E | _]; [contradiction |].
  set (p := fold_left (emotion_step self) (emotions agg) _).
  assert (Hs : fst p = fold_left (src_signal_step self) (emotions agg) 0)
    by apply emotion_step_signal.
  destruct p as [sig comps]. simpl in Hs. subst sig.
  unfold final_signal.
  destruct (fold_left (source_step self) (source_breakdown agg) (0, 0))
    as [ws tw].
  reflexivity.
Qed.

Lemma calculate_no_data (self : LooshIndexCalculator) (agg : AggregatedResult) :
  items_analyzed agg = 0%Z ->
  calculate self agg
  = {| index := baseline self; label := "No Data"; components := None |}.
Proof. intros E. unfold calculate. now rewrite E. Qed.

(** The total weight accumulated by the loop of step 3. *)
Lemma source_step_total (self : LooshIndexCalculator)
    (sb : Py.dict SourceBreakdown) (w t : Q) :
  snd (fold_left (source_step self) sb (w, t))
  == t + Qsum (List.filter (fun w => if Qlt_le_dec 0 w then true else false)
                 (map (fun kv => Py.get (calc_source_weights self) (fst kv) 0) sb)).
Proof.
  revert w t. induction sb as [| [cat b] sb IH]; intros w t; simpl; [lra |].
  destruct (Qlt_le_dec 0 (Py.get (calc_source_weights self) cat 0));
    rewrite IH; simpl; lra.
Qed.

(** The weighted signal accumulated by the loop of step 3. *)
Lemma source_step_weighted (self : LooshIndexCalculator)
    (sb : Py.dict SourceBreakdown) (w t : Q) :
  fst (fold_left (source_step self) sb (w, t))
  == w + Qsum
           (map (fun kv =>
                   let wt := Py.get (calc_source_weights self) (fst kv) 0 in
                   if Qlt_le_dec 0 wt
                   then Qsum (map (fun ev => snd ev
                                             * Py.get (emotion_polarity self) (fst ev) 0)
                                (sb_emotions (snd kv))) * wt
                   else 0)
                sb).
Proof.
  revert w t. induction sb as [| [cat b] sb IH]; intros w t; simpl; [lra |].
  destruct (Qlt_le_dec 0 (Py.get (calc_source_weights self) cat 0));
    rewrite IH; [rewrite src_signal_sum |]; simpl; ring.
Qed.

Lemma truthy_nonempty {A : Type} (l : list A) : Py.truthy l = true <-> l <> [].
Proof. destruct l; simpl; split; congruence. Qed.

Lemma final_signal_corpus (self : LooshIndexCalculator) (agg : AggregatedResult) :
  ~ spec_override_applies self agg ->
  final_signal self agg = fold_left (src_signal_step self) (emotions agg) 0.
Proof.
  intros Hno. unfold final_signal.
  destruct (Py.truthy (source_breakdown agg)) eqn:Hsb; [| reflexivity].
  destruct (Py.truthy (calc_source_weights self)) eqn:Hsw; [| reflexivity].
  simpl. destruct (Qlt_le_dec 0 _) as [Hpos | _]; [| reflexivity].
  exfalso. apply Hno. repeat split.
  - now apply truthy_nonempty.
  - now apply truthy_nonempty.
  - rewrite source_step_total in Hpos. unfold spec_weights_used. lra.
Qed.

(** When the override applies, the signal is the weighted average of the
    per-source signals. *)
Lemma final_signal_override (self : LooshIndexCalculator) (agg : AggregatedResult) :
  spec_override_applies self agg ->
  final_signal self agg == spec_override_signal self agg.
Proof.
  intros (Hsb & Hsw & Hpos). unfold final_signal, spec_override_signal.
  apply truthy_nonempty in Hsb, Hsw. rewrite Hsb, Hsw. simpl andb. cbv iota.
  pose proof (source_step_total self (source_breakdown agg) 0 0) as Ht.
  pose proof (source_step_weighted self (source_breakdown agg) 0 0) as Hw.
  fold (spec_weights_used self agg) in Ht.
  destruct (Qlt_le_dec 0 _) as [_ | Hle]; [| lra].
  rewrite Ht, Hw.
  cbv zeta.
  set (total := Qsum (spec_weights_used self agg)) in *.
  set (weighted := Qsum (map _ (source_breakdown agg))).
  field. lra.
Qed.


End LooshIndexTheorems.

Section LooshIndexClaims.
Import Emotion Aggregator LooshIndex Sums LooshIndexSpec Fixtures.
Local Open Scope Q_scope.


(** C4 (as stated) fails: with zero items the index is the baseline, which the
    configuration may place outside the scale; and with items, an inverted
    scale has no value inside it. *)
Lemma calculate_index_outside_scale :
  __init__ config_baseline_150 = Py.Ok calc_baseline_150
  /\ ~ (scale_min calc_baseline_150
          <= index (calculate calc_baseline_150 AggregatedResult_default)
        /\ index (calculate calc_baseline_150 AggregatedResult_default)
          <= scale_max calc_baseline_150)
  /\ ~ (scale_min calc_inverted_scale
          <= index (calculate calc_inverted_scale agg_angry)
        /\ index (calculate calc_inverted_scale agg_angry)
          <= scale_max calc_inverted_scale).
Proof.
  split; [reflexivity |].
  split; intros [_ H]; vm_compute in H; apply H; reflexivity.
Qed.

(** C4 (amended). With a non-zero item count and scale_min <= scale_max the
    index lies within [scale_min, scale_max]; with zero items the index is
    the baseline itself, the label is "No Data" and the components are
    empty. *)
Theorem calculate_index_range
    (self : LooshIndexCalculator) (agg : AggregatedResult) :
  (items_analyzed agg <> 0%Z -> scale_min self <= scale_max self ->
   scale_min self <= index (calculate self agg)
   /\ index (calculate self agg) <= scale_max self)
  /\ (items_analyzed agg = 0%Z ->
      index (calculate self agg) = baseline self
      /\ label (calculate self agg) = "No Data"
      /\ components (calculate self agg) = None).
Proof.
  split.
  - intros Hn Hle. rewrite (calculate_index self agg Hn).
    now apply clamp_in_range.
  - intros E. rewrite (calculate_no_data self agg E). auto.
Qed.

Lemma calculate_index_range_witness :
  (items_analyzed agg_angry <> 0%Z /\ scale_min calc_default <= scale_max calc_default
   /\ scale_min calc_default <= index (calculate calc_default agg_angry)
   /\ index (calculate calc_default agg_angry) <= scale_max calc_default)
  /\ (items_analyzed AggregatedResult_default = 0%Z
      /\ index (calculate calc_baseline_150 AggregatedResult_default) = 150
      /\ label (calculate calc_baseline_150 AggregatedResult_default) = "No Data").
Proof.
  assert (H1 : items_analyzed agg_angry <> 0%Z) by (simpl; lia).
  assert (H2 : scale_min calc_default <= scale_max calc_default)
    by (vm_compute; discriminate).
  pose proof (calculate_index_range calc_default agg_angry) as [Hin _].
  pose proof (calculate_index_range calc_baseline_150 AggregatedResult_default)
    as [_ Hzero].
  split.
  - split; [exact H1 |]. split; [exact H2 |]. exact (Hin H1 H2).
  - split; [reflexivity |]. destruct (Hzero eq_refl) as (Hi & Hl & _).
    split; assumption.
Defined.

(** C2 (as stated) fails: the constructor accepts an empty table. *)
Lemma init_accepts_empty_polarity :
  __init__ config_empty_polarity = Py.Ok calc_empty_polarity
  /\ emotion_polarity calc_empty_polarity = [].
Proof. split; reflexivity. Qed.

Lemma src_signal_empty_polarity (self : LooshIndexCalculator) (d : Py.dict Q) :
  emotion_polarity self = [] ->
  fold_left (src_signal_step self) d 0 == 0.
Proof.
  intros E. rewrite src_signal_sum, E.
  rewrite Qsum_zero; [lra |]. intros [k v] _. unfold Py.get. simpl. lra.
Qed.

(** C2 (amended). The constructor never raises: it stores the configured
    emotion-polarity table as given (the default table when none is
    configured), whether empty or partial; [calculate] then reads the weight
    of a category missing from the table as 0, so that with an empty table
    and no source override the index is the clamped, rounded baseline. *)
Theorem init_stores_polarity_table (config : Config) :
  exists self,
    __init__ config = Py.Ok self
    /\ emotion_polarity self
       = default default_emotion_polarity
           (cfg_loosh_index config ≫= cfg_emotion_polarity)
    /\ (forall c, c ∉ Py.keys (emotion_polarity self) ->
        Py.get (emotion_polarity self) c 0 = 0)
    /\ (forall agg,
        emotion_polarity self = [] -> items_analyzed agg <> 0%Z ->
        ~ spec_override_applies self agg ->
        index (calculate self agg)
        == spec_clamp (scale_min self) (scale_max self)
             (Py.round (baseline self) 1)).
Proof.
  unfold __init__. eexists. split; [reflexivity |]. split; [| split].
  - destruct (cfg_loosh_index config) as [lc |]; reflexivity.
  - intros c Hc. unfold Py.get. now rewrite lookup_not_in.
  - intros agg Hempty Hn Hno.
    rewrite (calculate_index _ agg Hn), (final_signal_corpus _ agg Hno).
    unfold spec_clamp.
    apply max_comp; [reflexivity |]. apply min_comp; [reflexivity |].
    apply round_comp.
    rewrite (src_signal_empty_polarity _ (emotions agg) Hempty). lra.
Qed.

Lemma init_stores_polarity_table_witness :
  exists self,
    __init__ config_empty_polarity = Py.Ok self
    /\ emotion_polarity self = []
    /\ index (calculate self agg_angry) == 50.
Proof.
  destruct (init_stores_polarity_table config_empty_polarity)
    as (self & Hinit & Htable & _ & Hidx).
  exists self. split; [exact Hinit |]. split; [exact Htable |].
  rewrite (Hidx agg_angry Htable).
  - injection Hinit as <-. vm_compute. reflexivity.
  - simpl. lia.
  - intros (Hsb & _). apply Hsb. reflexivity.
Defined.

End LooshIndexClaims.

(** ** Dominant category: [max(d, key=d.get)] *)

Section MaxKey.
Import DominantSpec.
Local Open Scope Q_scope.

Lemma max_key_from_spec (d : Py.dict Q) (best : string) (bv : Q) :
  (Py.max_key_from best bv d = best
   /\ forall j k' v', d !! j = Some (k', v') -> v' <= bv)
  \/ (exists i v,
        d !! i = Some (Py.max_key_from best bv d, v) /\ bv < v
        /\ (forall j k' v', d !! j = Some (k', v') -> v' <= v)
        /\ (forall j k' v', (j < i)%nat -> d !! j = Some (k', v') -> v' < v)).
Proof.
  revert best bv. induction d as [| [k v] d IH]; intros best bv; simpl.
  - left. split; [reflexivity |]. intros j k' v' H. inversion H.
  - destruct (Qlt_le_dec bv v) as [Hlt | Hle].
    + right. destruct (IH k v) as [[E Hall] | (i & w & Hi & Hw & Hall & Hbefore)].
      * exists 0%nat, v. rewrite E. split; [reflexivity |].
        split; [exact Hlt |]. split; [| intros; lia].
        intros [| j] k' v' H; simpl in H; [injection H as <- <-; lra |].
        eapply Hall; eassumption.
      * exists (S i), w. split; [exact Hi |]. split; [lra |]. split.
        -- intros [| j] k' v' H; simpl in H; [injection H as <- <-; lra |].
           eapply Hall; eassumption.
        -- intros [| j] k' v' Hj H; simpl in H; [injection H as <- <-; lra |].
           eapply (Hbefore j); [lia | eassumption].
    + destruct (IH best bv) as [[E Hall] | (i & w & Hi & Hw & Hall & Hbefore)].
      * left. split; [exact E |].
        intros [| j] k' v' H; simpl in H; [injection H as <- <-; lra |].
        eapply Hall; eassumption.
      * right. exists (S i), w. split; [exact Hi |]. split; [exact Hw |]. split.
        -- intros [| j] k' v' H; simpl in H; [injection H as <- <-; lra |].
           eapply Hall; eassumption.
        -- intros [| j] k' v' Hj H; simpl in H; [injection H as <- <-; lra |].
           eapply (Hbefore j); [lia | eassumption].
Qed.

Lemma max_key_first_argmax (d : Py.dict Q) (k : string) :
  Py.max_key d = Py.Ok k -> is_first_argmax d k.
Proof.
  destruct d as [| [k0 v0] d]; simpl; [discriminate |].
  intros [= <-].
  destruct (max_key_from_spec d k0 v0) as [[E Hall] | (i & w & Hi & Hw & Hall & Hbefore)].
  - exists 0%nat, v0. rewrite E. split; [reflexivity |]. split; [| intros; lia].
    intros [| j] k' v' H; simpl in H; [injection H as <- <-; lra |].
    eapply Hall; eassumption.
  - exists (S i), w. split; [exact Hi |]. split.
    + intros [| j] k' v' H; simpl in H; [injection H as <- <-; lra |].
      eapply Hall; eassumption.
    + intros [| j] k' v' Hj H; simpl in H; [injection H as <- <-; lra |].
      eapply (Hbefore j); [lia | eassumption].
Qed.

Lemma max_key_nonempty (d : Py.dict Q) :
  d <> [] -> exists k, Py.max_key d = Py.Ok k.
Proof. destruct d as [| [k v] d]; [congruence | eauto]. Qed.

(** The first argmax is a key of the dictionary. *)
Lemma first_argmax_key (d : Py.dict Q) (k : string) :
  is_first_argmax d k -> k ∈ Py.keys d.
Proof.
  intros (i & v & Hi & _). unfold Py.keys.
  apply list_elem_of_fmap. exists (k, v). split; [reflexivity |].
  eapply list_elem_of_lookup_2, Hi.
Qed.

End MaxKey.

(** ** Aggregation *)

Section AggregatorLemmas.
Import Base Sentiment Emotion Aggregator Sums DominantSpec AggregatorSpec.
Local Open Scope Q_scope.

Lemma fold_left_Qplus (xs : list Q) (a : Q) :
  fold_left Qplus xs a == a + Qsum xs.
Proof.
  revert a. induction xs as [| x xs IH]; intros a; simpl; [lra |].
  rewrite IH. lra.
Qed.

Lemma sum_Qsum (xs : list Q) : Py.sum xs == Qsum xs.
Proof. unfold Py.sum. rewrite fold_left_Qplus. lra. Qed.

Lemma mean_of_spec (c : string) (es : list EmotionResult) (n : nat) :
  mean_of (score_of c) es n == spec_mean c es n.
Proof. unfold mean_of, spec_mean. now rewrite sum_Qsum. Qed.

(** The loop over the categories yields one entry per category, in the
    fixed order. *)
Lemma emotion_means_entries (es : list EmotionResult) (n : nat) :
  emotion_means es n
  = map (fun c => (c, Py.round (mean_of (score_of c) es n) 4))
      EMOTION_CATEGORIES.
Proof. reflexivity. Qed.

Lemma normalize_emotions_keys (d : Py.dict Q) :
  Py.keys (normalize_emotions d) = Py.keys d.
Proof.
  unfold normalize_emotions. destruct (Qlt_le_dec 0 _); [| reflexivity].
  unfold Py.keys. rewrite map_map. apply map_ext. now intros [k v].
Qed.

Lemma Qsum_app (xs ys : list Q) : Qsum (xs ++ ys) == Qsum xs + Qsum ys.
Proof. induction xs as [| x xs IH]; simpl; [lra | rewrite IH; lra]. Qed.

(** Dividing every term by the total gives terms that sum to 1. *)
Lemma Qsum_div (xs : list Q) (t : Q) :
  ~ t == 0 -> Qsum (map (fun v => v / t) xs) == Qsum xs / t.
Proof.
  intros Ht. induction xs as [| x xs IH]; simpl; [field; exact Ht |].
  rewrite IH. field. exact Ht.
Qed.

(** Rounding each term to 4 decimals moves the sum by at most half a unit
    of the last digit per term. *)
Lemma Qsum_round4 (xs : list Q) :
  Qsum xs - inject_Z (Z.of_nat (length xs)) * (1 # 20000)
  <= Qsum (map (fun x => Py.round x 4) xs)
  /\ Qsum (map (fun x => Py.round x 4) xs)
     <= Qsum xs + inject_Z (Z.of_nat (length xs)) * (1 # 20000).
Proof.
  induction xs as [| x xs [IHlo IHhi]].
  - split; vm_compute; discriminate.
  - change (length (x :: xs)) with (S (length xs)).
    rewrite Nat2Z.inj_succ. unfold Z.succ. rewrite inject_Z_plus.
    change (inject_Z 1) with 1. simpl.
    destruct (round4_error x) as [Hlo Hhi].
    generalize dependent (inject_Z (Z.of_nat (length xs))).
    intros len IHlo IHhi. split; lra.
Qed.

(** The re-normalised values sum to 1 within 4 units of the fourth
    decimal when there are 8 of them. *)
Lemma normalized_sum_near_one (vs : list Q) :
  length vs = 8%nat -> 0 < Qsum vs ->
  1 - (4 # 10000) <= Qsum (map (fun v => Py.round (v / Qsum vs) 4) vs)
  /\ Qsum (map (fun v => Py.round (v / Qsum vs) 4) vs) <= 1 + (4 # 10000).
Proof.
  intros Hlen Hpos.
  pose proof (Qsum_round4 (map (fun v => v / Qsum vs) vs)) as [Hlo Hhi].
  rewrite map_map in Hlo, Hhi. rewrite length_map, Hlen in Hlo, Hhi.
  rewrite Qsum_div in Hlo, Hhi by lra.
  assert (E : Qsum vs / Qsum vs == 1) by (field; lra).
  rewrite E in Hlo, Hhi.
  change (inject_Z (Z.of_nat 8)) with 8 in *.
  split; lra.
Qed.

Lemma bind_Ok {A B : Type} (a : A) (k : A -> Py.result B) :
  Py.Ok a ≫= k = k a.
Proof. reflexivity. Qed.

Lemma mapM_ok {A B : Type} (f : A -> Py.result B) (l : list A) :
  Forall (fun x => exists y, f x = Py.Ok y) l -> exists ys, Py.mapM f l = Py.Ok ys.
Proof.
  induction 1 as [| x l [y Hy] _ [ys Hys]]; simpl; [eauto |].
  rewrite Hy. simpl. rewrite Hys. simpl. eauto.
Qed.

Lemma index_ok {A : Type} (l : list A) (i : nat) :
  (i < length l)%nat -> exists x, index l i = Py.Ok x.
Proof.
  intros Hi. unfold index.
  destruct (nth_error l i) as [x |] eqn:E; [eauto |].
  apply nth_error_None in E. lia.
Qed.

Lemma get_Forall {V : Type} (P : V -> Prop) (d : Py.dict V) (k : string) (dflt : V) :
  Forall (fun kv => P (snd kv)) d -> P dflt -> P (Py.get d k dflt).
Proof.
  intros Hd Hdflt. unfold Py.get.
  induction Hd as [| [k' v] d Hv _ IH]; simpl; [exact Hdflt |].
  destruct (String.eqb k' k); [exact Hv | exact IH].
Qed.

Lemma set_Forall {V : Type} (P : V -> Prop) (d : Py.dict V) (k : string) (v : V) :
  Forall (fun kv => P (snd kv)) d -> P v ->
  Forall (fun kv => P (snd kv)) (Py.set d k v).
Proof.
  intros Hd Hv. induction Hd as [| [k' v'] d Hv' Hd IH]; simpl.
  - constructor; [exact Hv | constructor].
  - destruct (String.eqb k' k); constructor; assumption.
Qed.

(** Every index recorded in [source_groups] is a position of [items]. *)
Lemma source_groups_in_range (items : list CollectedItem) :
  Forall (fun kv => Forall (fun i => (i < length items)%nat) (snd kv))
    (source_groups items).
Proof.
  unfold source_groups.
  set (n := length items).
  assert (Hps : Forall (fun p : nat * CollectedItem => (fst p < n)%nat)
                  (combine (seq 0 n) items)).
  { apply Forall_forall. intros [i item] Hin.
    apply list_elem_of_In, in_combine_l, in_seq in Hin. simpl. lia. }
  assert (Hinit : Forall (fun kv : string * list nat =>
                            Forall (fun i => (i < n)%nat) (snd kv)) [])
    by constructor.
  revert Hinit. generalize (@nil (string * list nat)) as groups.
  induction Hps as [| [i item] ps Hi _ IH]; intros groups Hg; simpl;
    [exact Hg |].
  apply IH. apply set_Forall; [exact Hg |].
  apply Forall_app. split; [| repeat constructor; exact Hi].
  apply (get_Forall (Forall (fun i => (i < n)%nat))); [exact Hg | constructor].
Qed.

(** With aligned inputs, [aggregate] returns a result for every non-empty
    batch. *)
Lemma aggregate_ok (self : Aggregator) (items : list CollectedItem)
    (sentiments : list SentimentResult) (emotions : list EmotionResult) :
  items <> [] ->
  length sentiments = length items -> length emotions = length items ->
  exists r,
    aggregate self items sentiments emotions = Py.Ok r
    /\ items_analyzed r = Z.of_nat (length items)
    /\ Aggregator.emotions r
       = normalize_emotions (emotion_means emotions (length items))
    /\ Py.max_key (Aggregator.emotions r)
       = Py.Ok (Aggregator.dominant_emotion r).
Proof.
  intros Hne Hs He. unfold aggregate.
  destruct items as [| item items']; [congruence |].
  set (items := item :: items') in *. simpl Py.truthy. cbv iota. simpl negb.
  cbv iota.
  destruct (max_key_nonempty
              (normalize_emotions (emotion_means emotions (length items))))
    as [dom Hdom].
  { intros E. apply (f_equal Py.keys) in E.
    rewrite normalize_emotions_keys in E. discriminate E. }
  destruct (mapM_ok
              (fun '(source_cat, indices) =>
                 entry ← source_entry self sentiments emotions source_cat indices;
                 Py.Ok (source_cat, entry))
              (source_groups items)) as [sb Hsb].
  { eapply Forall_impl; [apply source_groups_in_range |].
    intros [cat idxs] Hidx. simpl in Hidx. unfold source_entry.
    destruct (mapM_ok (index sentiments) idxs) as [ss Hss].
    { eapply Forall_impl; [exact Hidx |]. intros i Hi.
      apply index_ok. rewrite Hs. exact Hi. }
    destruct (mapM_ok (index emotions) idxs) as [es Hes].
    { eapply Forall_impl; [exact Hidx |]. intros i Hi.
      apply index_ok. rewrite He. exact Hi. }
    rewrite Hss, bind_Ok, Hes, bind_Ok. eauto. }
  rewrite Hdom, bind_Ok, Hsb, bind_Ok.
  eexists. split; [reflexivity |].
  cbn [items_analyzed Aggregator.emotions Aggregator.dominant_emotion].
  split; [reflexivity |]. split; [reflexivity | exact Hdom].
Qed.

End AggregatorLemmas.

Section AggregatorClaims.
Import Base Sentiment Emotion Aggregator Sums DominantSpec AggregatorSpec Fixtures.
Local Open Scope Q_scope.

Lemma get_map_key (f : string -> Q) (cs : list string) (c : string) :
  c ∈ cs -> Py.get (map (fun c => (c, f c)) cs) c 0 = f c.
Proof.
  unfold Py.get. induction cs as [| c' cs IH]; intros Hc; [inversion Hc |].
  simpl. destruct (String.eqb_spec c' c) as [-> | Hne]; [reflexivity |].
  apply elem_of_cons in Hc as [-> | Hc]; [contradiction | auto].
Qed.

Lemma spec_total_sum (es : list EmotionResult) (n : nat) :
  Py.sum (Py.values (emotion_means es n)) == spec_total es n.
Proof.
  rewrite sum_Qsum, emotion_means_entries. unfold Py.values, spec_total.
  rewrite map_map. apply Qsum_ext. intros c _. simpl.
  apply round_comp, mean_of_spec.
Qed.




End AggregatorClaims.

(** ** Lexicon strategy *)

Section DictLemmas.

Lemma lookup_set {V : Type} (d : Py.dict V) (k k' : string) (v : V) :
  Py.lookup (Py.set d k v) k'
  = if String.eqb k k' then Some v else Py.lookup d k'.
Proof.
  induction d as [| [k0 v0] d IH]; simpl.
  - reflexivity.
  - destruct (String.eqb_spec k0 k) as [-> | Hne]; simpl.
    + destruct (String.eqb k k'); reflexivity.
    + destruct (String.eqb_spec k0 k') as [-> | Hne'].
      * destruct (String.eqb_spec k k') as [-> | _]; [contradiction | reflexivity].
      * apply IH.
Qed.

Lemma get_set {V : Type} (d : Py.dict V) (k k' : string) (v dflt : V) :
  Py.get (Py.set d k v) k' dflt
  = if String.eqb k k' then v else Py.get d k' dflt.
Proof.
  unfold Py.get. rewrite lookup_set. destruct (String.eqb k k'); reflexivity.
Qed.

Lemma lookup_elem_of {V : Type} (d : Py.dict V) (k : string) (v : V) :
  Py.lookup d k = Some v -> (k, v) ∈ d.
Proof.
  induction d as [| [k0 v0] d IH]; simpl; [discriminate |].
  destruct (String.eqb_spec k0 k) as [-> | _].
  - intros [= ->]. left.
  - intros H. right. auto.
Qed.

Lemma elem_of_lookup_NoDup {V : Type} (d : Py.dict V) (k : string) (v : V) :
  NoDup (Py.keys d) -> (k, v) ∈ d -> Py.lookup d k = Some v.
Proof.
  induction d as [| [k0 v0] d IH]; simpl; intros Hnd Hin; [inversion Hin |].
  apply NoDup_cons in Hnd as [Hk0 Hnd].
  apply elem_of_cons in Hin as [[= -> ->] | Hin].
  - now rewrite String.eqb_refl.
  - destruct (String.eqb_spec k0 k) as [-> | _]; [| auto].
    exfalso. apply Hk0. unfold Py.keys.
    apply list_elem_of_fmap. exists (k, v). auto.
Qed.

(** In a dictionary the value at a position is the value of its key. *)
Lemma get_at_position {V : Type} (d : Py.dict V) (j : nat) (k : string)
    (v dflt : V) :
  NoDup (Py.keys d) -> d !! j = Some (k, v) -> Py.get d k dflt = v.
Proof.
  intros Hnd Hj. unfold Py.get.
  rewrite (elem_of_lookup_NoDup d k v Hnd); [reflexivity |].
  eapply list_elem_of_lookup_2, Hj.
Qed.

End DictLemmas.

Section DominantLemmas.
Import Emotion DominantSpec.
Local Open Scope Q_scope.

(** On a mapping keyed by the categories in their fixed order, the key that
    [max] returns is the dominant category of the specification. *)
Lemma first_argmax_dominant (d : Py.dict Q) (k : string) :
  Py.keys d = EMOTION_CATEGORIES -> is_first_argmax d k -> spec_dominant d k.
Proof.
  intros Hkeys (i & v & Hi & Hall & Hbefore).
  assert (Hnd : NoDup (Py.keys d))
    by (rewrite Hkeys; apply EMOTION_CATEGORIES_NoDup).
  assert (Hpos : forall j c, EMOTION_CATEGORIES !! j = Some c ->
                   exists w, d !! j = Some (c, w) /\ Py.get d c 0 = w).
  { intros j c Hj. rewrite <- Hkeys in Hj. unfold Py.keys in Hj.
    apply list_lookup_fmap_Some in Hj as ([c' w] & -> & E).
    exists w. split; [exact E |].
    now apply (get_at_position d j). }
  assert (Hk : Py.get d k 0 = v) by now apply (get_at_position d i).
  exists i. split; [| split].
  - rewrite <- Hkeys. unfold Py.keys.
    apply list_lookup_fmap_Some. exists (k, v). split; [reflexivity | exact Hi].
  - intros j c Hj. destruct (Hpos j c Hj) as (w & Hw & ->). rewrite Hk.
    eapply Hall, Hw.
  - intros j c Hlt Hj. destruct (Hpos j c Hj) as (w & Hw & ->). rewrite Hk.
    eapply Hbefore; [exact Hlt | exact Hw].
Qed.

End DominantLemmas.

Section LexiconTable.
Import Emotion Sums EmotionSpec.
Local Open Scope list_scope.

Lemma occ_app (x : string) (l1 l2 : list string) :
  occ x (l1 ++ l2) = (occ x l1 + occ x l2)%nat.
Proof. unfold occ. now rewrite List.filter_app, length_app. Qed.

Lemma occ_repeat (x e : string) (n : nat) :
  occ x (repeat e n) = if String.eqb x e then n else 0%nat.
Proof.
  unfold occ. induction n as [| n IH]; simpl.
  - now destruct (String.eqb x e).
  - destruct (String.eqb x e) eqn:E; simpl; [f_equal |]; exact IH.
Qed.

Lemma occ_zero (x : string) (l : list string) : occ x l = 0%nat <-> x ∉ l.
Proof.
  unfold occ. induction l as [| y l IH]; simpl.
  - split; [intros _ H; inversion H | reflexivity].
  - rewrite not_elem_of_cons.
    destruct (String.eqb_spec x y) as [-> | Hne]; simpl.
    + split; [discriminate | tauto].
    + rewrite IH. tauto.
Qed.

Lemma nsum_app (xs ys : list nat) : nsum (xs ++ ys) = (nsum xs + nsum ys)%nat.
Proof. induction xs as [| x xs IH]; simpl; [reflexivity | rewrite IH; lia]. Qed.

Lemma nsum_zero {A : Type} (f : A -> nat) (l : list A) :
  nsum (map f l) = 0%nat <-> forall x, x ∈ l -> f x = 0%nat.
Proof.
  induction l as [| y l IH]; simpl.
  - split; [intros _ x H; inversion H | reflexivity].
  - split.
    + intros H x Hx. apply elem_of_cons in Hx as [-> | Hx]; [lia |].
      apply IH; [lia | exact Hx].
    + intros H. rewrite (H y) by left.
      apply IH. intros x Hx. apply H. now right.
Qed.

Lemma nsum_ext {A : Type} (f g : A -> nat) (l : list A) :
  (forall x, x ∈ l -> f x = g x) -> nsum (map f l) = nsum (map g l).
Proof.
  induction l as [| y l IH]; intros H; simpl; [reflexivity |].
  rewrite (H y) by left. f_equal. apply IH. intros x Hx. apply H. now right.
Qed.

(** Exchanging two finite sums. *)
Lemma nsum_swap {A B : Type} (f : A -> B -> nat) (xs : list A) (ys : list B) :
  nsum (map (fun x => nsum (map (f x) ys)) xs)
  = nsum (map (fun y => nsum (map (fun x => f x y) xs)) ys).
Proof.
  induction xs as [| x xs IH]; simpl.
  - symmetry. apply nsum_zero. reflexivity.
  - rewrite IH. clear IH. induction ys as [| y ys IH]; simpl; [reflexivity |].
    rewrite <- IH. lia.
Qed.

(** The inner loop of the table construction appends [e] to the entry of
    [w] once per occurrence of [w] in the word list. *)
Lemma build_inner_get (e : string) (ws : list string)
    (d : Py.dict (list string)) (w : string) :
  Py.get (fold_left (fun d _word => setdefault_append d _word e) ws d) w []
  = Py.get d w [] ++ repeat e (occ w ws).
Proof.
  revert d. induction ws as [| w0 ws IH]; intros d; simpl.
  - now rewrite app_nil_r.
  - rewrite IH. unfold setdefault_append. rewrite get_set.
    unfold occ. simpl. rewrite (String.eqb_sym w w0).
    destruct (String.eqb_spec w0 w) as [-> | _]; simpl.
    + now rewrite <- app_assoc.
    + reflexivity.
Qed.

Lemma build_fold_get (lexicon : Py.dict (list string))
    (d : Py.dict (list string)) (w : string) :
  Py.get
    (fold_left
       (fun d '(_emotion, _words) =>
          fold_left (fun d _word => setdefault_append d _word _emotion) _words d)
       lexicon d) w []
  = Py.get d w []
    ++ flat_map (fun '(e, ws) => repeat e (occ w ws)) lexicon.
Proof.
  revert d. induction lexicon as [| [e ws] lexicon IH]; intros d; simpl.
  - now rewrite app_nil_r.
  - rewrite IH, build_inner_get. now rewrite <- app_assoc.
Qed.

Lemma flatten_lexicon_get (lexicon : Py.dict (list string)) (w : string) :
  Py.get (flatten_lexicon lexicon) w []
  = flat_map (fun '(e, ws) => repeat e (occ w ws)) lexicon.
Proof. unfold flatten_lexicon. now rewrite build_fold_get. Qed.

(** With distinct category names, the entries of category [c] among the
    emotions of a word are as many as the word occurs in the list of [c]. *)
Lemma occ_flat_map_absent (lexicon : Py.dict (list string)) (c w : string) :
  c ∉ Py.keys lexicon ->
  occ c (flat_map (fun '(e, ws) => repeat e (occ w ws)) lexicon) = 0%nat.
Proof.
  induction lexicon as [| [e ws] lexicon IH]; simpl; intros Hc; [reflexivity |].
  apply not_elem_of_cons in Hc as [Hne Hc].
  rewrite occ_app, occ_repeat, (IH Hc).
  destruct (String.eqb_spec c e); [contradiction | reflexivity].
Qed.

Lemma occ_flat_map (lexicon : Py.dict (list string)) (c w : string) :
  NoDup (Py.keys lexicon) ->
  occ c (flat_map (fun '(e, ws) => repeat e (occ w ws)) lexicon)
  = occ w (Py.get lexicon c []).
Proof.
  unfold Py.get.
  induction lexicon as [| [e ws] lexicon IH]; simpl; intros Hnd; [reflexivity |].
  apply NoDup_cons in Hnd as [He Hnd].
  rewrite occ_app, occ_repeat, (String.eqb_sym c e).
  destruct (String.eqb_spec e c) as [-> | _].
  - rewrite (occ_flat_map_absent lexicon c w He). lia.
  - now rewrite IH.
Qed.

Lemma length_flat_map_repeat (lexicon : Py.dict (list string)) (w : string) :
  NoDup (Py.keys lexicon) ->
  length (flat_map (fun '(e, ws) => repeat e (occ w ws)) lexicon)
  = nsum (map (fun c => occ w (Py.get lexicon c [])) (Py.keys lexicon)).
Proof.
  unfold Py.get.
  induction lexicon as [| [e ws] lexicon IH]; simpl; intros Hnd; [reflexivity |].
  apply NoDup_cons in Hnd as [He Hnd].
  rewrite length_app, repeat_length, String.eqb_refl, (IH Hnd).
  f_equal. apply nsum_ext. intros c Hc.
  destruct (String.eqb_spec e c) as [-> | _]; [contradiction | reflexivity].
Qed.

Lemma lexicon_keys : Py.keys _EMOTION_LEXICON = EMOTION_CATEGORIES.
Proof. reflexivity. Qed.

Lemma lexicon_table : _WORD_TO_EMOTIONS = flatten_lexicon _EMOTION_LEXICON.
Proof. vm_compute. reflexivity. Qed.

Lemma lexicon_NoDup : NoDup (Py.keys _EMOTION_LEXICON).
Proof. rewrite lexicon_keys. apply EMOTION_CATEGORIES_NoDup. Qed.

(** The emotions recorded for a word, one entry per occurrence of the word
    in a category's list. *)
Lemma word_emotions (w : string) :
  Py.get _WORD_TO_EMOTIONS w []
  = flat_map (fun '(e, ws) => repeat e (occ w ws)) _EMOTION_LEXICON.
Proof. rewrite lexicon_table. apply flatten_lexicon_get. Qed.

Lemma word_emotions_occ (c w : string) :
  occ c (Py.get _WORD_TO_EMOTIONS w []) = spec_word_hits c w.
Proof. rewrite word_emotions. apply occ_flat_map, lexicon_NoDup. Qed.

Lemma word_emotions_length (w : string) :
  length (Py.get _WORD_TO_EMOTIONS w [])
  = nsum (map (fun c => spec_word_hits c w) EMOTION_CATEGORIES).
Proof.
  rewrite word_emotions, (length_flat_map_repeat _ w lexicon_NoDup).
  now rewrite lexicon_keys.
Qed.

End LexiconTable.

Section LexiconLoops.
Import Emotion Sums EmotionSpec.
Local Open Scope list_scope.

Lemma counter_incr_get (m : gmap string nat) (e c : string) :
  counter_get (counter_incr m e) c
  = (counter_get m c + if String.eqb c e then 1 else 0)%nat.
Proof.
  unfold counter_get, counter_incr.
  destruct (String.eqb_spec c e) as [-> | Hne].
  - rewrite lookup_insert_eq. simpl. lia.
  - rewrite lookup_insert_ne by congruence. lia.
Qed.

Lemma hit_loop (es : list string) (m : gmap string nat) (t : nat) :
  snd (fold_left hit_step es (m, t)) = (t + length es)%nat
  /\ forall c, counter_get (fst (fold_left hit_step es (m, t))) c
               = (counter_get m c + occ c es)%nat.
Proof.
  revert m t. induction es as [| e es IH]; intros m t; simpl.
  - split; [lia | intros c; unfold occ; simpl; lia].
  - destruct (IH (counter_incr m e) (S t)) as [Ht Hc]. split; [lia |].
    intros c. rewrite Hc, counter_incr_get. unfold occ. simpl.
    destruct (String.eqb c e); simpl; lia.
Qed.

Lemma word_step_hits (st : gmap string nat * nat) (w : string) :
  word_step st w = fold_left hit_step (Py.get _WORD_TO_EMOTIONS w []) st.
Proof.
  unfold word_step, Py.get.
  destruct (Py.lookup _WORD_TO_EMOTIONS w); reflexivity.
Qed.

Lemma word_loop (words : list string) (m : gmap string nat) (t : nat) :
  snd (fold_left word_step words (m, t))
  = (t + nsum (map (fun w => length (Py.get _WORD_TO_EMOTIONS w [])) words))%nat
  /\ forall c, counter_get (fst (fold_left word_step words (m, t))) c
               = (counter_get m c
                  + nsum (map (fun w => occ c (Py.get _WORD_TO_EMOTIONS w []))
                            words))%nat.
Proof.
  revert m t. induction words as [| w words IH]; intros m t; simpl.
  - split; [lia | intros; lia].
  - rewrite word_step_hits.
    destruct (hit_loop (Py.get _WORD_TO_EMOTIONS w []) m t) as [Ht Hc].
    destruct (fold_left hit_step _ (m, t)) as [m1 t1]. simpl in Ht, Hc.
    destruct (IH m1 t1) as [Ht' Hc']. split.
    + rewrite Ht', Ht. lia.
    + intros c. rewrite Hc', Hc. lia.
Qed.

(** The counting loop of [_analyze_lexicon] computes the hit counts of the
    specification. *)
Lemma counting_loop (words : list string) :
  snd (fold_left word_step words (∅, 0%nat)) = spec_total_hits words
  /\ forall c, counter_get (fst (fold_left word_step words (∅, 0%nat))) c
               = spec_hit_count c words.
Proof.
  destruct (word_loop words ∅ 0) as [Ht Hc]. split.
  - rewrite Ht. simpl. unfold spec_total_hits, spec_hit_count.
    rewrite nsum_swap. apply nsum_ext. intros w _. apply word_emotions_length.
  - intros c. rewrite Hc. unfold counter_get. rewrite lookup_empty. simpl.
    unfold spec_hit_count. apply nsum_ext. intros w _. apply word_emotions_occ.
Qed.

(** No token matches exactly when the total of the hits is zero. *)
Lemma no_match_total (words : list string) :
  spec_no_match words <-> spec_total_hits words = 0%nat.
Proof.
  unfold spec_total_hits, spec_hit_count, spec_word_hits, spec_no_match.
  rewrite nsum_zero. split.
  - intros H c Hc. apply nsum_zero. intros w Hw. apply occ_zero.
    unfold Py.get. destruct (Py.lookup _EMOTION_LEXICON c) as [ws |] eqn:E.
    + apply (H w c ws Hw). now apply lookup_elem_of.
    + intros Hin. inversion Hin.
  - intros H w c ws Hw Hin.
    assert (Hc : c ∈ EMOTION_CATEGORIES).
    { rewrite <- lexicon_keys. unfold Py.keys. apply list_elem_of_fmap.
      exists (c, ws). auto. }
    specialize (H c Hc). rewrite nsum_zero in H. specialize (H w Hw).
    apply occ_zero in H. unfold Py.get in H.
    now rewrite (elem_of_lookup_NoDup _ c ws lexicon_NoDup Hin) in H.
Qed.

Lemma some_match_total (words : list string) :
  spec_some_match words -> (0 < spec_total_hits words)%nat.
Proof.
  intros (w & c & ws & Hw & Hin & Hws).
  destruct (Nat.eq_dec (spec_total_hits words) 0) as [E | NE]; [| lia].
  apply no_match_total in E. exfalso. exact (E w c ws Hw Hin Hws).
Qed.

End LexiconLoops.

Section EmotionClaims.
Import Base Sentiment Emotion Aggregator Sums DominantSpec EmotionSpec Fixtures.
Local Open Scope Q_scope.

(** The fraction that the normalisation loop stores for a category. *)
Lemma score_loop (m : gmap string nat) (t : nat) :
  fold_left (score_step m t) EMOTION_CATEGORIES []
  = map (fun c =>
           (c, if (0 <? t)%nat
               then Py.round (inject_Z (Z.of_nat (counter_get m c))
                              / inject_Z (Z.of_nat t)) 4
               else Py.round (1 / inject_Z (Z.of_nat (length EMOTION_CATEGORIES))) 4))
      EMOTION_CATEGORIES.
Proof. unfold score_step. destruct (0 <? t)%nat; reflexivity. Qed.


(** What [_analyze_lexicon] returns, in terms of the hit counts. *)
Lemma analyze_lexicon_result (text : string) :
  let words := _WORD_RE_findall (PyStr.lower text) in
  let total := spec_total_hits words in
  exists r,
    _analyze_lexicon text = Py.Ok r
    /\ scores r
       = map (fun c =>
                (c, if (0 <? total)%nat
                    then Py.round (inject_Z (Z.of_nat (spec_hit_count c words))
                                   / inject_Z (Z.of_nat total)) 4
                    else Py.round (1 / 8) 4))
           EMOTION_CATEGORIES
    /\ (total = 0%nat -> Emotion.dominant_emotion r = "neutral")
    /\ ((0 < total)%nat ->
        Py.max_key (scores r) = Py.Ok (Emotion.dominant_emotion r)).
Proof.
  intros words total. unfold _analyze_lexicon. fold words.
  destruct (counting_loop words) as [Ht Hc]. fold total in Ht.
  destruct (fold_left word_step words (∅, 0%nat)) as [m t].
  simpl in Ht, Hc. subst t. rewrite score_loop.
  rewrite (map_ext _ (fun c =>
             (c, if (0 <? total)%nat
                 then Py.round (inject_Z (Z.of_nat (spec_hit_count c words))
                                / inject_Z (Z.of_nat total)) 4
                 else Py.round (1 / 8) 4)))
    by (intros c; now rewrite Hc).
  set (scores := map _ EMOTION_CATEGORIES).
  destruct (0 <? total)%nat eqn:Hpos.
  - apply Nat.ltb_lt in Hpos.
    destruct (max_key_nonempty scores) as [dom Hdom]; [discriminate |].
    rewrite Hdom, bind_Ok. eexists. split; [reflexivity |].
    cbn [Emotion.scores Emotion.dominant_emotion].
    split; [reflexivity |]. split; [lia | intros _; exact Hdom].
  - apply Nat.ltb_ge in Hpos.
    rewrite bind_Ok. eexists. split; [reflexivity |].
    cbn [Emotion.scores Emotion.dominant_emotion].
    split; [reflexivity |]. split; [reflexivity | lia].
Qed.

Lemma neutral_not_category : "neutral" ∉ EMOTION_CATEGORIES.
Proof. apply (bool_decide_unpack _). vm_compute. exact I. Qed.



(** C9 (as stated) fails for a text without lexicon hit: all 8 fractions tie
    at 0.125, the earliest category is joy, yet the dominant label is the
    sentinel "neutral". *)
Lemma dominant_neutral_not_argmax :
  _analyze_lexicon "hello world" = Py.Ok emotion_no_hit
  /\ spec_dominant (scores emotion_no_hit) "joy"
  /\ ~ spec_dominant (scores emotion_no_hit)
         (Emotion.dominant_emotion emotion_no_hit).
Proof.
  split; [vm_compute; reflexivity |]. split.
  - exists 0%nat. split; [reflexivity |]. split.
    + intros j c Hj. apply list_elem_of_lookup_2 in Hj.
      revert c Hj. apply Forall_forall.
      repeat constructor; vm_compute; discriminate.
    + intros j c Hj. lia.
  - intros (i & Hi & _). apply list_elem_of_lookup_2 in Hi.
    exact (neutral_not_category Hi).
Qed.

(** C9 (amended). For a text with at least one lexicon hit, and for the
    corpus-wide mapping of every non-empty aligned batch, the dominant
    category is the argmax of the 8 fractions, the earliest in the fixed
    category order among those that tie for the maximum; for a text
    without hit the dominant label is "neutral". *)
Theorem dominant_is_first_argmax :
  (forall text,
     let words := _WORD_RE_findall (PyStr.lower text) in
     exists r,
       _analyze_lexicon text = Py.Ok r
       /\ (spec_some_match words ->
           spec_dominant (scores r) (Emotion.dominant_emotion r))
       /\ (spec_no_match words -> Emotion.dominant_emotion r = "neutral"))
  /\ (forall (self : Aggregator) (items : list CollectedItem)
        (sentiments : list SentimentResult) (es : list EmotionResult),
      items <> [] ->
      length sentiments = length items -> length es = length items ->
      exists r,
        aggregate self items sentiments es = Py.Ok r
        /\ spec_dominant (emotions r) (Aggregator.dominant_emotion r)).
Proof.
  split.
  - intros text words.
    destruct (analyze_lexicon_result text) as (r & Hr & Hscores & Hzero & Hpos).
    fold words in Hscores, Hzero, Hpos.
    exists r. split; [exact Hr |]. split.
    + intros Hsome. apply some_match_total in Hsome.
      apply first_argmax_dominant; [rewrite Hscores; reflexivity |].
      apply max_key_first_argmax. auto.
    + intros Hno. apply no_match_total in Hno. auto.
  - intros self items sentiments es Hne Hs He.
    destruct (aggregate_ok self items sentiments es Hne Hs He)
      as (r & Hr & _ & Hemo & Hdom).
    exists r. split; [exact Hr |].
    apply first_argmax_dominant; [| now apply max_key_first_argmax].
    rewrite Hemo, normalize_emotions_keys. reflexivity.
Qed.

Lemma dominant_is_first_argmax_witness :
  spec_some_match (_WORD_RE_findall (PyStr.lower "happy angry afraid"))
  /\ (exists r, _analyze_lexicon "happy angry afraid" = Py.Ok r
                /\ spec_dominant (scores r) (Emotion.dominant_emotion r))
  /\ [item_thirds] <> []
  /\ (exists r, aggregate aggregator_default [item_thirds] [sentiment_flat]
                  [emotion_thirds] = Py.Ok r
                /\ spec_dominant (emotions r) (Aggregator.dominant_emotion r)).
Proof.
  assert (H1 : spec_some_match (_WORD_RE_findall (PyStr.lower "happy angry afraid"))).
  { exists "happy", "joy", (Py.get _EMOTION_LEXICON "joy" []).
    split; [| split]; apply (bool_decide_unpack _); vm_compute; exact I. }
  assert (H2 : [item_thirds] <> []) by discriminate.
  destruct dominant_is_first_argmax as [Hitem Hcorpus].
  split; [exact H1 |]. split.
  - destruct (Hitem "happy angry afraid") as (r & Hr & Hsome & _).
    exists r. split; [exact Hr | exact (Hsome H1)].
  - split; [exact H2 |].
    exact (Hcorpus aggregator_default [item_thirds] [sentiment_flat]
             [emotion_thirds] H2 eq_refl eq_refl).
Defined.

End EmotionClaims.

(** ** Deduplication *)

Section DedupLemmas.
Import Base BaseText Dedup DedupSpec.
Local Open Scope list_scope.

Lemma hashes_app (l1 l2 : list CollectedItem) :
  hashes (l1 ++ l2) = hashes l1 ∪ hashes l2.
Proof. unfold hashes. now rewrite map_app, list_to_set_app_L. Qed.

Lemma hashes_cons (y : CollectedItem) (l : list CollectedItem) :
  hashes (y :: l) = {[ item_hash y ]} ∪ hashes l.
Proof. unfold hashes. cbn [map]. apply list_to_set_cons. Qed.

Lemma hashes_singleton (x : CollectedItem) : hashes [x] = {[ item_hash x ]}.
Proof.
  rewrite hashes_cons. unfold hashes. cbn [map]. rewrite list_to_set_nil.
  apply (right_id_L ∅ (∪)).
Qed.

Lemma elem_of_hashes (h : string) (l : list CollectedItem) :
  h ∈ hashes l <-> exists y, y ∈ l /\ item_hash y = h.
Proof.
  unfold hashes. rewrite elem_of_list_to_set, list_elem_of_fmap.
  split; intros (y & H1 & H2); exists y; auto.
Qed.

(** Membership in the set of seen digests is the exact-duplicate test. *)
Lemma seen_exact_dup (x : CollectedItem) (accepted : list CollectedItem) :
  bool_decide (item_hash x ∈ hashes accepted) = exact_dup x accepted.
Proof.
  unfold exact_dup. generalize (item_hash x) as h. intros h.
  induction accepted as [| y l IH]; cbn [existsb].
  - apply bool_decide_eq_false. rewrite elem_of_hashes.
    intros (y & Hy & _). inversion Hy.
  - rewrite <- IH. clear IH. rewrite hashes_cons.
    destruct (String.eqb_spec (item_hash y) h) as [E | NE].
    + apply bool_decide_eq_true. apply elem_of_union. left.
      now apply elem_of_singleton.
    + cbn [orb]. apply bool_decide_ext. rewrite elem_of_union, elem_of_singleton.
      split; [intros [E | H]; [congruence | exact H] | auto].
Qed.

Lemma is_near_dup_items (threshold : Q) (x : CollectedItem)
    (kept : list CollectedItem) :
  is_near_dup threshold (item_fp x) (map item_fp kept)
  = near_dup threshold x kept.
Proof.
  unfold is_near_dup, near_dup, similarity.
  induction kept as [| y l IH]; cbn [map existsb]; [reflexivity | now rewrite IH].
Qed.

(** One iteration, in terms of the keys of the item. *)
Lemma dedup_step_cases (threshold : Q) (st : LoopState) (x : CollectedItem) :
  dedup_step threshold st x
  = if is_blank x then st
    else if bool_decide (item_hash x ∈ seen_hashes st)
         || is_near_dup threshold (item_fp x) (fingerprints st)
    then {| seen_hashes := seen_hashes st;
            fingerprints := fingerprints st;
            unique := unique st;
            duplicates_removed := S (duplicates_removed st) |}
    else {| seen_hashes := {[ item_hash x ]} ∪ seen_hashes st;
            fingerprints := fingerprints st ++ [item_fp x];
            unique := unique st ++ [x];
            duplicates_removed := duplicates_removed st |}.
Proof.
  unfold dedup_step, is_blank, item_hash, item_fp.
  destruct (negb _); [reflexivity |].
  destruct (bool_decide _); [reflexivity |].
  destruct (is_near_dup _ _ _); reflexivity.
Qed.

(** The loop of [deduplicate]: the invariant and what it keeps. *)
Lemma dedup_loop (threshold : Q) (session : list CollectedItem)
    (items : list CollectedItem) (st : LoopState) :
  seen_hashes st = hashes (session ++ unique st) ->
  fingerprints st = map item_fp (unique st) ->
  let st' := fold_left (dedup_step threshold) items st in
  unique st' = unique st ++ spec_keep threshold session (unique st) items
  /\ seen_hashes st' = hashes (session ++ unique st')
  /\ fingerprints st' = map item_fp (unique st').
Proof.
  revert st. induction items as [| x items IH]; intros st Hseen Hfp;
    cbn [fold_left spec_keep].
  - rewrite app_nil_r. auto.
  - rewrite dedup_step_cases, Hseen, seen_exact_dup, Hfp, is_near_dup_items.
    destruct (is_blank x); [apply IH; assumption |].
    set (removed := {| seen_hashes := hashes (session ++ unique st);
                       fingerprints := map item_fp (unique st);
                       unique := unique st;
                       duplicates_removed := S (duplicates_removed st) |}).
    set (accepted := {| seen_hashes := {[ item_hash x ]} ∪ hashes (session ++ unique st);
                        fingerprints := map item_fp (unique st) ++ [item_fp x];
                        unique := unique st ++ [x];
                        duplicates_removed := duplicates_removed st |}).
    assert (Hremoved : let st' := fold_left (dedup_step threshold) items removed in
              unique st' = unique st ++ spec_keep threshold session (unique st) items
              /\ seen_hashes st' = hashes (session ++ unique st')
              /\ fingerprints st' = map item_fp (unique st'))
      by exact (IH removed eq_refl eq_refl).
    destruct (exact_dup x (session ++ unique st)); cbn [orb];
      [exact Hremoved |].
    destruct (near_dup threshold x (unique st)); [exact Hremoved |].
    destruct (IH accepted) as (Hu & Hs & Hf).
    + unfold accepted. cbn [seen_hashes unique].
      rewrite app_assoc, (hashes_app _ [x]), hashes_singleton.
      apply (comm_L (∪)).
    + unfold accepted. cbn [fingerprints unique]. now rewrite map_app.
    + unfold accepted in Hu at 2 3. cbn [unique] in Hu.
      rewrite <- app_assoc in Hu. auto.
Qed.

(** One call on an instance that has seen the digests of [session]. *)
Lemma deduplicate_spec (self : Deduplicator) (session items : list CollectedItem) :
  _seen_hashes self = hashes session ->
  let out := spec_keep (similarity_threshold self) session [] items in
  deduplicate self items
  = (out, {| similarity_threshold := similarity_threshold self;
             _seen_hashes := hashes (session ++ out) |}).
Proof.
  intros Hseen out. unfold deduplicate.
  destruct (dedup_loop (similarity_threshold self) session items
              {| seen_hashes := _seen_hashes self; fingerprints := [];
                 unique := []; duplicates_removed := 0 |})
    as (Hu & Hs & _).
  - cbn [seen_hashes unique]. now rewrite app_nil_r.
  - reflexivity.
  - cbn [unique app] in Hu. rewrite Hs, Hu. reflexivity.
Qed.

(** A session on an instance that has seen the digests of [session]. *)
Lemma run_session_spec (self : Deduplicator) (session : list CollectedItem)
    (calls : list (list CollectedItem)) :
  _seen_hashes self = hashes session ->
  let outs := spec_session (similarity_threshold self) session calls in
  run_session self calls
  = (outs, {| similarity_threshold := similarity_threshold self;
              _seen_hashes := hashes (session ++ concat outs) |}).
Proof.
  revert self session. induction calls as [| items calls IH];
    intros self session Hseen; cbn [run_session spec_session concat].
  - rewrite app_nil_r, <- Hseen. now destruct self.
  - rewrite (deduplicate_spec self session items Hseen).
    set (out := spec_keep (similarity_threshold self) session [] items).
    rewrite (IH _ (session ++ out)) by reflexivity.
    cbn [similarity_threshold]. now rewrite app_assoc.
Qed.

End DedupLemmas.

Section DedupDecisions.
Import Base BaseText Dedup DedupSpec.
Local Open Scope list_scope.
Local Open Scope Q_scope.

(** The decision on the item that follows [pre], given what [pre] kept. *)
Lemma spec_keep_snoc (threshold : Q) (session batch pre : list CollectedItem)
    (x : CollectedItem) :
  spec_keep threshold session batch (pre ++ [x])
  = let out := spec_keep threshold session batch pre in
    out ++ (if is_blank x then []
            else if exact_dup x (session ++ batch ++ out) then []
            else if near_dup threshold x (batch ++ out) then []
            else [x]).
Proof.
  revert batch. induction pre as [| h pre IH]; intros batch;
    cbn [app spec_keep].
  - rewrite !app_nil_r.
    destruct (is_blank x); [reflexivity |].
    destruct (exact_dup x (session ++ batch)); [reflexivity |].
    destruct (near_dup threshold x batch); reflexivity.
  - destruct (is_blank h); [apply IH |].
    destruct (exact_dup h (session ++ batch)); [apply IH |].
    destruct (near_dup threshold h batch); [apply IH |].
    rewrite IH. cbn zeta. cbn [app]. now rewrite <- !app_assoc.
Qed.

Lemma exact_dup_true (x : CollectedItem) (accepted : list CollectedItem) :
  exact_dup x accepted = true
  <-> exists y, y ∈ accepted /\ item_hash y = item_hash x.
Proof.
  unfold exact_dup. rewrite existsb_exists. split.
  - intros (y & Hy & E). exists y. split; [now apply list_elem_of_In |].
    now apply String.eqb_eq.
  - intros (y & Hy & E). exists y. split; [now apply list_elem_of_In |].
    now apply String.eqb_eq.
Qed.

Lemma near_dup_true (threshold : Q) (x : CollectedItem)
    (kept : list CollectedItem) :
  near_dup threshold x kept = true
  <-> exists y, y ∈ kept /\ threshold <= similarity x y.
Proof.
  unfold near_dup. rewrite existsb_exists. split.
  - intros (y & Hy & E). exists y. split; [now apply list_elem_of_In |].
    now apply Qle_bool_iff.
  - intros (y & Hy & E). exists y. split; [now apply list_elem_of_In |].
    now apply Qle_bool_iff.
Qed.

Lemma exact_dup_false (x : CollectedItem) (accepted : list CollectedItem) :
  (forall y, y ∈ accepted -> item_hash y <> item_hash x) ->
  exact_dup x accepted = false.
Proof.
  intros H. destruct (exact_dup x accepted) eqn:E; [| reflexivity].
  apply exact_dup_true in E as (y & Hy & Hh). now apply H in Hy.
Qed.

Lemma near_dup_false (threshold : Q) (x : CollectedItem)
    (kept : list CollectedItem) :
  (forall y, y ∈ kept -> similarity x y < threshold) ->
  near_dup threshold x kept = false.
Proof.
  intros H. destruct (near_dup threshold x kept) eqn:E; [| reflexivity].
  apply near_dup_true in E as (y & Hy & Hs). apply H in Hy. lra.
Qed.

(** The digest is a function of the canonical text. *)
Lemma canon_hash (x y : CollectedItem) :
  canon y = canon x -> item_hash y = item_hash x.
Proof.
  intros E. unfold item_hash, _content_hash.
  change (_normalize_for_hash (combined_text y)) with (canon y).
  change (_normalize_for_hash (combined_text x)) with (canon x).
  now rewrite E.
Qed.

(** What a session keeps holds no two items with the same digest. *)
Lemma spec_keep_NoDup (threshold : Q) (session : list CollectedItem)
    (items batch : list CollectedItem) :
  NoDup (map item_hash (session ++ batch)) ->
  NoDup (map item_hash
           (session ++ batch ++ spec_keep threshold session batch items)).
Proof.
  revert batch. induction items as [| x items IH]; intros batch Hnd;
    cbn [spec_keep].
  - now rewrite app_nil_r.
  - destruct (is_blank x); [now apply IH |].
    destruct (exact_dup x (session ++ batch)) eqn:Hex; [now apply IH |].
    destruct (near_dup threshold x batch); [now apply IH |].
    specialize (IH (batch ++ [x])).
    rewrite <- !app_assoc in IH. cbn [app] in IH. apply IH.
    rewrite app_assoc, map_app. cbn [map]. apply NoDup_app.
    split; [exact Hnd |]. split; [| apply NoDup_singleton].
    intros h Hin Hx. apply list_elem_of_singleton in Hx as ->.
    apply list_elem_of_fmap in Hin as (y & Hy & Hin).
    assert (Htrue : exact_dup x (session ++ batch) = true)
      by (apply exact_dup_true; eauto).
    congruence.
Qed.

Lemma pairwise_snoc (threshold : Q) (x : CollectedItem)
    (batch : list CollectedItem) :
  ForallOrdPairs (fun a b => similarity b a < threshold) batch ->
  near_dup threshold x batch = false ->
  ForallOrdPairs (fun a b => similarity b a < threshold) (batch ++ [x]).
Proof.
  induction 1 as [| a l Ha Hl IHl]; intros Hnear; cbn [app].
  - repeat constructor.
  - constructor.
    + apply Forall_app. split; [exact Ha |]. repeat constructor.
      destruct (Qlt_le_dec (similarity x a) threshold) as [Hlt | Hle];
        [exact Hlt |].
      assert (Htrue : near_dup threshold x (a :: l) = true)
        by (apply near_dup_true; exists a; split; [left | exact Hle]).
      congruence.
    + apply IHl. destruct (near_dup threshold x l) eqn:E; [| reflexivity].
      apply near_dup_true in E as (y & Hy & Hs).
      assert (Htrue : near_dup threshold x (a :: l) = true)
        by (apply near_dup_true; exists y; split; [now right | exact Hs]).
      congruence.
Qed.

(** Within what one call keeps, no later item is similar to an earlier
    one. *)
Lemma spec_keep_pairwise (threshold : Q) (session : list CollectedItem)
    (items batch : list CollectedItem) :
  ForallOrdPairs (fun a b => similarity b a < threshold) batch ->
  ForallOrdPairs (fun a b => similarity b a < threshold)
    (batch ++ spec_keep threshold session batch items).
Proof.
  revert batch. induction items as [| x items IH]; intros batch Hpw;
    cbn [spec_keep].
  - now rewrite app_nil_r.
  - destruct (is_blank x); [now apply IH |].
    destruct (exact_dup x (session ++ batch)); [now apply IH |].
    destruct (near_dup threshold x batch) eqn:Hnear; [now apply IH |].
    specialize (IH (batch ++ [x])).
    rewrite <- !app_assoc in IH. cbn [app] in IH. apply IH.
    now apply pairwise_snoc.
Qed.

Lemma spec_session_NoDup (threshold : Q) (calls : list (list CollectedItem))
    (session : list CollectedItem) :
  NoDup (map item_hash session) ->
  NoDup (map item_hash (session ++ concat (spec_session threshold session calls))).
Proof.
  revert session. induction calls as [| items calls IH]; intros session Hnd;
    cbn [spec_session concat].
  - now rewrite app_nil_r.
  - rewrite app_assoc. apply IH.
    apply (spec_keep_NoDup threshold session items []).
    now rewrite app_nil_r.
Qed.

Lemma spec_session_pairwise (threshold : Q) (calls : list (list CollectedItem))
    (session : list CollectedItem) :
  Forall (ForallOrdPairs (fun a b => similarity b a < threshold))
    (spec_session threshold session calls).
Proof.
  revert session. induction calls as [| items calls IH]; intros session;
    cbn [spec_session]; constructor; [| apply IH].
  apply (spec_keep_pairwise threshold session items []). constructor.
Qed.

End DedupDecisions.

Section DedupClaims.
Import Base BaseText Dedup DedupSpec Fixtures.
Local Open Scope list_scope.
Local Open Scope Q_scope.

Lemma fresh_session (threshold : Q) (calls : list (list CollectedItem)) :
  run_session (__init__ threshold) calls
  = (spec_session threshold [] calls,
     {| similarity_threshold := threshold;
        _seen_hashes := hashes (concat (spec_session threshold [] calls)) |}).
Proof. now rewrite (run_session_spec (__init__ threshold) [] calls). Qed.

(** C1 (as stated) fails: an item is compared with the shingle sets of the
    items accepted earlier in the same call only. The two near-duplicate
    headlines of the test suite (similarity 60/63) collapse to one inside
    one call, but both are kept when given to two successive calls. *)
Lemma near_duplicate_across_calls_kept :
  Qle_bool default_similarity_threshold
    (similarity item_washington_dc item_washington) = true
  /\ fst (deduplicate (__init__ default_similarity_threshold)
            [item_washington; item_washington_dc])
     = [item_washington]
  /\ fst (run_session (__init__ default_similarity_threshold)
            [[item_washington]; [item_washington_dc]])
     = [[item_washington]; [item_washington_dc]]
  /\ claim_session default_similarity_threshold []
       [[item_washington]; [item_washington_dc]]
     = [[item_washington]; []].
Proof. repeat split; vm_compute; reflexivity. Qed.

(** C1 (amended). In every sequence of [deduplicate] calls on a fresh
    instance, each call keeps exactly the items that are not blank, whose
    digest differs from the digests of ALL items accepted earlier in the
    session (earlier calls included), and that are not near-duplicates of
    the items accepted earlier in the SAME call; in particular the first
    item of a call that is not blank and whose digest is new is kept,
    however similar it is to items of earlier calls. The instance keeps the
    digests of the accepted items and nothing else, and [reset] leaves it
    as freshly constructed. *)
Theorem session_keeps (threshold : Q) (calls : list (list CollectedItem)) :
  let outs := fst (run_session (__init__ threshold) calls) in
  let self := snd (run_session (__init__ threshold) calls) in
  outs = spec_session threshold [] calls
  /\ _seen_hashes self = hashes (concat outs)
  /\ (forall x rest,
        is_blank x = false ->
        (forall y, y ∈ concat outs -> item_hash y <> item_hash x) ->
        exists more, fst (deduplicate self (x :: rest)) = x :: more)
  /\ (forall d, reset d = __init__ (similarity_threshold d)).
Proof.
  intros outs self. subst outs self. rewrite fresh_session. cbn [fst snd].
  split; [reflexivity |]. split; [reflexivity |]. split; [| reflexivity].
  intros x rest Hblank Hhash.
  rewrite (deduplicate_spec _ (concat (spec_session threshold [] calls)))
    by reflexivity.
  cbn [fst similarity_threshold spec_keep]. rewrite Hblank, app_nil_r.
  rewrite (exact_dup_false x _ Hhash). cbn [near_dup existsb]. eauto.
Qed.

Lemma session_keeps_witness :
  is_blank item_washington_dc = false
  /\ (forall y,
        y ∈ concat (fst (run_session (__init__ default_similarity_threshold)
                           [[item_washington]])) ->
        item_hash y <> item_hash item_washington_dc)
  /\ exists more,
       fst (deduplicate
              (snd (run_session (__init__ default_similarity_threshold)
                      [[item_washington]]))
              [item_washington_dc])
       = item_washington_dc :: more.
Proof.
  assert (H1 : is_blank item_washington_dc = false) by (vm_compute; reflexivity).
  assert (H2 : forall y,
             y ∈ concat (fst (run_session (__init__ default_similarity_threshold)
                                [[item_washington]])) ->
             item_hash y <> item_hash item_washington_dc).
  { assert (E : concat (fst (run_session (__init__ default_similarity_threshold)
                               [[item_washington]])) = [item_washington])
      by (vm_compute; reflexivity).
    rewrite E. intros y Hy. apply list_elem_of_singleton in Hy as ->.
    vm_compute. discriminate. }
  split; [exact H1 |]. split; [exact H2 |].
  destruct (session_keeps default_similarity_threshold [[item_washington]])
    as (_ & _ & Hfirst & _).
  exact (Hfirst item_washington_dc [] H1 H2).
Defined.



End DedupClaims.

(** ** Text cleaning *)

Section CleanerClaims.
Import PyStr Cleaner.

Variable html_unescape : string -> string.

Lemma length_substring_le (s : string) (n : nat) :
  (String.length (substring 0 n s) <= n)%nat.
Proof.
  revert n. induction s as [| c s IH]; intros [| n]; simpl; try lia.
  specialize (IH n). lia.
Qed.

(** C10 (amended). For every configuration, [clean] of the empty string is
    absent, also when min_length is 0 or negative; and for every
    configuration with max_length >= 0, a string returned by [clean] has at
    most max_length characters (and at least min_length). *)
Theorem clean_empty_and_bounded (self : TextCleaner) (text : string) :
  clean html_unescape self "" = None
  /\ (forall s, (0 <= max_length self)%Z ->
       clean html_unescape self text = Some s ->
       (len s <= max_length self)%Z /\ (min_length self <= len s)%Z).
Proof.
  split; [reflexivity |].
  intros s Hmax. unfold clean.
  destruct (negb (truthy text)); [discriminate |].
  set (t := strip _).
  destruct (Z.ltb_spec (max_length self) (len t)) as [Hlong | Hshort].
  - destruct (Z.ltb_spec (len (slice_to t (max_length self))) (min_length self))
      as [Hmin | Hmin]; [discriminate |].
    intros [= <-]. split; [| exact Hmin].
    unfold slice_to. destruct (Z.leb_spec 0 (max_length self)) as [_ | Hneg];
      [| lia].
    unfold len. pose proof (length_substring_le t (Z.to_nat (max_length self))).
    lia.
  - destruct (Z.ltb_spec (len t) (min_length self)) as [Hmin | Hmin];
      [discriminate |].
    intros [= <-]. split; [exact Hshort | exact Hmin].
Qed.

End CleanerClaims.

Section CleanerExamples.
Import PyStr Cleaner.

(** C10 (as stated) fails: a negative [max_length] cuts characters off the
    end instead of bounding the length. *)
Lemma clean_negative_max_length :
  clean html_unescape_plain (__init__ None (Some (-1)%Z)) "hello world example"
  = Some "hello world exampl"
  /\ ~ (len "hello world exampl" <= -1)%Z.
Proof. split; [vm_compute; reflexivity | vm_compute; intros H; apply H; reflexivity]. Qed.

Lemma clean_empty_and_bounded_witness :
  clean html_unescape_plain (__init__ (Some 0%Z) (Some 5%Z)) "" = None
  /\ (0 <= max_length (__init__ (Some 0%Z) (Some 5%Z)))%Z
  /\ clean html_unescape_plain (__init__ (Some 0%Z) (Some 5%Z)) "hello world"
     = Some "hello"
  /\ (len "hello" <= max_length (__init__ (Some 0%Z) (Some 5%Z)))%Z.
Proof.
  assert (H1 : (0 <= max_length (__init__ (Some 0%Z) (Some 5%Z)))%Z)
    by (vm_compute; discriminate).
  assert (H2 : clean html_unescape_plain (__init__ (Some 0%Z) (Some 5%Z))
                 "hello world" = Some "hello") by (vm_compute; reflexivity).
  destruct (clean_empty_and_bounded html_unescape_plain
              (__init__ (Some 0%Z) (Some 5%Z)) "hello world") as [Hempty Hbound].
  split; [exact Hempty |]. split; [exact H1 |]. split; [exact H2 |].
  exact (proj1 (Hbound "hello" H1 H2)).
Defined.

End CleanerExamples.

(** ** Empty batches *)

Section EmptyBatch.
Import Base Sentiment Emotion Aggregator LooshIndex.

(** C8. On a zero-length input no stage raises: batch cleaning returns the
    empty list, and so do deduplication, the processing pipeline and the
    batch sentiment and emotion analyses; [aggregate] returns the default
    result, with items_analyzed = 0 and no source-breakdown entry; and
    [calculate] on that result returns the baseline score labelled
    "No Data", with empty components. *)
Theorem empty_batch_defaults
    (html_unescape : string -> string)
    (polarity_scores : string -> Q * Q * Q * Q)
    (cleaner : Cleaner.TextCleaner)
    (dedup : Dedup.Deduplicator) (pipeline : Pipeline.ProcessingPipeline)
    (aggregator : Aggregator) (calculator : LooshIndexCalculator)
    (sentiments : list SentimentResult) (es : list EmotionResult) :
  Cleaner.clean_batch html_unescape cleaner [] = []
  /\ Dedup.deduplicate dedup [] = ([], dedup)
  /\ fst (Pipeline.process html_unescape pipeline []) = []
  /\ Sentiment.analyze_batch polarity_scores [] = []
  /\ Emotion.analyze_batch [] = Py.Ok []
  /\ (exists r,
        aggregate aggregator [] sentiments es = Py.Ok r
        /\ items_analyzed r = 0%Z
        /\ source_breakdown r = []
        /\ calculate calculator r
           = {| index := baseline calculator;
                label := "No Data";
                components := None |}).
Proof.
  split; [reflexivity |].
  split; [destruct dedup; reflexivity |].
  split; [reflexivity |].
  split; [reflexivity |].
  split; [reflexivity |].
  exists AggregatedResult_default. repeat split.
Qed.

End EmptyBatch.

(** * Further properties of the code *)

(** ** White space in strings *)

Section TextLemmas.
Import PyStr TextForm.
Local Open Scope list_scope.

Lemma chars_str (l : list ascii) : chars (str l) = l.
Proof. apply list_ascii_of_string_of_list_ascii. Qed.

Lemma str_chars (s : string) : str (chars s) = s.
Proof. apply string_of_list_ascii_of_string. Qed.

Lemma length_chars (s : string) : length (chars s) = String.length s.
Proof. induction s as [| c s IH]; simpl; [reflexivity | now rewrite IH]. Qed.

(** Collapsing white space keeps any property that the space has. *)
Lemma sub_spaces_forallb (P : ascii -> bool) (b : bool) (l : list ascii) :
  P " "%char = true -> forallb P l = true ->
  forallb P (sub_spaces_chars b l) = true.
Proof.
  intros Hsp. revert b. induction l as [| c l IH]; intros b H; simpl in *;
    [reflexivity |].
  apply andb_prop in H as [Hc Hl].
  destruct (isspace c); [destruct b |]; simpl; rewrite ?Hsp, ?Hc, ?IH; auto.
Qed.

Lemma sub_spaces_plain (b : bool) (l : list ascii) :
  forallb plain_space (sub_spaces_chars b l) = true.
Proof.
  revert b. induction l as [| c l IH]; intros b; simpl; [reflexivity |].
  destruct (isspace c) eqn:E; [destruct b |]; simpl; rewrite ?IH; auto.
  unfold plain_space. now rewrite E.
Qed.

Lemma sub_spaces_lead (l : list ascii) :
  no_lead_space (sub_spaces_chars true l) = true.
Proof.
  induction l as [| c l IH]; simpl; [reflexivity |].
  destruct (isspace c) eqn:E; [exact IH |]. simpl. now rewrite E.
Qed.

Lemma single_spaced_cons (c : ascii) (l : list ascii) :
  single_spaced (c :: l)
  = (negb (isspace c) || no_lead_space l) && single_spaced l.
Proof.
  destruct l as [| d l]; simpl.
  - now rewrite orb_true_r.
  - destruct (isspace c), (isspace d); reflexivity.
Qed.

Lemma sub_spaces_single (b : bool) (l : list ascii) :
  single_spaced (sub_spaces_chars b l) = true.
Proof.
  revert b. induction l as [| c l IH]; intros b; [reflexivity |].
  cbn [sub_spaces_chars].
  destruct (isspace c) eqn:E; [destruct b |]; rewrite ?single_spaced_cons, ?IH;
    rewrite ?sub_spaces_lead, ?E, ?orb_true_r; auto.
Qed.

(** Leading white space is a prefix made of white space. *)
Lemma lstrip_split (l : list ascii) :
  exists w, l = w ++ lstrip_chars l /\ forallb isspace w = true.
Proof.
  induction l as [| c l (w & Hw & Hsp)]; simpl.
  - exists []. auto.
  - destruct (isspace c) eqn:E.
    + exists (c :: w). simpl. rewrite E, Hsp. split; [now f_equal | reflexivity].
    + exists []. auto.
Qed.

Lemma lstrip_lead (l : list ascii) : no_lead_space (lstrip_chars l) = true.
Proof.
  induction l as [| c l IH]; simpl; [reflexivity |].
  destruct (isspace c) eqn:E; [exact IH |]. simpl. now rewrite E.
Qed.

Lemma lstrip_id (l : list ascii) :
  no_lead_space l = true -> lstrip_chars l = l.
Proof.
  destruct l as [| c l]; simpl; [reflexivity |].
  now destruct (isspace c).
Qed.

Lemma strip_split (l : list ascii) :
  exists w1 w2,
    l = w1 ++ strip_chars l ++ w2
    /\ forallb isspace w1 = true /\ forallb isspace w2 = true.
Proof.
  destruct (lstrip_split l) as (w1 & H1 & Hs1).
  destruct (lstrip_split (rev (lstrip_chars l))) as (w2 & H2 & Hs2).
  exists w1, (rev w2). split; [| split; [exact Hs1 |]].
  - rewrite H1 at 1. f_equal. unfold strip_chars.
    rewrite <- rev_app_distr, <- H2. now rewrite rev_involutive.
  - rewrite forallb_forall in *. intros c Hc. apply Hs2. now apply in_rev.
Qed.

Lemma single_spaced_app (l1 l2 : list ascii) :
  single_spaced (l1 ++ l2) = true ->
  single_spaced l1 = true /\ single_spaced l2 = true.
Proof.
  induction l1 as [| c l1 IH]; [auto |].
  rewrite <- app_comm_cons, !single_spaced_cons. intros H.
  apply andb_prop in H as [Hc Hrest]. destruct (IH Hrest) as [H1 H2].
  split; [| exact H2]. rewrite H1, andb_true_r.
  destruct (isspace c); [| reflexivity]. simpl in *.
  destruct l1; [reflexivity | exact Hc].
Qed.

Lemma forallb_app_inv {A : Type} (P : A -> bool) (l1 l2 : list A) :
  forallb P (l1 ++ l2) = true -> forallb P l1 = true /\ forallb P l2 = true.
Proof. rewrite forallb_app. apply andb_prop. Qed.

Lemma strip_lead (l : list ascii) : no_lead_space (strip_chars l) = true.
Proof.
  unfold strip_chars.
  destruct (lstrip_split (rev (lstrip_chars l))) as (w & Hw & Hsp).
  pose proof (lstrip_lead l) as Hl.
  apply (f_equal (@rev ascii)) in Hw.
  rewrite rev_involutive, rev_app_distr in Hw.
  destruct (rev (lstrip_chars (rev (lstrip_chars l)))) as [| c t];
    [reflexivity |].
  rewrite Hw in Hl. exact Hl.
Qed.

Lemma strip_trail (l : list ascii) : no_trail_space (strip_chars l) = true.
Proof.
  unfold no_trail_space, strip_chars. rewrite rev_involutive. apply lstrip_lead.
Qed.

Lemma strip_id (l : list ascii) :
  no_lead_space l = true -> no_trail_space l = true -> strip_chars l = l.
Proof.
  intros H1 H2. unfold strip_chars.
  rewrite (lstrip_id l H1), (lstrip_id (rev l) H2). apply rev_involutive.
Qed.

Lemma strip_str (s : string) : strip s = str (strip_chars (chars s)).
Proof. reflexivity. Qed.

(** Collapsing changes nothing in a text that is already single-spaced with
    plain spaces. *)
Lemma sub_spaces_id (b : bool) (l : list ascii) :
  forallb plain_space l = true -> single_spaced l = true ->
  (b = true -> no_lead_space l = true) ->
  sub_spaces_chars b l = l.
Proof.
  revert b. induction l as [| c l IH]; intros b Hp Hs Hb; [reflexivity |].
  cbn [sub_spaces_chars forallb] in *.
  apply andb_prop in Hp as [Hc Hp].
  rewrite single_spaced_cons in Hs. apply andb_prop in Hs as [Hcl Hs].
  unfold plain_space in Hc.
  destruct (isspace c) eqn:E.
  - destruct b; [specialize (Hb eq_refl); simpl in Hb; now rewrite E in Hb |].
    simpl in Hc, Hcl. apply Ascii.eqb_eq in Hc as ->.
    f_equal. now apply IH.
  - f_equal. apply IH; [exact Hp | exact Hs | discriminate].
Qed.

End TextLemmas.

(** ** Rounding whole numbers *)

Section MoreNumbers.
Local Open Scope Q_scope.

Lemma round_half_even_int (z : Z) : Py.round_half_even (inject_Z z) = z.
Proof.
  unfold Py.round_half_even. cbv zeta. rewrite Qfloor_Z.
  assert (E0 : inject_Z z - inject_Z z == 0) by ring.
  rewrite (Qcompare_comp _ _ E0 (1 # 2) (1 # 2) (Qeq_refl _)).
  reflexivity.
Qed.

(** A whole number is its own rounding, to any number of decimals. *)
Lemma round_int (z : Z) (n : nat) : Py.round (inject_Z z) n == inject_Z z.
Proof.
  unfold Py.round, Py.pow10.
  assert (E : inject_Z z * inject_Z (10 ^ Z.of_nat n)
              == inject_Z (z * 10 ^ Z.of_nat n)).
  { now rewrite inject_Z_mult. }
  rewrite (round_half_even_comp _ _ E), round_half_even_int, inject_Z_mult.
  pose proof (pow10_pos n) as Hp. unfold Py.pow10 in Hp.
  field. lra.
Qed.

Lemma round_unit_range (x : Q) (n : nat) :
  0 <= x -> x <= 1 -> 0 <= Py.round x n /\ Py.round x n <= 1.
Proof.
  intros H0 H1. split.
  - rewrite <- (round_int 0 n). now apply round_mono.
  - rewrite <- (round_int 1 n). now apply round_mono.
Qed.

End MoreNumbers.

(** ** src/processors/dedup.py: canonical text, shingles, similarity *)

Section NormalizeForHash.
Import PyStr TextForm Dedup.
Local Open Scope list_scope.

Lemma norm_char_lower (c : ascii) :
  is_norm_char c = true -> lower_char c = c.
Proof.
  destruct c as [[] [] [] [] [] [] [] []]; vm_compute; congruence.
Qed.

Lemma norm_char_plain (c : ascii) :
  is_norm_char c = true -> plain_space c = true.
Proof.
  destruct c as [[] [] [] [] [] [] [] []]; vm_compute; congruence.
Qed.

Lemma normalize_chars (text : string) :
  _normalize_for_hash text
  = str (strip_chars (sub_spaces_chars false
           (map (fun c => if is_norm_char c then c else " "%char)
              (map lower_char (chars text))))).
Proof.
  unfold _normalize_for_hash, lower, sub_class, sub_spaces.
  rewrite strip_str. now rewrite !chars_str.
Qed.

Lemma sub_class_forallb (keep : ascii -> bool) (l : list ascii) :
  keep " "%char = true ->
  forallb keep (map (fun c => if keep c then c else " "%char) l) = true.
Proof.
  intros Hsp. induction l as [| c l IH]; simpl; [reflexivity |].
  rewrite IH, andb_true_r. destruct (keep c) eqn:E; [exact E | exact Hsp].
Qed.

Lemma normalize_is_canonical (text : string) :
  is_canonical (_normalize_for_hash text) = true.
Proof.
  rewrite normalize_chars. unfold is_canonical. rewrite chars_str.
  set (l := sub_spaces_chars false _).
  assert (Hf : forallb is_norm_char l = true).
  { apply sub_spaces_forallb; [reflexivity |].
    now apply sub_class_forallb. }
  assert (Hs : single_spaced l = true) by apply sub_spaces_single.
  destruct (strip_split l) as (w1 & w2 & Hl & _ & _).
  rewrite Hl in Hf, Hs.
  apply forallb_app_inv in Hf as [_ Hf]. apply forallb_app_inv in Hf as [Hf _].
  apply single_spaced_app in Hs as [_ Hs]. apply single_spaced_app in Hs as [Hs _].
  now rewrite Hf, Hs, strip_lead, strip_trail.
Qed.

Lemma canonical_normalize (s : string) :
  is_canonical s = true -> _normalize_for_hash s = s.
Proof.
  unfold is_canonical. intros H.
  apply andb_prop in H as [H Ht]. apply andb_prop in H as [H Hl].
  apply andb_prop in H as [Hf Hs].
  rewrite normalize_chars.
  assert (E1 : map lower_char (chars s) = chars s).
  { rewrite forallb_forall in Hf. rewrite <- (map_id (chars s)) at 2.
    apply map_ext_in. intros c Hc. now apply norm_char_lower, Hf. }
  rewrite E1.
  assert (E2 : map (fun c => if is_norm_char c then c else " "%char) (chars s)
               = chars s).
  { rewrite forallb_forall in Hf. rewrite <- (map_id (chars s)) at 2.
    apply map_ext_in. intros c Hc. now rewrite (Hf c Hc). }
  rewrite E2.
  rewrite sub_spaces_id; [| | exact Hs | discriminate].
  - rewrite strip_id by assumption. apply str_chars.
  - rewrite forallb_forall in *. intros c Hc. now apply norm_char_plain, Hf.
Qed.

(** X1. [_normalize_for_hash] always returns a canonical text: only the
    letters a to z, digits and spaces, never two spaces in a row and no
    space at either end. *)
Theorem normalize_for_hash_canonical (text : string) :
  is_canonical (_normalize_for_hash text) = true.
Proof. apply normalize_is_canonical. Qed.

(** X2. Canonicalization is idempotent, so the digest and the shingle set
    of a text are those of its canonical form. *)
Theorem normalize_for_hash_idempotent (text : string) (n : nat) :
  _normalize_for_hash (_normalize_for_hash text) = _normalize_for_hash text
  /\ _content_hash (_normalize_for_hash text) = _content_hash text
  /\ _ngram_fingerprint (_normalize_for_hash text) n
     = _ngram_fingerprint text n.
Proof.
  pose proof (canonical_normalize _ (normalize_is_canonical text)) as E.
  unfold _content_hash, _ngram_fingerprint. cbv zeta. now rewrite !E.
Qed.

End NormalizeForHash.

Section Jaccard.
Import Dedup.
Local Open Scope Q_scope.

Lemma Qratio_properties (x y : Q) :
  0 < y -> 0 <= x -> x <= y ->
  0 <= x / y /\ x / y <= 1 /\ (x / y == 1 <-> x == y) /\ (x / y == 0 <-> x == 0).
Proof.
  intros Hy Hx Hxy.
  assert (Hr : x / y * y == x) by (field; lra).
  split; [| split; [| split; split]].
  - apply Qle_shift_div_l; [exact Hy | lra].
  - apply Qle_shift_div_r; [exact Hy | lra].
  - intros E. rewrite E in Hr. lra.
  - intros E. rewrite E. field. lra.
  - intros E. rewrite E in Hr. lra.
  - intros E. rewrite E. field. lra.
Qed.

Lemma ratio_properties (i u : nat) :
  (0 < u)%nat -> (i <= u)%nat ->
  let r := inject_Z (Z.of_nat i) / inject_Z (Z.of_nat u) in
  0 <= r /\ r <= 1 /\ (r == 1 <-> i = u) /\ (r == 0 <-> i = 0%nat).
Proof.
  intros Hu Hi r.
  assert (HU : 0 < inject_Z (Z.of_nat u)).
  { change 0 with (inject_Z 0). rewrite <- Zlt_Qlt. lia. }
  assert (HI : 0 <= inject_Z (Z.of_nat i)).
  { change 0 with (inject_Z 0). rewrite <- Zle_Qle. lia. }
  assert (HIU : inject_Z (Z.of_nat i) <= inject_Z (Z.of_nat u)).
  { rewrite <- Zle_Qle. lia. }
  destruct (Qratio_properties _ _ HU HI HIU) as (H0 & H1 & E1 & E0).
  split; [exact H0 | split; [exact H1 | split]].
  - unfold r. rewrite E1, inject_Z_injective. lia.
  - unfold r. rewrite E0. change 0 with (inject_Z 0).
    rewrite inject_Z_injective. lia.
Qed.

Lemma inter_subseteq_union (a b : gset string) : a ∩ b ⊆ a ∪ b.
Proof.
  intros x Hx. apply elem_of_intersection in Hx as [Hx _].
  apply elem_of_union. now left.
Qed.

Lemma inter_self (a : gset string) : a ∩ a = a.
Proof. apply set_eq. intros x. rewrite elem_of_intersection. tauto. Qed.

Lemma union_self (a : gset string) : a ∪ a = a.
Proof. apply set_eq. intros x. rewrite elem_of_union. tauto. Qed.

Lemma jaccard_nonempty (a b : gset string) :
  a <> ∅ -> b <> ∅ ->
  _jaccard_similarity a b
  = inject_Z (Z.of_nat (size (a ∩ b))) / inject_Z (Z.of_nat (size (a ∪ b)))
  /\ (0 < size (a ∪ b))%nat /\ (size (a ∩ b) <= size (a ∪ b))%nat.
Proof.
  intros Ha Hb.
  assert (Hu : (0 < size (a ∪ b))%nat).
  { destruct (size (a ∪ b)) eqn:E; [| lia].
    apply size_empty_iff, leibniz_equiv_iff in E.
    apply empty_union_L in E as [E _]. contradiction. }
  split; [| split; [exact Hu |]].
  - unfold _jaccard_similarity.
    rewrite !bool_decide_eq_false_2 by assumption. cbn [orb].
    apply Nat.ltb_lt in Hu. now rewrite Hu.
  - apply subseteq_size, inter_subseteq_union.
Qed.

Lemma jaccard_empty (a b : gset string) :
  a = ∅ \/ b = ∅ -> _jaccard_similarity a b = 0.
Proof.
  intros H. unfold _jaccard_similarity.
  destruct H as [H | H].
  - now rewrite (bool_decide_eq_true_2 _ H).
  - rewrite (bool_decide_eq_true_2 _ H). now rewrite orb_true_r.
Qed.

Lemma jaccard_range (a b : gset string) :
  0 <= _jaccard_similarity a b /\ _jaccard_similarity a b <= 1.
Proof.
  destruct (decide (a = ∅)) as [Ha | Ha];
    [rewrite jaccard_empty by auto; split; lra |].
  destruct (decide (b = ∅)) as [Hb | Hb];
    [rewrite jaccard_empty by auto; split; lra |].
  destruct (jaccard_nonempty a b Ha Hb) as (-> & Hu & Hi).
  destruct (ratio_properties _ _ Hu Hi) as (H0 & H1 & _). auto.
Qed.

Lemma jaccard_self (a : gset string) :
  a <> ∅ -> _jaccard_similarity a a == 1.
Proof.
  intros Ha. destruct (jaccard_nonempty a a Ha Ha) as (-> & Hu & Hi).
  apply (ratio_properties _ _ Hu Hi).
  now rewrite inter_self, union_self.
Qed.

(** X3. [_jaccard_similarity] is symmetric and lies between 0 and 1; it is
    1 exactly for two equal non-empty sets and 0 exactly for two sets
    without a common element (in particular when one is empty). *)
Theorem jaccard_similarity_properties (a b : gset string) :
  _jaccard_similarity a b = _jaccard_similarity b a
  /\ 0 <= _jaccard_similarity a b <= 1
  /\ (_jaccard_similarity a b == 1 <-> a = b /\ a <> ∅)
  /\ (_jaccard_similarity a b == 0 <-> a ∩ b = ∅).
Proof.
  split; [| split; [apply jaccard_range |]].
  { unfold _jaccard_similarity.
    rewrite (orb_comm (bool_decide (a = ∅))).
    assert (Ei : a ∩ b = b ∩ a) by apply (comm_L (∩)).
    assert (Eu : a ∪ b = b ∪ a) by apply (comm_L (∪)).
    now rewrite Ei, Eu. }
  destruct (decide (a = ∅)) as [Ha | Ha].
  { rewrite jaccard_empty by auto. subst a. split; split.
    - intros E. discriminate E.
    - intros [_ H]. now contradiction H.
    - intros _. apply (left_absorb_L ∅ (∩)).
    - reflexivity. }
  destruct (decide (b = ∅)) as [Hb | Hb].
  { rewrite jaccard_empty by auto. subst b. split; split.
    - intros E. discriminate E.
    - intros [E _]. now contradiction Ha.
    - intros _. apply (right_absorb_L ∅ (∩)).
    - reflexivity. }
  destruct (jaccard_nonempty a b Ha Hb) as (-> & Hu & Hi).
  destruct (ratio_properties _ _ Hu Hi) as (_ & _ & H1 & H0).
  split.
  - rewrite H1. split.
    + intros E. split; [| exact Ha].
      assert (Hs : a ∩ b = a ∪ b).
      { apply set_subseteq_size_eq; [apply inter_subseteq_union | lia]. }
      apply set_eq. intros x.
      assert (Hx : x ∈ a ∩ b <-> x ∈ a ∪ b) by now rewrite Hs.
      rewrite elem_of_intersection, elem_of_union in Hx. tauto.
    + intros [-> _]. now rewrite inter_self, union_self.
  - rewrite H0. split.
    + intros E. apply leibniz_equiv. now apply size_empty_iff.
    + intros E. rewrite E. apply size_empty.
Qed.

End Jaccard.

Section Fingerprint.
Import PyStr Dedup DedupSpec.
Local Open Scope list_scope.

Lemma length_substring (i n : nat) (s : string) :
  i + n <= String.length s -> String.length (substring i n s) = n.
Proof.
  revert i n. induction s as [| c s IH]; intros i n H; simpl in H.
  - destruct i, n; simpl in *; try lia; reflexivity.
  - destruct i as [| i]; [destruct n as [| n] |]; simpl; [reflexivity | |].
    + f_equal. apply IH. simpl. lia.
    + apply IH. lia.
Qed.

Lemma size_list_to_set_le (l : list string) :
  size (list_to_set l : gset string) <= length l.
Proof.
  induction l as [| x l IH]; [now rewrite list_to_set_nil, size_empty |].
  rewrite list_to_set_cons. cbn [length].
  pose proof (size_union_alt ({[ x ]} : gset string) (list_to_set l)) as Hu.
  pose proof (subseteq_size (list_to_set l ∖ {[ x ]}) (list_to_set l : gset string)
                (subseteq_difference_l _ _ _ (reflexivity _))) as Hd.
  rewrite size_singleton in Hu. lia.
Qed.

Lemma fingerprint_nonempty (text : string) (n : nat) :
  _ngram_fingerprint text n <> ∅.
Proof.
  unfold _ngram_fingerprint. cbv zeta.
  destruct (String.length (_normalize_for_hash text) <? n)%nat eqn:E.
  - apply non_empty_singleton_L.
  - apply Nat.ltb_ge in E. unfold ngrams.
    replace (String.length (_normalize_for_hash text) - n + 1)
      with (S (String.length (_normalize_for_hash text) - n)) by lia.
    cbn [seq map]. rewrite list_to_set_cons.
    intros H. apply empty_union_L in H as [H _].
    revert H. apply non_empty_singleton_L.
Qed.

(** X4. The fingerprint of a text is never empty. For a canonical text
    shorter than [n] it is that text alone; otherwise it consists of
    substrings of exactly [n] characters, at most [len - n + 1] of them.
    Hence every text is fully similar to itself. *)
Theorem ngram_fingerprint_shape (text : string) (n : nat) :
  let normalized := _normalize_for_hash text in
  let fp := _ngram_fingerprint text n in
  fp <> ∅
  /\ (String.length normalized < n -> fp = {[ normalized ]})
  /\ (n <= String.length normalized ->
      (forall g, g ∈ fp ->
         String.length g = n
         /\ exists i, i + n <= String.length normalized
                      /\ g = substring i n normalized)
      /\ size fp <= String.length normalized - n + 1)
  /\ (_jaccard_similarity fp fp == 1)%Q.
Proof.
  intros normalized fp.
  split; [apply fingerprint_nonempty |].
  split; [| split].
  - intros H. unfold fp, _ngram_fingerprint. cbv zeta. fold normalized.
    apply Nat.ltb_lt in H. now rewrite H.
  - intros H. unfold fp, _ngram_fingerprint. cbv zeta. fold normalized.
    apply Nat.ltb_ge in H. rewrite H. apply Nat.ltb_ge in H. split.
    + intros g Hg. apply elem_of_list_to_set in Hg. unfold ngrams in Hg.
      apply list_elem_of_fmap in Hg as (i & -> & Hi).
      apply elem_of_seq in Hi.
      assert (Hin : i + n <= String.length normalized) by lia.
      split; [apply length_substring; exact Hin |].
      exists i. split; [exact Hin | reflexivity].
    + etransitivity; [apply size_list_to_set_le |].
      unfold ngrams. now rewrite length_map, length_seq.
  - apply jaccard_self, fingerprint_nonempty.
Qed.

End Fingerprint.

(** ** src/processors/dedup.py: what one call keeps *)

Section DedupLoopFacts.
Import Base BaseText Dedup DedupSpec DedupLoop.
Local Open Scope list_scope.

(** The loop of [deduplicate] from any state whose fingerprints are those
    of its kept items. *)
Lemma dedup_fold (threshold : Q) (items : list CollectedItem) (st : LoopState) :
  fingerprints st = map item_fp (unique st) ->
  let st' := fold_left (dedup_step threshold) items st in
  let out := keep_loop threshold (seen_hashes st) (unique st) items in
  unique st' = unique st ++ out
  /\ seen_hashes st' = hashes out ∪ seen_hashes st
  /\ length out + duplicates_removed st'
       + length (List.filter is_blank items)
     = length items + duplicates_removed st.
Proof.
  revert st. induction items as [| x items IH]; intros st Hfp;
    cbn [fold_left keep_loop List.filter length].
  - rewrite app_nil_r. split; [reflexivity | split; [| lia]].
    unfold hashes. cbn [map]. rewrite list_to_set_nil.
    symmetry. apply (left_id_L ∅ (∪)).
  - rewrite dedup_step_cases, Hfp, is_near_dup_items.
    destruct (is_blank x).
    { destruct (IH st Hfp) as (Hu & Hs & Hn). cbn [length].
      split; [exact Hu | split; [exact Hs | lia]]. }
    set (removed := {| seen_hashes := seen_hashes st;
                       fingerprints := map item_fp (unique st);
                       unique := unique st;
                       duplicates_removed := S (duplicates_removed st) |}).
    set (accepted := {| seen_hashes := {[ item_hash x ]} ∪ seen_hashes st;
                        fingerprints := map item_fp (unique st) ++ [item_fp x];
                        unique := unique st ++ [x];
                        duplicates_removed := duplicates_removed st |}).
    destruct (bool_decide (item_hash x ∈ seen_hashes st)
              || near_dup threshold x (unique st)).
    + destruct (IH removed eq_refl) as (Hu & Hs & Hn).
      subst removed accepted.
      cbn [unique seen_hashes duplicates_removed] in Hu, Hs, Hn.
      split; [exact Hu | split; [exact Hs | lia]].
    + destruct (IH accepted) as (Hu & Hs & Hn).
      { unfold accepted. cbn [fingerprints unique]. now rewrite map_app. }
      subst removed accepted.
      cbn [unique seen_hashes duplicates_removed] in Hu, Hs, Hn.
      rewrite <- app_assoc in Hu. cbn [length app].
      split; [exact Hu | split; [| lia]].
      rewrite Hs, hashes_cons. apply set_eq. intros h.
      rewrite !elem_of_union. tauto.
Qed.

Lemma deduplicate_keep_loop (self : Deduplicator) (items : list CollectedItem) :
  let out := keep_loop (similarity_threshold self) (_seen_hashes self) [] items in
  deduplicate self items
  = (out, {| similarity_threshold := similarity_threshold self;
             _seen_hashes := hashes out ∪ _seen_hashes self |}).
Proof.
  intros out. unfold deduplicate.
  destruct (dedup_fold (similarity_threshold self) items (loop_start self) eq_refl)
    as (Hu & Hs & _).
  unfold loop_start in *. cbn [unique seen_hashes app] in Hu, Hs.
  now rewrite Hu, Hs.
Qed.

Lemma keep_loop_sublist (threshold : Q) (items : list CollectedItem) :
  forall seen kept,
    let out := keep_loop threshold seen kept items in
    out `sublist_of` items
    /\ Forall (fun x => is_blank x = false /\ item_hash x ∉ seen) out
    /\ NoDup (map item_hash out).
Proof.
  induction items as [| x items IH]; intros seen kept; cbn [keep_loop].
  - split; [constructor | split; [constructor | cbn [map]; constructor]].
  - destruct (is_blank x) eqn:Eb.
    { destruct (IH seen kept) as (H1 & H2 & H3).
      split; [now apply sublist_cons | auto]. }
    destruct (bool_decide (item_hash x ∈ seen)) eqn:Es; cbn [orb].
    { destruct (IH seen kept) as (H1 & H2 & H3).
      split; [now apply sublist_cons | auto]. }
    destruct (near_dup threshold x kept).
    { destruct (IH seen kept) as (H1 & H2 & H3).
      split; [now apply sublist_cons | auto]. }
    destruct (IH ({[ item_hash x ]} ∪ seen) (kept ++ [x])) as (H1 & H2 & H3).
    apply bool_decide_eq_false in Es.
    split; [now apply sublist_skip |]. split.
    + constructor; [auto |].
      eapply Forall_impl; [exact H2 |]. cbv beta.
      intros y [Hy1 Hy2]. split; [exact Hy1 |].
      intros Hin. apply Hy2, elem_of_union. now right.
    + cbn [map]. apply NoDup_cons. split; [| exact H3].
      intros Hin. apply list_elem_of_fmap in Hin as (y & Ey & Hy).
      rewrite Forall_forall in H2. destruct (H2 y Hy) as [_ Hn].
      apply Hn, elem_of_union. left. apply elem_of_singleton. now symmetry.
Qed.

(** X5. Whatever the instance has seen, the list returned by [deduplicate]
    is a sub-list of its input (same order, nothing new), its items are not
    blank, their digests are pairwise distinct and were not seen before;
    the call adds exactly these digests to the seen set and leaves the
    threshold as it is. *)
Theorem deduplicate_sublist (self : Deduplicator) (items : list CollectedItem) :
  let out := fst (deduplicate self items) in
  let self' := snd (deduplicate self items) in
  out `sublist_of` items
  /\ Forall (fun x => is_blank x = false /\ item_hash x ∉ _seen_hashes self) out
  /\ NoDup (map item_hash out)
  /\ _seen_hashes self' = hashes out ∪ _seen_hashes self
  /\ similarity_threshold self' = similarity_threshold self.
Proof.
  rewrite deduplicate_keep_loop. cbn [fst snd].
  destruct (keep_loop_sublist (similarity_threshold self) items
              (_seen_hashes self) []) as (H1 & H2 & H3).
  auto.
Qed.

(** X6. The counter of removed items counts the duplicates only: the kept
    items, the removed ones and the blank ones (dropped without being
    counted) together are the input. *)
Theorem dedup_loop_accounting (self : Deduplicator) (items : list CollectedItem) :
  let st := fold_left (dedup_step (similarity_threshold self)) items
              (loop_start self) in
  unique st = fst (deduplicate self items)
  /\ length (unique st) + duplicates_removed st
       + length (List.filter is_blank items)
     = length items.
Proof.
  destruct (dedup_fold (similarity_threshold self) items (loop_start self) eq_refl)
    as (Hu & _ & Hn).
  cbv zeta. split; [reflexivity |].
  rewrite Hu. unfold loop_start in *.
  cbn [unique app duplicates_removed] in *. lia.
Qed.

Lemma near_dup_nonpositive (threshold : Q) (x y : CollectedItem)
    (kept : list CollectedItem) :
  (threshold <= 0)%Q -> near_dup threshold x (y :: kept) = true.
Proof.
  intros H. unfold near_dup. cbn [existsb].
  apply orb_true_iff. left. apply Qle_bool_iff.
  destruct (jaccard_range (item_fp x) (item_fp y)) as [H0 _].
  unfold similarity. lra.
Qed.

Lemma near_dup_above_one (threshold : Q) (x : CollectedItem)
    (kept : list CollectedItem) :
  (1 < threshold)%Q -> near_dup threshold x kept = false.
Proof.
  intros H. unfold near_dup.
  induction kept as [| y kept IH]; cbn [existsb]; [reflexivity |].
  rewrite IH, orb_false_r.
  destruct (Qle_bool threshold (similarity x y)) eqn:E; [| reflexivity].
  apply Qle_bool_iff in E.
  destruct (jaccard_range (item_fp x) (item_fp y)) as [_ H1].
  unfold similarity in E. lra.
Qed.

Lemma keep_loop_saturated (threshold : Q) (items : list CollectedItem) :
  (threshold <= 0)%Q ->
  forall seen y kept, keep_loop threshold seen (y :: kept) items = [].
Proof.
  intros H. induction items as [| x items IH]; intros seen y kept;
    cbn [keep_loop]; [reflexivity |].
  rewrite (near_dup_nonpositive _ x y kept H), orb_true_r.
  destruct (is_blank x); apply IH.
Qed.

(** X7. With a threshold of 0 or less every item is a near duplicate of
    any kept one: a call keeps at most one item, namely the first that is
    not blank and whose digest has not been seen. *)
Theorem deduplicate_nonpositive_threshold (self : Deduplicator)
    (items : list CollectedItem) :
  (similarity_threshold self <= 0)%Q ->
  fst (deduplicate self items)
  = firstn 1 (List.filter (is_candidate (_seen_hashes self)) items).
Proof.
  intros H. rewrite deduplicate_keep_loop. cbn [fst].
  generalize (_seen_hashes self) as seen. intros seen.
  induction items as [| x items IH]; cbn [keep_loop List.filter];
    [reflexivity |].
  unfold is_candidate at 1.
  destruct (is_blank x); cbn [negb andb]; [exact IH |].
  cbn [near_dup existsb]. rewrite orb_false_r.
  destruct (bool_decide (item_hash x ∈ seen)); cbn [negb]; [exact IH |].
  cbn [app firstn]. f_equal. now apply keep_loop_saturated.
Qed.

(** X8. With a threshold above 1 the near-duplicate test never fires:
    a call keeps the first item of every digest not yet seen. *)
Theorem deduplicate_threshold_above_one (self : Deduplicator)
    (items : list CollectedItem) :
  (1 < similarity_threshold self)%Q ->
  fst (deduplicate self items) = keep_exact (_seen_hashes self) items.
Proof.
  intros H. rewrite deduplicate_keep_loop. cbn [fst].
  generalize (_seen_hashes self) as seen.
  generalize (@nil CollectedItem) as kept.
  induction items as [| x items IH]; intros kept seen;
    cbn [keep_loop keep_exact]; [reflexivity |].
  rewrite (near_dup_above_one _ x kept H), orb_false_r.
  destruct (is_blank x); cbn [orb]; [apply IH |].
  destruct (bool_decide (item_hash x ∈ seen)); [apply IH |].
  f_equal. apply IH.
Qed.

End DedupLoopFacts.

(** ** src/processors/cleaner.py: the shape of cleaned text *)

Section CleanerForm.
Import PyStr TextForm Cleaner CleanBody.
Local Open Scope list_scope.

Variable html_unescape : string -> string.

Lemma chars_substring (n : nat) (s : string) :
  chars (substring 0 n s) = firstn n (chars s).
Proof.
  revert n. induction s as [| c s IH]; intros [| n]; simpl; try reflexivity.
  f_equal. apply IH.
Qed.

(** A text returned by [slice_to] is a prefix of the text it is given. *)
Lemma slice_to_prefix (s : string) (n : Z) :
  exists k, chars (slice_to s n) = firstn k (chars s).
Proof.
  unfold slice_to. destruct (0 <=? n)%Z; eexists; apply chars_substring.
Qed.

Lemma single_spaced_firstn (k : nat) (l : list ascii) :
  single_spaced l = true -> single_spaced (firstn k l) = true.
Proof.
  intros H. rewrite <- (firstn_skipn k l) in H.
  now apply single_spaced_app in H.
Qed.

Lemma forallb_firstn {A : Type} (P : A -> bool) (k : nat) (l : list A) :
  forallb P l = true -> forallb P (firstn k l) = true.
Proof.
  intros H. rewrite <- (firstn_skipn k l) in H.
  now apply forallb_app_inv in H.
Qed.

Lemma no_lead_space_firstn (k : nat) (l : list ascii) :
  no_lead_space l = true -> no_lead_space (firstn k l) = true.
Proof. destruct k, l; simpl; auto. Qed.

Lemma clean_cases (self : TextCleaner) (text s : string) :
  clean html_unescape self text = Some s ->
  text <> ""
  /\ (min_length self <= len s)%Z
  /\ ((max_length self < len (clean_body html_unescape text))%Z
      /\ s = slice_to (clean_body html_unescape text) (max_length self)
      \/ (len (clean_body html_unescape text) <= max_length self)%Z /\ s = clean_body html_unescape text).
Proof.
  unfold clean. fold (clean_body html_unescape text).
  destruct text as [| c text]; [discriminate |]. cbn [truthy negb].
  destruct (Z.ltb_spec (max_length self) (len (clean_body html_unescape (String c text))))
    as [Hlong | Hshort].
  - destruct (Z.ltb_spec (len (slice_to (clean_body html_unescape (String c text))
                                 (max_length self))) (min_length self));
      [discriminate |].
    intros [= <-]. split; [discriminate | split; [assumption | left; auto]].
  - destruct (Z.ltb_spec (len (clean_body html_unescape (String c text))) (min_length self));
      [discriminate |].
    intros [= <-]. split; [discriminate | split; [assumption | right; auto]].
Qed.

Lemma kept_plain_space : (is_kept_char " " && plain_space " ")%bool = true.
Proof. reflexivity. Qed.

Lemma clean_body_chars (text : string) :
  exists l,
    forallb is_kept_char l = true
    /\ clean_body html_unescape text = str (strip_chars (sub_spaces_chars false l)).
Proof.
  unfold clean_body, _SPECIAL_CHARS_RE_sub, sub_class, sub_spaces.
  eexists. split; [| rewrite strip_str, !chars_str; reflexivity].
  now apply sub_class_forallb.
Qed.

Lemma clean_body_form (text : string) :
  is_clean_form (clean_body html_unescape text) = true
  /\ no_trail_space (chars (clean_body html_unescape text)) = true.
Proof.
  destruct (clean_body_chars text) as (l & Hl & ->).
  unfold is_clean_form. rewrite chars_str.
  set (m := sub_spaces_chars false l).
  assert (Hf : forallb (fun c => is_kept_char c && plain_space c) m = true).
  { pose proof (sub_spaces_forallb is_kept_char false l eq_refl Hl) as H1.
    pose proof (sub_spaces_plain false l) as H2. fold m in H1, H2.
    rewrite forallb_forall in *. intros c Hc.
    now rewrite (H1 c Hc), (H2 c Hc). }
  assert (Hs : single_spaced m = true) by apply sub_spaces_single.
  destruct (strip_split m) as (w1 & w2 & Hm & _ & _).
  rewrite Hm in Hf, Hs.
  apply forallb_app_inv in Hf as [_ Hf]. apply forallb_app_inv in Hf as [Hf _].
  apply single_spaced_app in Hs as [_ Hs]. apply single_spaced_app in Hs as [Hs _].
  now rewrite Hf, Hs, strip_lead, strip_trail.
Qed.

Lemma clean_form_firstn (k : nat) (s t : string) :
  is_clean_form s = true -> chars t = firstn k (chars s) ->
  is_clean_form t = true.
Proof.
  unfold is_clean_form. intros H E. rewrite E.
  apply andb_prop in H as [H Hl]. apply andb_prop in H as [Hf Hs].
  now rewrite forallb_firstn, single_spaced_firstn, no_lead_space_firstn.
Qed.

Lemma clean_is_clean_form (self : TextCleaner) (text s : string) :
  clean html_unescape self text = Some s -> is_clean_form s = true.
Proof.
  intros H. apply clean_cases in H as (_ & _ & [[_ ->] | [_ ->]]).
  - destruct (slice_to_prefix (clean_body html_unescape text) (max_length self)) as (k & E).
    eapply clean_form_firstn; [apply clean_body_form | exact E].
  - apply clean_body_form.
Qed.

(** X9. Whatever [html.unescape] does, a text returned by [clean] consists
    of allow-listed characters only (so it holds no angle bracket, ampersand
    or slash), its only white space is the single space, never two in a row
    and never in front; it ends in a space only when it was cut at
    [max_length]. *)
Theorem clean_output_form (self : TextCleaner) (text s : string) :
  clean html_unescape self text = Some s ->
  is_clean_form s = true
  /\ Forall (fun c => ~ c ∈ chars "<>&/") (chars s)
  /\ ((len s < max_length self)%Z -> no_trail_space (chars s) = true).
Proof.
  intros H. pose proof (clean_is_clean_form _ _ _ H) as Hform.
  split; [exact Hform | split].
  - unfold is_clean_form in Hform.
    apply andb_prop in Hform as [Hform _]. apply andb_prop in Hform as [Hf _].
    rewrite forallb_forall in Hf. apply Forall_forall. intros c Hc Hin.
    apply list_elem_of_In in Hc.
    specialize (Hf c Hc). apply andb_prop in Hf as [Hk _].
    cbn [chars list_ascii_of_string] in Hin.
    repeat (apply elem_of_cons in Hin as [-> | Hin]; [discriminate Hk |]).
    inversion Hin.
  - intros Hlen. apply clean_cases in H as (_ & _ & [[Hlong ->] | [_ ->]]).
    + exfalso. unfold slice_to, len in *.
      destruct (Z.leb_spec 0 (max_length self)) as [Hpos | Hneg]; [| lia].
      pose proof (length_chars (substring 0 (Z.to_nat (max_length self))
                                  (clean_body html_unescape text))) as E.
      rewrite chars_substring, length_firstn, length_chars in E. lia.
    + apply clean_body_form.
Qed.

End CleanerForm.

(** ** src/processors/cleaner.py: no web address survives *)

Section CleanerUrls.
Import PyStr TextForm Cleaner CleanBody.
Local Open Scope list_scope.

Variable html_unescape : string -> string.

Lemma strip_prefix_Some (p l t : list ascii) :
  strip_prefix p l = Some t <-> l = p ++ t.
Proof.
  revert l. induction p as [| a p IH]; intros l; simpl.
  - split; [now intros [= ->] | now intros ->].
  - destruct l as [| b l]; [split; discriminate |].
    destruct (Ascii.eqb_spec a b) as [-> | NE].
    + rewrite IH. split; [now intros -> | now intros [= ->]].
    + split; [discriminate | intros [= E _]; congruence].
Qed.

Lemma starts_nonspace_run (p : string) (l : list ascii) :
  forallb (fun c => negb (isspace c)) (chars p) = true ->
  starts_nonspace p l = true ->
  exists q r, l = q ++ r /\ is_run q
              /\ forall r', starts_nonspace p (q ++ r') = true.
Proof.
  intros Hp H. unfold starts_nonspace in H.
  destruct (strip_prefix (chars p) l) as [[| c t] |] eqn:E; try discriminate.
  apply strip_prefix_Some in E.
  exists (chars p ++ [c]), t. split; [| split; [split |]].
  - now rewrite <- app_assoc.
  - now destruct (chars p).
  - rewrite forallb_app, Hp. cbn [forallb]. now rewrite H.
  - intros r'. unfold starts_nonspace.
    assert (E' : strip_prefix (chars p) ((chars p ++ [c]) ++ r')
                 = Some (c :: r')).
    { apply strip_prefix_Some. now rewrite <- app_assoc. }
    now rewrite E'.
Qed.

(** A match of [_URL_RE] at the start of [l] is decided by a first word. *)
Lemma url_starts_run (l : list ascii) :
  url_starts l = true ->
  exists q r, l = q ++ r /\ is_run q /\ forall r', url_starts (q ++ r') = true.
Proof.
  unfold url_starts. intros H.
  apply orb_true_iff in H as [H | H]; [apply orb_true_iff in H as [H | H] |];
    apply starts_nonspace_run in H as (q & r & E & Hq & Hall);
    try reflexivity; exists q, r; (split; [exact E | split; [exact Hq |]]);
    intros r'; rewrite (Hall r'); rewrite ?orb_true_r; reflexivity.
Qed.

Lemma url_starts_space (c : ascii) (l : list ascii) :
  isspace c = true -> url_starts (c :: l) = false.
Proof.
  intros Hc. destruct (url_starts (c :: l)) eqn:E; [| reflexivity].
  apply url_starts_run in E as (q & r & E & [Hne Hq] & _).
  destruct q as [| a q]; [contradiction |].
  injection E as <- _. cbn [forallb] in Hq. now rewrite Hc in Hq.
Qed.

(** If a transformed text starts with a word only where the original does,
    a match at the start of the former is one at the start of the latter. *)
Lemma url_starts_transfer (out inp : list ascii) :
  (forall q r, is_run q -> out = q ++ r -> exists r', inp = q ++ r') ->
  url_starts out = true -> url_starts inp = true.
Proof.
  intros Hrun H. apply url_starts_run in H as (q & r & E & Hq & Hall).
  destruct (Hrun q r Hq E) as (r' & ->). apply Hall.
Qed.

Lemma url_free_app (l1 l2 : list ascii) :
  url_free (l1 ++ l2) = true -> url_free l1 = true /\ url_free l2 = true.
Proof.
  induction l1 as [| c l1 IH]; [auto |]. cbn [app url_free].
  intros H. apply andb_prop in H as [Hc H]. destruct (IH H) as [H1 H2].
  split; [| exact H2]. rewrite H1, andb_true_r.
  destruct (url_starts (c :: l1)) eqn:E; [| reflexivity].
  apply url_starts_run in E as (q & r & E & _ & Hall).
  change (c :: l1 ++ l2) with ((c :: l1) ++ l2) in Hc.
  rewrite E, <- app_assoc, Hall in Hc. discriminate.
Qed.

(** *** [_URL_RE.sub] *)

Lemma sub_urls_run (l : list ascii) :
  forall b q r, is_run q -> sub_urls b l = q ++ r ->
    b = false /\ exists r', l = q ++ r'.
Proof.
  induction l as [| c l IH]; intros b q r [Hne Hq] E.
  - destruct q; [contradiction | discriminate].
  - cbn [sub_urls] in E. destruct b.
    + destruct (isspace c) eqn:Hc.
      * destruct q as [| a q]; [contradiction |].
        injection E as <- _. cbn [forallb] in Hq. now rewrite Hc in Hq.
      * now destruct (IH true q r (conj Hne Hq) E).
    + split; [reflexivity |].
      destruct (url_starts (c :: l)).
      * now destruct (IH true q r (conj Hne Hq) E).
      * destruct q as [| a q]; [contradiction |].
        injection E as <- E. cbn [forallb] in Hq.
        apply andb_prop in Hq as [_ Hq].
        destruct q as [| a' q]; [now exists l |].
        destruct (IH false (a' :: q) r) as (_ & r' & ->);
          [split; [discriminate | exact Hq] | exact E |].
        now exists r'.
Qed.

Lemma sub_urls_free (b : bool) (l : list ascii) :
  url_free (sub_urls b l) = true.
Proof.
  revert b. induction l as [| c l IH]; intros b; [reflexivity |].
  cbn [sub_urls]. destruct b.
  - destruct (isspace c) eqn:Hc; [| apply IH].
    cbn [url_free]. now rewrite url_starts_space, IH.
  - destruct (url_starts (c :: l)) eqn:E; [apply IH |].
    cbn [url_free]. rewrite IH, andb_true_r.
    destruct (url_starts (c :: sub_urls false l)) eqn:E'; [| reflexivity].
    exfalso. apply (url_starts_transfer _ (c :: l)) in E'; [congruence |].
    intros q r Hq Hout.
    apply (sub_urls_run (c :: l) false q r Hq).
    cbn [sub_urls]. now rewrite E.
Qed.

(** *** Replacing single characters by spaces *)

Lemma sub_class_run (keep : ascii -> bool) (l : list ascii) :
  forall q r, forallb (fun c => negb (isspace c)) q = true ->
    map (fun c => if keep c then c else " "%char) l = q ++ r ->
    exists r', l = q ++ r'.
Proof.
  induction l as [| c l IH]; intros q r Hq E.
  - destruct q; [now exists [] | discriminate].
  - destruct q as [| a q]; [now exists (c :: l) |].
    cbn [map app forallb] in *. apply andb_prop in Hq as [Ha Hq].
    injection E as Ea E. destruct (IH q r Hq E) as (r' & ->).
    exists r'. f_equal. destruct (keep c); [exact Ea | now subst a].
Qed.

Lemma sub_class_free (keep : ascii -> bool) (l : list ascii) :
  url_free l = true ->
  url_free (map (fun c => if keep c then c else " "%char) l) = true.
Proof.
  induction l as [| c l IH]; [reflexivity |]. cbn [url_free]. intros H.
  apply andb_prop in H as [Hc H].
  set (f := fun c => if keep c then c else " "%char) in *.
  change (url_free (f c :: map f l) = true). cbn [url_free].
  rewrite (IH H), andb_true_r.
  destruct (url_starts (f c :: map f l)) eqn:E; [| reflexivity].
  apply (url_starts_transfer _ (c :: l)) in E;
    [rewrite E in Hc; discriminate |].
  intros q r [_ Hq] Hout. now apply (sub_class_run keep (c :: l) q r).
Qed.

(** *** Collapsing white space *)

Lemma sub_spaces_run (l : list ascii) :
  forall q r, forallb (fun c => negb (isspace c)) q = true ->
    sub_spaces_chars false l = q ++ r -> exists r', l = q ++ r'.
Proof.
  induction l as [| c l IH]; intros q r Hq E.
  - destruct q; [now exists [] | discriminate].
  - destruct q as [| a q]; [now exists (c :: l) |].
    cbn [sub_spaces_chars app forallb] in *.
    apply andb_prop in Hq as [Ha Hq].
    destruct (isspace c) eqn:Hc.
    + injection E as <- _. discriminate Ha.
    + injection E as <- E. destruct (IH q r Hq E) as (r' & ->). now exists r'.
Qed.

Lemma sub_spaces_free (b : bool) (l : list ascii) :
  url_free l = true -> url_free (sub_spaces_chars b l) = true.
Proof.
  revert b. induction l as [| c l IH]; intros b; [reflexivity |].
  cbn [url_free]. intros H. apply andb_prop in H as [Hc H].
  cbn [sub_spaces_chars]. destruct (isspace c) eqn:Hsp.
  - destruct b; [now apply IH |].
    cbn [url_free]. rewrite url_starts_space by reflexivity. now apply IH.
  - cbn [url_free]. rewrite (IH false H), andb_true_r.
    destruct (url_starts (c :: sub_spaces_chars false l)) eqn:E;
      [| reflexivity].
    apply (url_starts_transfer _ (c :: l)) in E;
      [rewrite E in Hc; discriminate |].
    intros q r [_ Hq] Hout. apply (sub_spaces_run (c :: l) q r Hq).
    cbn [sub_spaces_chars]. now rewrite Hsp.
Qed.

Lemma clean_body_url_free (text : string) :
  url_free (chars (clean_body html_unescape text)) = true.
Proof.
  unfold clean_body, _SPECIAL_CHARS_RE_sub, _URL_RE_sub, sub_class, sub_spaces.
  rewrite strip_str, !chars_str.
  set (l := sub_spaces_chars false _).
  assert (H : url_free l = true).
  { apply sub_spaces_free, sub_class_free, sub_urls_free. }
  destruct (strip_split l) as (w1 & w2 & Hl & _ & _).
  rewrite Hl in H. apply url_free_app in H as [_ H].
  apply url_free_app in H as [H _]. exact H.
Qed.

Lemma clean_output_url_free_aux (self : TextCleaner) (text : string) :
  url_free (chars (_URL_RE_sub text)) = true
  /\ (forall s, clean html_unescape self text = Some s ->
                url_free (chars s) = true).
Proof.
  split.
  - unfold _URL_RE_sub. rewrite chars_str. apply sub_urls_free.
  - intros s H.
    apply (clean_cases html_unescape) in H as (_ & _ & [[_ ->] | [_ ->]]).
    + destruct (slice_to_prefix (clean_body html_unescape text) (max_length self)) as (k & E).
      rewrite E. pose proof (clean_body_url_free text) as H.
      rewrite <- (firstn_skipn k (chars (clean_body html_unescape text))) in H.
      apply url_free_app in H as [H _]. exact H.
    + apply clean_body_url_free.
Qed.

(** X10. Removing the web addresses leaves none behind: [_URL_RE] matches
    nowhere in the result of its own substitution, and nowhere in a text
    returned by [clean], whatever [html.unescape] does. *)
Theorem clean_output_url_free (self : TextCleaner) (text : string) :
  url_free (chars (_URL_RE_sub text)) = true
  /\ (forall s, clean html_unescape self text = Some s ->
                url_free (chars s) = true).
Proof. apply clean_output_url_free_aux. Qed.

End CleanerUrls.

(** ** src/processors/cleaner.py: cleaning twice, cleaning a batch *)

Section CleanerAgain.
Import PyStr TextForm Cleaner CleanBody.
Local Open Scope list_scope.

Variable html_unescape : string -> string.

(** [html.unescape] returns a text without ampersand unchanged. *)
Hypothesis html_unescape_plain_text :
  forall t, Forall (fun c => c <> "&"%char) (chars t) -> html_unescape t = t.

Lemma sub_html_tags_id (l : list ascii) :
  Forall (fun c => c <> "<"%char) l -> sub_html_tags None l = l.
Proof.
  induction 1 as [| c l Hc _ IH]; cbn [sub_html_tags]; [reflexivity |].
  destruct (Ascii.eqb_spec c "<"); [contradiction | now rewrite IH].
Qed.

Lemma sub_urls_id (l : list ascii) :
  url_free l = true -> sub_urls false l = l.
Proof.
  induction l as [| c l IH]; [reflexivity |]. cbn [url_free sub_urls].
  intros H. apply andb_prop in H as [Hc H].
  destruct (url_starts (c :: l)); [discriminate |]. now rewrite IH.
Qed.

Lemma sub_class_id (keep : ascii -> bool) (l : list ascii) :
  forallb keep l = true ->
  map (fun c => if keep c then c else " "%char) l = l.
Proof.
  induction l as [| c l IH]; [reflexivity |]. cbn [forallb map].
  intros H. apply andb_prop in H as [Hc H]. now rewrite Hc, IH.
Qed.

Lemma clean_form_parts (s : string) :
  is_clean_form s = true ->
  forallb is_kept_char (chars s) = true
  /\ forallb plain_space (chars s) = true
  /\ single_spaced (chars s) = true
  /\ no_lead_space (chars s) = true.
Proof.
  unfold is_clean_form. intros H.
  apply andb_prop in H as [H Hl]. apply andb_prop in H as [Hf Hs].
  rewrite forallb_forall in Hf.
  split; [| split; [| auto]]; apply forallb_forall; intros c Hc;
    specialize (Hf c Hc); now apply andb_prop in Hf.
Qed.

Lemma clean_body_id (s : string) :
  is_clean_form s = true -> url_free (chars s) = true ->
  no_trail_space (chars s) = true ->
  clean_body html_unescape s = s.
Proof.
  intros Hform Hurl Htrail.
  destruct (clean_form_parts s Hform) as (Hk & Hp & Hs & Hl).
  assert (Hc : forall c, In c (chars s) ->
                 c <> "&"%char /\ c <> "<"%char).
  { rewrite forallb_forall in Hk. intros c Hin. specialize (Hk c Hin).
    split; intros ->; discriminate Hk. }
  unfold clean_body.
  rewrite html_unescape_plain_text
    by (apply Forall_forall; intros c Hin; apply list_elem_of_In in Hin;
        now apply Hc).
  unfold _HTML_TAG_RE_sub.
  rewrite sub_html_tags_id
    by (apply Forall_forall; intros c Hin; apply list_elem_of_In in Hin;
        now apply Hc).
  unfold _URL_RE_sub. rewrite chars_str, (sub_urls_id _ Hurl).
  unfold _SPECIAL_CHARS_RE_sub, sub_class.
  rewrite chars_str, (sub_class_id _ _ Hk).
  unfold sub_spaces. rewrite chars_str.
  rewrite (sub_spaces_id false _ Hp Hs) by discriminate.
  rewrite strip_str, chars_str, (strip_id _ Hl Htrail).
  now rewrite !str_chars.
Qed.

Lemma clean_fold (self : TextCleaner) (texts acc : list string) :
  fold_left (clean_batch_step html_unescape self) texts acc
  = acc ++ omap (clean html_unescape self) texts.
Proof.
  revert acc. induction texts as [| t texts IH]; intros acc;
    cbn [fold_left omap list_omap].
  - now rewrite app_nil_r.
  - rewrite IH. unfold clean_batch_step.
    destruct (clean html_unescape self t); [now rewrite <- app_assoc | reflexivity].
Qed.

Lemma length_omap_le {A B : Type} (f : A -> option B) (l : list A) :
  length (omap f l) <= length l.
Proof.
  induction l as [| x l IH]; cbn [omap list_omap length]; [lia |].
  destruct (f x); cbn [length]; lia.
Qed.

End CleanerAgain.

Section CleanerAgainTheorems.
Import PyStr TextForm Cleaner CleanBody.
Local Open Scope list_scope.

Variable html_unescape : string -> string.

(** X11. Cleaning is idempotent on what it returns, with two exceptions
    the code shows: the empty text (which [clean] can return when
    [min_length <= 0] but never accepts) and a text cut at [max_length]
    that ends in a space. Assumes, as the library documents, that
    [html.unescape] leaves a text without ampersand unchanged. *)
Theorem clean_idempotent (self : TextCleaner) (text s : string) :
  (forall t, Forall (fun c => c <> "&"%char) (chars t) -> html_unescape t = t) ->
  (0 <= max_length self)%Z ->
  clean html_unescape self text = Some s ->
  s <> "" ->
  no_trail_space (chars s) = true ->
  clean html_unescape self s = Some s.
Proof.
  intros Hun Hmax H Hne Htrail.
  pose proof (clean_is_clean_form html_unescape _ _ _ H) as Hform.
  assert (Hurl : url_free (chars s) = true).
  { destruct (clean_output_url_free_aux html_unescape self text) as [_ Hu].
    now apply Hu. }
  pose proof (clean_body_id html_unescape Hun s Hform Hurl Htrail) as Hbody.
  assert (Hlen : (min_length self <= len s <= max_length self)%Z).
  { apply (clean_cases html_unescape) in H as (_ & Hmin & [[_ E] | [Hle E]]).
    - split; [exact Hmin |]. rewrite E. unfold slice_to, len.
      destruct (Z.leb_spec 0 (max_length self)); [| lia].
      pose proof (length_substring_le (clean_body html_unescape text)
                    (Z.to_nat (max_length self))). lia.
    - split; [exact Hmin | now rewrite E]. }
  unfold clean. fold (clean_body html_unescape s). rewrite Hbody.
  destruct s as [| c s]; [contradiction |]. cbn [truthy negb].
  destruct (Z.ltb_spec (max_length self) (len (String c s))); [lia |].
  destruct (Z.ltb_spec (len (String c s)) (min_length self)); [lia |].
  reflexivity.
Qed.

(** X12. [clean_batch] returns, in input order, exactly the texts that
    [clean] accepts: never more texts than it was given, each of the
    cleaned form. *)
Theorem clean_batch_filter_map (self : TextCleaner) (texts : list string) :
  clean_batch html_unescape self texts = omap (clean html_unescape self) texts
  /\ length (clean_batch html_unescape self texts) <= length texts
  /\ Forall (fun s => is_clean_form s = true)
       (clean_batch html_unescape self texts).
Proof.
  assert (E : clean_batch html_unescape self texts
              = omap (clean html_unescape self) texts).
  { unfold clean_batch. now rewrite clean_fold. }
  rewrite E. split; [reflexivity | split].
  - apply length_omap_le.
  - apply Forall_forall. intros s Hs.
    apply list_elem_of_omap in Hs as (t & _ & Ht).
    now apply (clean_is_clean_form html_unescape self t).
Qed.

End CleanerAgainTheorems.

(** ** src/processors/pipeline.py *)

Section PipelineFacts.
Import Base BaseText PyStr TextForm Cleaner Dedup DedupSpec Pipeline PipelineSpec.
Local Open Scope list_scope.

Variable html_unescape : string -> string.

Lemma clean_step_acc (self : ProcessingPipeline) (acc : list CollectedItem)
    (x : CollectedItem) :
  clean_step html_unescape self acc x
  = acc ++ clean_step html_unescape self [] x.
Proof.
  unfold clean_step. cbv zeta.
  destruct (clean html_unescape (cleaner self) (text x));
    [reflexivity |].
  match goal with |- (if ?b then _ else _) = _ => destruct b end;
    [now rewrite app_nil_r | reflexivity].
Qed.

Lemma clean_step_item (self : ProcessingPipeline) (x : CollectedItem) :
  clean_step html_unescape self [] x = []
  \/ exists y, clean_step html_unescape self [] x = [y]
               /\ cleaned_from html_unescape (cleaner self) x y.
Proof.
  unfold clean_step, cleaned_from. cbv zeta.
  destruct (clean html_unescape (cleaner self) (text x)) as [t |] eqn:Et.
  - right. eexists. split; [reflexivity |].
    cbn [source_name source_category url published metadata text title app].
    do 5 (split; [reflexivity |]). split; [now left |].
    destruct (title x) as [t0 |] eqn:E0; [| now left].
    destruct (truthy t0); [| now left].
    destruct (clean html_unescape (cleaner self) t0) as [t' |] eqn:Et';
      [| now left].
    right. now exists t0, t'.
  - destruct (title x) as [t0 |] eqn:E0; [| now left].
    destruct (truthy t0) eqn:Etr.
    + destruct (clean html_unescape (cleaner self) t0) as [t' |] eqn:Et';
        [| now left].
      destruct (truthy t'); cbn [negb]; [| now left].
      right. eexists. split; [reflexivity |].
      cbn [source_name source_category url published metadata text title app].
      do 5 (split; [reflexivity |]). split; [now right |].
      right. now exists t0, t'.
    + rewrite Etr. cbn [negb]. now left.
Qed.

Lemma clean_fold_acc (self : ProcessingPipeline) (items : list CollectedItem) :
  forall acc,
    fold_left (clean_step html_unescape self) items acc
    = acc ++ fold_left (clean_step html_unescape self) items [].
Proof.
  induction items as [| x items IH]; intros acc; cbn [fold_left].
  - now rewrite app_nil_r.
  - rewrite (IH (clean_step _ _ acc x)), (IH (clean_step _ _ [] x)).
    now rewrite clean_step_acc, app_assoc.
Qed.

(** The cleaning loop keeps a sub-list of the items, each one cleaned. *)
Lemma clean_loop (self : ProcessingPipeline) (items : list CollectedItem) :
  exists xs,
    xs `sublist_of` items
    /\ Forall2 (cleaned_from html_unescape (cleaner self)) xs
         (fold_left (clean_step html_unescape self) items []).
Proof.
  induction items as [| x items (xs & Hsub & Hall)]; cbn [fold_left].
  - exists []. split; constructor.
  - rewrite clean_fold_acc.
    destruct (clean_step_item self x) as [-> | (y & -> & Hy)].
    + exists xs. split; [now apply sublist_cons | exact Hall].
    + exists (x :: xs). split; [now apply sublist_skip |].
      cbn [app]. now constructor.
Qed.

Lemma Forall2_sublist_r {A B : Type} (R : A -> B -> Prop)
    (xs : list A) (ys ys' : list B) :
  Forall2 R xs ys -> ys' `sublist_of` ys ->
  exists xs', xs' `sublist_of` xs /\ Forall2 R xs' ys'.
Proof.
  intros H. revert ys'. induction H as [| x y xs ys Hxy H IH]; intros ys' Hs.
  - apply sublist_nil_r in Hs as ->. exists []. split; constructor.
  - apply sublist_cons_r in Hs as [Hs | (l & -> & Hs)].
    + destruct (IH _ Hs) as (xs' & H1 & H2).
      exists xs'. split; [now apply sublist_cons | exact H2].
    + destruct (IH _ Hs) as (xs' & H1 & H2).
      exists (x :: xs'). split; [now apply sublist_skip | now constructor].
Qed.

Lemma cleaned_text_form (c : TextCleaner) (x y : CollectedItem) :
  cleaned_from html_unescape c x y -> is_clean_form (text y) = true.
Proof.
  intros (_ & _ & _ & _ & _ & [H | [_ ->]] & _); [| reflexivity].
  now apply (clean_is_clean_form html_unescape c (text x)).
Qed.


End PipelineFacts.

(** ** src/scoring/aggregator.py: the per-source breakdown *)

Section FirstSeen.
Import BreakdownSpec.
Local Open Scope list_scope.

Lemma existsb_eqb_elem_of (c : string) (l : list string) :
  existsb (String.eqb c) l = true <-> c ∈ l.
Proof.
  rewrite existsb_exists. split.
  - intros (x & Hx & E). apply String.eqb_eq in E as ->.
    now apply list_elem_of_In.
  - intros H. exists c. split; [now apply list_elem_of_In | apply String.eqb_refl].
Qed.

Lemma add_key_elem_of (acc : list string) (c k : string) :
  k ∈ add_key acc c <-> k ∈ acc \/ k = c.
Proof.
  unfold add_key. destruct (existsb (String.eqb c) acc) eqn:E.
  - apply existsb_eqb_elem_of in E. split; [auto | intros [H | ->]; auto].
  - rewrite elem_of_app, list_elem_of_singleton. reflexivity.
Qed.

Lemma add_key_NoDup (acc : list string) (c : string) :
  NoDup acc -> NoDup (add_key acc c).
Proof.
  intros H. unfold add_key. destruct (existsb (String.eqb c) acc) eqn:E;
    [exact H |].
  apply NoDup_app. split; [exact H | split; [| apply NoDup_singleton]].
  intros x Hx Hc. apply list_elem_of_singleton in Hc as ->.
  apply existsb_eqb_elem_of in Hx. congruence.
Qed.

Lemma fold_add_key (l acc : list string) :
  NoDup acc ->
  NoDup (fold_left add_key l acc)
  /\ forall k, k ∈ fold_left add_key l acc <-> k ∈ acc \/ k ∈ l.
Proof.
  revert acc. induction l as [| c l IH]; intros acc Hacc; cbn [fold_left].
  - split; [exact Hacc |]. intros k. rewrite elem_of_nil. tauto.
  - destruct (IH (add_key acc c) (add_key_NoDup _ _ Hacc)) as [H1 H2].
    split; [exact H1 |]. intros k.
    rewrite H2, add_key_elem_of, elem_of_cons. tauto.
Qed.

Lemma first_seen_NoDup (l : list string) : NoDup (first_seen l).
Proof. apply fold_add_key, NoDup_nil_2. Qed.

Lemma first_seen_elem_of (l : list string) (k : string) :
  k ∈ first_seen l <-> k ∈ l.
Proof.
  unfold first_seen.
  destruct (fold_add_key l [] (NoDup_nil_2)) as [_ H].
  rewrite H, elem_of_nil. tauto.
Qed.

Lemma first_seen_snoc (l : list string) (c : string) :
  first_seen (l ++ [c]) = add_key (first_seen l) c.
Proof. unfold first_seen. now rewrite fold_left_app. Qed.

End FirstSeen.

Section DictOfKeys.
Local Open Scope list_scope.

Context {V : Type}.

Lemma set_map_in (F : string -> V) (ks : list string) (k : string) (v : V) :
  NoDup ks -> k ∈ ks ->
  Py.set (map (fun c => (c, F c)) ks) k v
  = map (fun c => (c, if String.eqb c k then v else F c)) ks.
Proof.
  induction ks as [| a ks IH]; intros Hnd Hk; [inversion Hk |].
  apply NoDup_cons in Hnd as [Ha Hnd]. cbn [map Py.set].
  destruct (String.eqb_spec a k) as [-> | NE].
  - f_equal. apply map_ext_in. intros c Hc.
    destruct (String.eqb_spec c k) as [-> | _]; [| reflexivity].
    exfalso. apply Ha. now apply list_elem_of_In.
  - f_equal. apply IH; [exact Hnd |].
    apply elem_of_cons in Hk as [-> | Hk]; [contradiction | exact Hk].
Qed.

Lemma set_map_notin (F : string -> V) (ks : list string) (k : string) (v : V) :
  k ∉ ks ->
  Py.set (map (fun c => (c, F c)) ks) k v
  = map (fun c => (c, F c)) ks ++ [(k, v)].
Proof.
  induction ks as [| a ks IH]; intros Hk; [reflexivity |].
  cbn [map Py.set app].
  destruct (String.eqb_spec a k) as [-> | NE].
  - exfalso. apply Hk, elem_of_cons. now left.
  - f_equal. apply IH. intros H. apply Hk, elem_of_cons. now right.
Qed.

Lemma get_map_keys (F : string -> V) (ks : list string) (k : string) (dflt : V) :
  Py.get (map (fun c => (c, F c)) ks) k dflt
  = if existsb (String.eqb k) ks then F k else dflt.
Proof.
  unfold Py.get. induction ks as [| a ks IH]; [reflexivity |].
  cbn [map Py.lookup existsb]. rewrite (String.eqb_sym k a).
  destruct (String.eqb_spec a k) as [-> | NE]; [reflexivity | exact IH].
Qed.

End DictOfKeys.

Section SourceGroups.
Import Base Sentiment Emotion Aggregator BreakdownSpec.
Local Open Scope list_scope.

Lemma positions_app (c : string) (ps qs : list (nat * CollectedItem)) :
  positions c (ps ++ qs) = positions c ps ++ positions c qs.
Proof. unfold positions. now rewrite List.filter_app, map_app. Qed.

Lemma positions_absent (c : string) (ps : list (nat * CollectedItem)) :
  c ∉ map (fun p => source_category (snd p)) ps -> positions c ps = [].
Proof.
  unfold positions. induction ps as [| [i x] ps IH]; [reflexivity |].
  cbn [map List.filter snd]. intros H. unfold in_category at 1.
  destruct (String.eqb_spec (source_category x) c) as [E | NE].
  - exfalso. apply H, elem_of_cons. left. now symmetry.
  - apply IH. intros Hc. apply H, elem_of_cons. now right.
Qed.

Lemma positions_single (c : string) (i : nat) (x : CollectedItem) :
  positions c [(i, x)] = if String.eqb (source_category x) c then [i] else [].
Proof.
  unfold positions, in_category. cbn [List.filter snd].
  now destruct (String.eqb (source_category x) c).
Qed.

Lemma group_step_spec (done : list (nat * CollectedItem))
    (i : nat) (x : CollectedItem) :
  group_step (spec_groups done) (i, x) = spec_groups (done ++ [(i, x)]).
Proof.
  unfold group_step, spec_groups.
  rewrite map_app. cbn [map snd]. rewrite first_seen_snoc.
  pose proof (first_seen_NoDup (map (fun p => source_category (snd p)) done))
    as Hnd.
  pose proof (first_seen_elem_of (map (fun p => source_category (snd p)) done))
    as Hin.
  revert Hnd Hin.
  generalize (first_seen (map (fun p => source_category (snd p)) done)).
  intros ks Hnd Hin.
  assert (Hpos : forall k,
            positions k (done ++ [(i, x)])
            = positions k done
              ++ (if String.eqb k (source_category x) then [i] else [])).
  { intros k. rewrite positions_app, positions_single.
    now rewrite (String.eqb_sym k). }
  rewrite get_map_keys. unfold add_key.
  destruct (existsb (String.eqb (source_category x)) ks) eqn:E.
  - apply existsb_eqb_elem_of in E. rewrite (set_map_in _ _ _ _ Hnd E).
    apply map_ext. intros k. f_equal. rewrite Hpos.
    destruct (String.eqb_spec k (source_category x)) as [-> | NE];
      [reflexivity | now rewrite app_nil_r].
  - assert (Hc : source_category x ∉ ks).
    { intros H. apply existsb_eqb_elem_of in H. congruence. }
    rewrite (set_map_notin _ _ _ _ Hc), map_app. cbn [map].
    f_equal.
    + apply map_ext_in. intros k Hk. f_equal. rewrite Hpos.
      destruct (String.eqb_spec k (source_category x)) as [-> | NE];
        [| now rewrite app_nil_r].
      exfalso. apply Hc. now apply list_elem_of_In.
    + do 2 f_equal. rewrite Hpos, String.eqb_refl.
      rewrite (positions_absent (source_category x) done); [reflexivity |].
      intros H. now apply Hc, Hin.
Qed.

Lemma group_fold (ps done : list (nat * CollectedItem)) :
  fold_left group_step ps (spec_groups done) = spec_groups (done ++ ps).
Proof.
  revert done. induction ps as [| [i x] ps IH]; intros done; cbn [fold_left].
  - now rewrite app_nil_r.
  - rewrite group_step_spec, IH. now rewrite <- app_assoc.
Qed.

(** The groups that [aggregate] builds: one per category, in the order of
    first occurrence, each with the positions of its items. *)
Lemma source_groups_spec (items : list CollectedItem) :
  source_groups items = spec_groups (combine (seq 0 (length items)) items).
Proof.
  unfold source_groups.
  change (fun groups '(i, item) =>
            Py.set groups (source_category item)
              (Py.get groups (source_category item) [] ++ [i]))
    with group_step.
  apply (group_fold _ []).
Qed.

End SourceGroups.

Section Breakdown.
Import Base Sentiment Emotion Aggregator BreakdownSpec.
Local Open Scope list_scope.

Lemma mapM_map_ok {A B : Type} (f : A -> Py.result B) (h : A -> B)
    (l : list A) :
  (forall x, x ∈ l -> f x = Py.Ok (h x)) -> Py.mapM f l = Py.Ok (map h l).
Proof.
  induction l as [| x l IH]; intros H; cbn [Py.mapM map]; [reflexivity |].
  rewrite (H x) by (apply elem_of_cons; now left). cbn [Py.bind].
  rewrite IH by (intros y Hy; apply H, elem_of_cons; now right).
  reflexivity.
Qed.

Lemma mapM_cases {A B : Type} (f : A -> Py.result B) (e : Py.exn)
    (l : list A) :
  (forall x, (exists y, f x = Py.Ok y) \/ f x = Py.Raise e) ->
  (exists ys, Py.mapM f l = Py.Ok ys) \/ Py.mapM f l = Py.Raise e.
Proof.
  intros H. induction l as [| x l IH]; cbn [Py.mapM]; [left; eauto |].
  destruct (H x) as [[y ->] | ->]; cbn [Py.bind]; [| now right].
  destruct IH as [[ys ->] | ->]; cbn [Py.bind]; [left; eauto | now right].
Qed.

Lemma mapM_raise {A B : Type} (f : A -> Py.result B) (e : Py.exn)
    (l : list A) :
  (forall x, (exists y, f x = Py.Ok y) \/ f x = Py.Raise e) ->
  (exists x, x ∈ l /\ f x = Py.Raise e) ->
  Py.mapM f l = Py.Raise e.
Proof.
  intros H (x0 & Hin & Hx0).
  induction l as [| x l IH]; cbn [Py.mapM]; [inversion Hin |].
  destruct (H x) as [[y Hy] | ->]; cbn [Py.bind]; [| reflexivity].
  rewrite Hy. cbn [Py.bind].
  apply elem_of_cons in Hin as [-> | Hin]; [congruence |].
  now rewrite (IH Hin).
Qed.

Lemma index_cases {A : Type} (l : list A) (i : nat) :
  (exists y, index l i = Py.Ok y) \/ index l i = Py.Raise Py.IndexError.
Proof. unfold index. destruct (nth_error l i); eauto. Qed.

Lemma index_out_of_range {A : Type} (l : list A) (i : nat) :
  length l <= i -> index l i = Py.Raise Py.IndexError.
Proof.
  intros H. unfold index. now rewrite (proj2 (nth_error_None l i) H).
Qed.

Lemma positions_cons (c : string) (k : nat) (x : CollectedItem)
    (ps : list (nat * CollectedItem)) :
  positions c ((k, x) :: ps)
  = if in_category c x then k :: positions c ps else positions c ps.
Proof.
  unfold positions. cbn [List.filter snd]. now destruct (in_category c x).
Qed.

Lemma select_cons {A : Type} (c : string) (x : CollectedItem)
    (items : list CollectedItem) (y : A) (l : list A) :
  select c (x :: items) (y :: l)
  = if in_category c x then y :: select c items l else select c items l.
Proof.
  unfold select. cbn [combine List.filter fst]. now destruct (in_category c x).
Qed.

(** Reading the results at the positions of a category gives the results
    of its items. *)
Lemma index_select {A : Type} (c : string) (items : list CollectedItem) :
  forall (l pre : list A) (k : nat),
    length pre = k -> length items <= length l ->
    Py.mapM (index (pre ++ l))
      (positions c (combine (seq k (length items)) items))
    = Py.Ok (select c items l).
Proof.
  induction items as [| x items IH]; intros l pre k Hpre Hlen; [reflexivity |].
  destruct l as [| y l]; [cbn [length] in Hlen; lia |].
  cbn [length seq combine]. rewrite positions_cons, select_cons.
  assert (IH' : Py.mapM (index (pre ++ y :: l))
                  (positions c (combine (seq (S k) (length items)) items))
                = Py.Ok (select c items l)).
  { replace (pre ++ y :: l) with ((pre ++ [y]) ++ l)
      by now rewrite <- app_assoc.
    apply IH; [rewrite length_app; cbn [length]; lia |].
    cbn [length] in Hlen. lia. }
  destruct (in_category c x); [| exact IH'].
  cbn [Py.mapM]. rewrite IH'. unfold index at 1.
  rewrite nth_error_app2 by lia.
  replace (k - length pre) with 0 by lia. reflexivity.
Qed.

Lemma length_positions (c : string) (items : list CollectedItem) (k : nat) :
  length (positions c (combine (seq k (length items)) items))
  = length (List.filter (in_category c) items).
Proof.
  revert k. induction items as [| x items IH]; intros k; [reflexivity |].
  cbn [length seq combine List.filter]. rewrite positions_cons.
  destruct (in_category c x); cbn [length]; now rewrite IH.
Qed.

Lemma source_entry_spec (self : Aggregator) (items : list CollectedItem)
    (sentiments : list SentimentResult) (emotions : list EmotionResult)
    (c : string) :
  length items <= length sentiments -> length items <= length emotions ->
  source_entry self sentiments emotions c
    (positions c (combine (seq 0 (length items)) items))
  = Py.Ok (spec_entry self items sentiments emotions c).
Proof.
  intros Hs He. unfold source_entry. cbv zeta.
  pose proof (index_select c items sentiments [] 0 eq_refl Hs) as Es.
  pose proof (index_select c items emotions [] 0 eq_refl He) as Ee.
  cbn [app] in Es, Ee. rewrite Es, bind_Ok, Ee, bind_Ok.
  rewrite length_positions. reflexivity.
Qed.

(** [aggregate] on a non-empty batch, up to the breakdown loop. *)
Lemma aggregate_nonempty (self : Aggregator) (items : list CollectedItem)
    (sentiments : list SentimentResult) (emotions : list EmotionResult) :
  items <> [] ->
  exists mk : Py.dict SourceBreakdown -> AggregatedResult,
    (forall sb, source_breakdown (mk sb) = sb
                /\ items_analyzed (mk sb) = Z.of_nat (length items)
                /\ avg_compound (mk sb)
                   = Py.round (mean_of compound sentiments (length items)) 4
                /\ sentiment (mk sb)
                   = [ ("positive",
                        Py.round (mean_of positive sentiments (length items)) 4);
                       ("neutral",
                        Py.round (mean_of neutral sentiments (length items)) 4);
                       ("negative",
                        Py.round (mean_of negative sentiments (length items)) 4) ])
    /\ aggregate self items sentiments emotions
       = Py.bind
           (Py.mapM
              (fun '(source_cat, indices) =>
                 Py.bind
                   (source_entry self sentiments emotions source_cat indices)
                   (fun entry => Py.Ok (source_cat, entry)))
              (source_groups items))
           (fun sb => Py.Ok (mk sb)).
Proof.
  intros Hne. unfold aggregate.
  destruct items as [| item items']; [congruence |].
  set (items := item :: items') in *. cbn [Py.truthy negb].
  destruct (max_key_nonempty
              (normalize_emotions (emotion_means emotions (length items))))
    as [dom Hdom].
  { intros E. apply (f_equal Py.keys) in E.
    rewrite normalize_emotions_keys in E. discriminate E. }
  cbv zeta. rewrite Hdom, bind_Ok.
  eexists (fun sb => {| source_breakdown := sb |}).
  split; [| reflexivity].
  intros sb. cbn [source_breakdown items_analyzed avg_compound sentiment].
  auto.
Qed.

End Breakdown.

Section BreakdownTheorems.
Import Base Sentiment Emotion Aggregator BreakdownSpec Sums.
Local Open Scope list_scope.

Lemma map_snd_numbered {A : Type} (l : list A) (k : nat) :
  map snd (combine (seq k (length l)) l) = l.
Proof.
  revert k. induction l as [| x l IH]; intros k; [reflexivity |].
  cbn [length seq combine map snd]. now rewrite IH.
Qed.

Lemma numbered_snoc {A : Type} (front : list A) (x : A) (k : nat) :
  combine (seq k (length (front ++ [x]))) (front ++ [x])
  = combine (seq k (length front)) front ++ [(k + length front, x)].
Proof.
  revert k. induction front as [| y front IH]; intros k.
  - cbn [app length seq combine]. now rewrite Nat.add_0_r.
  - cbn [app length seq combine]. rewrite IH.
    now replace (S k + length front) with (k + S (length front)) by lia.
Qed.

Lemma first_seen_numbered (items : list CollectedItem) :
  first_seen (map (fun p : nat * CollectedItem => source_category (snd p))
                (combine (seq 0 (length items)) items))
  = first_seen (map source_category items).
Proof.
  rewrite <- (map_snd_numbered items 0) at 3. now rewrite map_map.
Qed.

Lemma count_step (x : CollectedItem) (items : list CollectedItem)
    (ks : list string) :
  NoDup ks ->
  nsum (map (fun c => length (List.filter (in_category c) (x :: items))) ks)
  = (if existsb (String.eqb (source_category x)) ks then 1 else 0)
    + nsum (map (fun c => length (List.filter (in_category c) items)) ks).
Proof.
  unfold nsum. induction ks as [| k ks IH]; intros Hnd; [reflexivity |].
  apply NoDup_cons in Hnd as [Hk Hnd].
  cbn [map fold_right existsb]. rewrite (IH Hnd).
  cbn [List.filter]. unfold in_category at 1.
  destruct (String.eqb_spec (source_category x) k) as [E | NE];
    cbn [orb length]; [| lia].
  destruct (existsb (String.eqb (source_category x)) ks) eqn:Ex; [| lia].
  exfalso. apply Hk. apply existsb_eqb_elem_of in Ex. congruence.
Qed.

(** Every item is counted in exactly one category. *)
Lemma count_partition (items : list CollectedItem) (ks : list string) :
  NoDup ks -> (forall x, x ∈ items -> source_category x ∈ ks) ->
  nsum (map (fun c => length (List.filter (in_category c) items)) ks)
  = length items.
Proof.
  intros Hnd. induction items as [| x items IH]; intros Hin.
  - clear Hnd Hin. unfold nsum.
    induction ks as [| k ks IHk]; [reflexivity |].
    cbn [map fold_right List.filter length Nat.add]. exact IHk.
  - assert (Hx : source_category x ∈ ks) by (apply Hin, elem_of_cons; now left).
    rewrite (count_step x items ks Hnd), IH
      by (intros y Hy; apply Hin, elem_of_cons; now right).
    apply existsb_eqb_elem_of in Hx. rewrite Hx. reflexivity.
Qed.

Lemma breakdown_ok (self : Aggregator) (items : list CollectedItem)
    (sentiments : list SentimentResult) (emotions : list EmotionResult) :
  length items <= length sentiments -> length items <= length emotions ->
  Py.mapM
    (fun '(source_cat, indices) =>
       Py.bind (source_entry self sentiments emotions source_cat indices)
         (fun entry => Py.Ok (source_cat, entry)))
    (source_groups items)
  = Py.Ok (spec_breakdown self items sentiments emotions).
Proof.
  intros Hs He. rewrite source_groups_spec. unfold spec_groups, spec_breakdown.
  rewrite first_seen_numbered.
  rewrite (mapM_map_ok _
             (fun kv => (fst kv, spec_entry self items sentiments emotions (fst kv)))).
  - now rewrite map_map.
  - intros [c idxs] Hin. apply list_elem_of_fmap in Hin as (c' & [= -> ->] & _).
    now rewrite (source_entry_spec self items sentiments emotions c' Hs He).
Qed.


(** X15. On a non-empty batch [aggregate] raises IndexError as soon as
    there are fewer sentiments or fewer emotions than items. *)
Theorem aggregate_index_error (self : Aggregator)
    (items : list CollectedItem) (sentiments : list SentimentResult)
    (emotions : list EmotionResult) :
  items <> [] ->
  length sentiments < length items \/ length emotions < length items ->
  aggregate self items sentiments emotions = Py.Raise Py.IndexError.
Proof.
  intros Hne Hshort.
  destruct (aggregate_nonempty self items sentiments emotions Hne)
    as (mk & _ & ->).
  set (g := fun '(source_cat, indices) => _).
  assert (Hentry : forall c idxs,
            (exists e, source_entry self sentiments emotions c idxs = Py.Ok e)
            \/ source_entry self sentiments emotions c idxs
               = Py.Raise Py.IndexError).
  { intros c idxs. unfold source_entry.
    destruct (mapM_cases (index sentiments) Py.IndexError idxs
                (index_cases sentiments)) as [[ss ->] | ->];
      [| now right].
    rewrite bind_Ok.
    destruct (mapM_cases (index emotions) Py.IndexError idxs
                (index_cases emotions)) as [[es ->] | ->];
      [| now right].
    rewrite bind_Ok. left. eauto. }
  assert (Hg : forall kv, (exists y, g kv = Py.Ok y)
                          \/ g kv = Py.Raise Py.IndexError).
  { intros [c idxs]. unfold g.
    destruct (Hentry c idxs) as [[e ->] | ->]; cbn [Py.bind];
      [left; eauto | now right]. }
  rewrite (mapM_raise g Py.IndexError (source_groups items) Hg);
    [reflexivity |].
  (* the group of the last item holds the last position *)
  destruct (exists_last Hne) as (front & x & ->).
  set (c := source_category x).
  set (ps := combine (seq 0 (length (front ++ [x]))) (front ++ [x])).
  assert (Hps : ps = combine (seq 0 (length front)) front ++ [(length front, x)]).
  { unfold ps. apply (numbered_snoc front x 0). }
  assert (Hlast : length front ∈ positions c ps).
  { rewrite Hps, positions_app, positions_single. unfold c.
    rewrite String.eqb_refl. apply elem_of_app. right.
    now apply list_elem_of_singleton. }
  assert (Hrange : Forall (fun i => i < length (front ++ [x])) (positions c ps)).
  { apply Forall_forall. intros i Hi. unfold positions in Hi.
    apply list_elem_of_fmap in Hi as ([j y] & -> & Hj).
    apply list_elem_of_In, filter_In in Hj as [Hj _].
    apply in_combine_l, in_seq in Hj. cbn [fst]. lia. }
  exists (c, positions c ps). split.
  - rewrite source_groups_spec. fold ps. unfold spec_groups.
    apply list_elem_of_fmap. exists c. split; [reflexivity |].
    apply first_seen_elem_of, list_elem_of_fmap.
    exists (length front, x). split; [reflexivity |].
    rewrite Hps. apply elem_of_app. right. now apply list_elem_of_singleton.
  - unfold g, source_entry.
    rewrite length_app in Hshort, Hrange. cbn [length] in Hshort, Hrange.
    destruct (Nat.lt_ge_cases (length sentiments) (length front + 1))
      as [Hs | Hs].
    + rewrite (mapM_raise (index sentiments) Py.IndexError);
        [reflexivity | apply index_cases |].
      exists (length front). split; [exact Hlast |].
      apply index_out_of_range. lia.
    + destruct (mapM_ok (index sentiments) (positions c ps)) as [ss ->].
      { eapply Forall_impl; [exact Hrange |]. intros i Hi.
        cbv beta in Hi. apply index_ok. lia. }
      rewrite bind_Ok.
      rewrite (mapM_raise (index emotions) Py.IndexError);
        [reflexivity | apply index_cases |].
      exists (length front). split; [exact Hlast |].
      apply index_out_of_range. lia.
Qed.

End BreakdownTheorems.

(** ** src/scoring/aggregator.py: the aggregated sentiment stays in range *)

Section AggregateRanges.
Import Base Sentiment Emotion Aggregator BreakdownSpec Sums.
Local Open Scope Q_scope.

Lemma Qsum_bounds {A : Type} (field : A -> Q) (xs : list A) (lo hi : Q) :
  Forall (fun x => lo <= field x /\ field x <= hi) xs ->
  inject_Z (Z.of_nat (length xs)) * lo <= Qsum (map field xs)
  /\ Qsum (map field xs) <= inject_Z (Z.of_nat (length xs)) * hi.
Proof.
  induction 1 as [| x xs [Hlo Hhi] _ [IHlo IHhi]].
  - unfold Qsum. cbn [length map fold_right].
    change (inject_Z (Z.of_nat 0)) with 0. split; lra.
  - unfold Qsum. cbn [length map fold_right].
    rewrite Nat2Z.inj_succ, <- Z.add_1_r, inject_Z_plus.
    change (fold_right Qplus 0 (map field xs)) with (Qsum (map field xs)).
    change (inject_Z 1) with 1.
    revert IHlo IHhi. generalize (inject_Z (Z.of_nat (length xs))).
    generalize (Qsum (map field xs)). intros s m IHlo IHhi. split; lra.
Qed.

(** The mean of values between [lo] and [hi] lies between them. *)
Lemma mean_of_range {A : Type} (field : A -> Q) (xs : list A) (lo hi : Q) :
  xs <> [] ->
  Forall (fun x => lo <= field x /\ field x <= hi) xs ->
  lo <= mean_of field xs (length xs) /\ mean_of field xs (length xs) <= hi.
Proof.
  intros Hne H. destruct (Qsum_bounds field xs lo hi H) as [Hlo Hhi].
  unfold mean_of. rewrite sum_Qsum.
  assert (Hn : 0 < inject_Z (Z.of_nat (length xs))).
  { change 0 with (inject_Z 0). rewrite <- Zlt_Qlt.
    destruct xs; [congruence | cbn [length]; lia]. }
  revert Hlo Hhi Hn. generalize (inject_Z (Z.of_nat (length xs))).
  generalize (Qsum (map field xs)). intros s m Hlo Hhi Hm. split.
  - apply Qle_shift_div_l; [exact Hm | lra].
  - apply Qle_shift_div_r; [exact Hm | lra].
Qed.

Lemma rounded_mean_range {A : Type} (field : A -> Q) (xs : list A)
    (lo hi : Z) :
  xs <> [] ->
  Forall (fun x => inject_Z lo <= field x /\ field x <= inject_Z hi) xs ->
  inject_Z lo <= Py.round (mean_of field xs (length xs)) 4
  /\ Py.round (mean_of field xs (length xs)) 4 <= inject_Z hi.
Proof.
  intros Hne H. destruct (mean_of_range field xs _ _ Hne H) as [Hlo Hhi].
  split.
  - rewrite <- (round_int lo 4). now apply round_mono.
  - rewrite <- (round_int hi 4). now apply round_mono.
Qed.

(** X16. Averaging keeps the sentiment in range: when every per-item
    positive, neutral and negative score lies in [0, 1] and every compound
    score in [-1, 1], so do the aggregated values, rounding included. *)
Theorem aggregate_sentiment_range (self : Aggregator)
    (items : list CollectedItem) (sentiments : list SentimentResult)
    (emotions : list EmotionResult) :
  items <> [] ->
  length sentiments = length items ->
  (length items <= length emotions)%nat ->
  Forall (fun s => (0 <= positive s /\ positive s <= 1)
                   /\ (0 <= neutral s /\ neutral s <= 1)
                   /\ (0 <= negative s /\ negative s <= 1)
                   /\ (-1 <= compound s /\ compound s <= 1)) sentiments ->
  exists r,
    aggregate self items sentiments emotions = Py.Ok r
    /\ Py.keys (sentiment r) = ["positive"; "neutral"; "negative"]
    /\ Forall (fun kv => 0 <= snd kv /\ snd kv <= 1) (sentiment r)
    /\ -1 <= avg_compound r /\ avg_compound r <= 1.
Proof.
  intros Hne Hs He Hall.
  destruct (aggregate_nonempty self items sentiments emotions Hne)
    as (mk & Hmk & ->).
  rewrite (breakdown_ok self items sentiments emotions) by lia.
  cbn [Py.bind].
  exists (mk (spec_breakdown self items sentiments emotions)).
  destruct (Hmk (spec_breakdown self items sentiments emotions))
    as (_ & _ & -> & ->).
  rewrite <- Hs.
  assert (Hne' : sentiments <> []).
  { intros ->. destruct items; [congruence | discriminate Hs]. }
  split; [reflexivity | split; [reflexivity | split]].
  - repeat constructor; cbn [snd].
    all: try (apply (rounded_mean_range _ sentiments 0 1 Hne');
              eapply Forall_impl; [exact Hall |]; cbv beta;
              intros s (H1 & H2 & H3 & H4); assumption).
  - apply (rounded_mean_range compound sentiments (-1) 1 Hne').
    eapply Forall_impl; [exact Hall |]. cbv beta.
    intros s (H1 & H2 & H3 & H4). assumption.
Qed.

End AggregateRanges.

(** ** src/scoring/loosh_index.py: override, weights, labels, components *)

Section LooshIndexMoreLemmas.
Import Emotion Aggregator LooshIndex Sums LooshIndexSpec LooshIndexMore.
Local Open Scope Q_scope.

Lemma clamp_comp (lo hi x y : Q) :
  x == y -> spec_clamp lo hi x == spec_clamp lo hi y.
Proof.
  intros E. unfold spec_clamp.
  apply max_comp; [reflexivity |]. apply min_comp; [reflexivity | exact E].
Qed.

Lemma label_comp (x y : Q) : x == y -> _label x = _label y.
Proof.
  intros E. unfold _label.
  repeat (destruct (Qlt_le_dec x _); destruct (Qlt_le_dec y _);
          try reflexivity; try lra).
Qed.

Lemma label_in_LABELS (i : Q) : _label i ∈ LABELS.
Proof.
  unfold _label, LABELS.
  repeat (destruct (Qlt_le_dec i _);
          [repeat (first [apply list_elem_of_here | apply list_elem_of_further]) |]).
  repeat (first [apply list_elem_of_here | apply list_elem_of_further]).
Qed.

Lemma calculate_label (self : LooshIndexCalculator) (agg : AggregatedResult) :
  items_analyzed agg <> 0%Z ->
  label (calculate self agg) = _label (index (calculate self agg))
  /\ components (calculate self agg) <> None.
Proof.
  intros Hn. unfold calculate.
  destruct (Z.eqb_spec (items_analyzed agg) 0) as [E | _]; [contradiction |].
  destruct (fold_left (emotion_step self) (emotions agg) _).
  split; [reflexivity | discriminate].
Qed.

Lemma get_scale_weights (k : Q) (d : Py.dict Q) (c : string) :
  Py.get (scale_weights k d) c 0 == k * Py.get d c 0.
Proof.
  unfold Py.get. induction d as [| [c' w] d IH]; cbn [scale_weights map Py.lookup].
  - ring.
  - destruct (String.eqb c' c); [reflexivity | exact IH].
Qed.

Lemma scaled_total (k : Q) (f f' : string * SourceBreakdown -> Q)
    (sb : Py.dict SourceBreakdown) :
  0 < k -> (forall kv, f' kv == k * f kv) ->
  Qsum (List.filter (fun w => if Qlt_le_dec 0 w then true else false)
          (map f' sb))
  == k * Qsum (List.filter (fun w => if Qlt_le_dec 0 w then true else false)
                 (map f sb)).
Proof.
  intros Hk Hf. induction sb as [| kv sb IH]; cbn [map List.filter].
  - unfold Qsum. cbn [fold_right]. ring.
  - pose proof (Hf kv) as E.
    destruct (Qlt_le_dec 0 (f' kv)) as [H' | H'];
      destruct (Qlt_le_dec 0 (f kv)) as [H | H].
    + unfold Qsum in *. cbn [fold_right]. rewrite IH, E. ring.
    + exfalso. rewrite E in H'. nra.
    + exfalso. rewrite E in H'. nra.
    + exact IH.
Qed.

Lemma scaled_weighted (k : Q) (w w' s : string * SourceBreakdown -> Q)
    (sb : Py.dict SourceBreakdown) :
  0 < k -> (forall kv, w' kv == k * w kv) ->
  Qsum (map (fun kv => if Qlt_le_dec 0 (w' kv) then s kv * w' kv else 0) sb)
  == k * Qsum (map (fun kv => if Qlt_le_dec 0 (w kv) then s kv * w kv else 0) sb).
Proof.
  intros Hk Hw. induction sb as [| kv sb IH]; unfold Qsum in *;
    cbn [map fold_right]; [ring |].
  rewrite IH. pose proof (Hw kv) as E.
  destruct (Qlt_le_dec 0 (w' kv)) as [H' | H'];
    destruct (Qlt_le_dec 0 (w kv)) as [H | H].
  - rewrite E. ring.
  - exfalso. rewrite E in H'. nra.
  - exfalso. rewrite E in H'. nra.
  - ring.
Qed.

Lemma final_signal_scaled (self : LooshIndexCalculator) (agg : AggregatedResult)
    (k : Q) :
  0 < k ->
  final_signal
    (with_source_weights self (scale_weights k (calc_source_weights self))) agg
  == final_signal self agg.
Proof.
  intros Hk. unfold final_signal.
  set (self' := with_source_weights self _).
  assert (Hcorpus : fold_left (src_signal_step self') (emotions agg) 0
                    = fold_left (src_signal_step self) (emotions agg) 0)
    by reflexivity.
  assert (Htruthy : Py.truthy (calc_source_weights self')
                    = Py.truthy (calc_source_weights self)).
  { unfold self'. cbn [calc_source_weights with_source_weights].
    now destruct (calc_source_weights self). }
  rewrite Htruthy, Hcorpus. cbv zeta.
  destruct (Py.truthy (source_breakdown agg) && Py.truthy (calc_source_weights self));
    [| reflexivity].
  pose proof (source_step_total self (source_breakdown agg) 0 0) as Ht.
  pose proof (source_step_weighted self (source_breakdown agg) 0 0) as Hw.
  pose proof (source_step_total self' (source_breakdown agg) 0 0) as Ht'.
  pose proof (source_step_weighted self' (source_breakdown agg) 0 0) as Hw'.
  assert (Eg : forall kv : string * SourceBreakdown,
            Py.get (calc_source_weights self') (fst kv) 0
            == k * Py.get (calc_source_weights self) (fst kv) 0).
  { intros kv. apply get_scale_weights. }
  rewrite (scaled_total k _ _ (source_breakdown agg) Hk Eg) in Ht'.
  cbv zeta in Hw, Hw'.
  change (emotion_polarity self') with (emotion_polarity self) in Hw'.
  rewrite (scaled_weighted k
             (fun kv => Py.get (calc_source_weights self) (fst kv) 0)
             (fun kv => Py.get (calc_source_weights self') (fst kv) 0)
             (fun kv => Qsum (map (fun ev => snd ev
                                     * Py.get (emotion_polarity self) (fst ev) 0)
                                (sb_emotions (snd kv))))
             (source_breakdown agg) Hk Eg) in Hw'.
  revert Ht Hw Ht' Hw'.
  generalize (Qsum (List.filter (fun w => if Qlt_le_dec 0 w then true else false)
                      (map (fun kv => Py.get (calc_source_weights self) (fst kv) 0)
                         (source_breakdown agg)))).
  generalize (Qsum (map (fun kv =>
                      if Qlt_le_dec 0 (Py.get (calc_source_weights self) (fst kv) 0)
                      then Qsum (map (fun ev => snd ev
                                     * Py.get (emotion_polarity self) (fst ev) 0)
                                (sb_emotions (snd kv)))
                           * Py.get (calc_source_weights self) (fst kv) 0
                      else 0) (source_breakdown agg))).
  generalize (fold_left (source_step self) (source_breakdown agg) (0, 0)).
  generalize (fold_left (source_step self') (source_breakdown agg) (0, 0)).
  intros [w' t'] [w t] W T Ht Hw Ht' Hw'. cbn [fst snd] in *.
  destruct (Qlt_le_dec 0 t') as [Hp' | Hp']; destruct (Qlt_le_dec 0 t) as [Hp | Hp].
  - rewrite Ht', Hw', Ht, Hw. rewrite Ht in Hp. field. lra.
  - exfalso. rewrite Ht' in Hp'. rewrite Ht in Hp. nra.
  - exfalso. rewrite Ht' in Hp'. rewrite Ht in Hp. nra.
  - reflexivity.
Qed.

Lemma set_fresh {V : Type} (d : Py.dict V) (k : string) (v : V) :
  k ∉ Py.keys d -> Py.set d k v = (d ++ [(k, v)])%list.
Proof.
  induction d as [| [k' v'] d IH]; intros Hk; [reflexivity |].
  cbn [Py.set app]. destruct (String.eqb_spec k' k) as [-> | NE].
  - exfalso. apply Hk. cbn [Py.keys map fst]. apply elem_of_cons. now left.
  - f_equal. apply IH. intros H. apply Hk. cbn [Py.keys map fst].
    apply elem_of_cons. now right.
Qed.

Lemma emotion_step_components (self : LooshIndexCalculator) (d : Py.dict Q) :
  forall (s : Q) (comps : Py.dict EmotionComponent),
    NoDup (Py.keys comps ++ Py.keys d) ->
    snd (fold_left (emotion_step self) d (s, comps))
    = (comps ++ map (spec_component self) d)%list.
Proof.
  induction d as [| [e v] d IH]; intros s comps Hnd; cbn [fold_left map].
  - now rewrite app_nil_r.
  - cbn [emotion_step]. rewrite IH.
    + rewrite set_fresh.
      * rewrite <- app_assoc. reflexivity.
      * cbn [Py.keys map fst] in Hnd. apply NoDup_app in Hnd as (_ & Hd & _).
        intros Hin. apply (Hd e Hin). apply elem_of_cons. now left.
    + cbn [Py.keys map fst] in Hnd.
      assert (He : e ∉ Py.keys comps).
      { apply NoDup_app in Hnd as (_ & Hd & _).
        intros Hin. apply (Hd e Hin). apply elem_of_cons. now left. }
      rewrite (set_fresh _ _ _ He). unfold Py.keys. rewrite map_app.
      cbn [map fst]. rewrite <- app_assoc. exact Hnd.
Qed.

End LooshIndexMoreLemmas.

Section LooshIndexMoreTheorems.
Import Emotion Aggregator LooshIndex Sums LooshIndexSpec LooshIndexMore.
Local Open Scope Q_scope.



(** X19. The labels follow the index: a higher index never gets a calmer
    label, every label is one of the eight bands, and for a non-empty
    aggregate the label returned is the band of the index returned. *)
Theorem label_monotone (self : LooshIndexCalculator) (agg : AggregatedResult)
    (i j : Q) :
  (i <= j -> (label_rank (_label i) <= label_rank (_label j))%nat)
  /\ _label i ∈ LABELS
  /\ (items_analyzed agg <> 0%Z ->
      label (calculate self agg) = _label (index (calculate self agg))).
Proof.
  split; [| split].
  - intros Hij. unfold _label.
    repeat (destruct (Qlt_le_dec i _); [| try lra]);
      repeat (destruct (Qlt_le_dec j _); try lra);
      vm_compute; lia.
  - apply label_in_LABELS.
  - intros Hn. now apply calculate_label.
Qed.


End LooshIndexMoreTheorems.

(** ** src/models: the transformer strategies and the choice of strategy *)

Section DeepLemmas.
Import PyStr Emotion Sentiment Transformers EmotionDeep DominantSpec Sums.
Local Open Scope Q_scope.

Lemma substring_twice (n : nat) (s : string) :
  substring 0 n (substring 0 n s) = substring 0 n s.
Proof.
  revert n. induction s as [| c s IH]; intros [| n]; cbn [substring];
    try reflexivity.
  now rewrite IH.
Qed.

(** [text[:512][:512]] is [text[:512]]. *)
Lemma slice_to_twice (s : string) :
  slice_to (slice_to s 512) 512 = slice_to s 512.
Proof. unfold slice_to. cbn [Z.leb]. apply substring_twice. Qed.

Lemma keys_set_existing {V : Type} (d : Py.dict V) (k : string) (v : V) :
  has_key d k = true -> Py.keys (Py.set d k v) = Py.keys d.
Proof.
  unfold has_key, Py.keys. induction d as [| [k' v'] d IH]; [discriminate |].
  cbn [Py.lookup Py.set]. destruct (String.eqb k' k); [reflexivity |].
  intros H. cbn [map fst]. now rewrite IH.
Qed.

(** A category that the model's labels stand for. *)
Lemma label_map_values (label m : string) :
  Py.get label_map label None = Some m ->
  m ∈ ["joy"; "anger"; "fear"; "sadness"; "surprise"; "disgust"].
Proof.
  unfold Py.get, label_map. cbn [Py.lookup].
  repeat (destruct (String.eqb _ label);
          [intros [= <-];
           repeat (first [apply list_elem_of_here | apply list_elem_of_further]) |]).
  discriminate.
Qed.

(** The loop over the model's answers keeps the 8 keys and leaves trust
    and anticipation at 0. *)
Lemma result_loop (results : list LabelScore) (d : Py.dict Q) :
  Py.keys d = EMOTION_CATEGORIES ->
  Py.get d "trust" 0 = 0 -> Py.get d "anticipation" 0 = 0 ->
  let d' := fold_left result_step results d in
  Py.keys d' = EMOTION_CATEGORIES
  /\ Py.get d' "trust" 0 = 0 /\ Py.get d' "anticipation" 0 = 0.
Proof.
  revert d. induction results as [| r results IH]; intros d Hk Ht Ha;
    cbn [fold_left]; [auto |].
  apply IH; unfold result_step; cbv zeta;
    destruct (Py.get label_map (ls_label r) None) as [m |] eqn:Em;
    try assumption;
    destruct (truthy m && has_key d m) eqn:Eb; try assumption;
    apply andb_prop in Eb as [_ Hin].
  - now rewrite keys_set_existing.
  - rewrite get_set. apply label_map_values in Em.
    repeat (apply elem_of_cons in Em as [-> | Em]; [exact Ht |]).
    inversion Em.
  - rewrite get_set. apply label_map_values in Em.
    repeat (apply elem_of_cons in Em as [-> | Em]; [exact Ha |]).
    inversion Em.
Qed.

Lemma keys_eight (d : Py.dict Q) :
  Py.keys d = EMOTION_CATEGORIES ->
  exists v1 v2 v3 v4 v5 v6 v7 v8,
    d = [ ("joy", v1); ("anger", v2); ("fear", v3); ("sadness", v4);
          ("surprise", v5); ("disgust", v6); ("trust", v7);
          ("anticipation", v8) ].
Proof.
  unfold Py.keys, EMOTION_CATEGORIES. intros H.
  do 8 (destruct d as [| [? ?] d]; [discriminate H |]).
  destruct d; [| discriminate H].
  cbn [map fst] in H. injection H as -> -> -> -> -> -> -> ->.
  repeat eexists.
Qed.

Lemma scores_of_results_shape (results : list LabelScore) :
  let scores := scores_of_results results in
  Py.keys scores = EMOTION_CATEGORIES
  /\ ((Py.get scores "trust" 0 == 0 /\ Py.get scores "anticipation" 0 == 0)
      \/ scores = map (fun k => (k, Py.round (1 / 8) 4)) EMOTION_CATEGORIES).
Proof.
  unfold scores_of_results. cbv zeta.
  destruct (result_loop results (map (fun e => (e, 0)) EMOTION_CATEGORIES)
              eq_refl eq_refl eq_refl) as (Hk & Ht & Ha).
  set (d := fold_left result_step results _) in *.
  destruct (Qlt_le_dec 0 (Py.sum (Py.values d))) as [Hpos | _].
  - split.
    + unfold Py.keys in *. rewrite map_map. rewrite <- Hk.
      apply map_ext. now intros [k v].
    + left. destruct (keys_eight d Hk) as (v1 & v2 & v3 & v4 & v5 & v6 & v7 & v8 & E).
      rewrite E in Ht, Ha. unfold Py.get in Ht, Ha.
      cbn [Py.lookup String.eqb Ascii.eqb Bool.eqb] in Ht, Ha. subst v7 v8.
      revert Hpos. generalize (Py.sum (Py.values d)). intros t Hpos.
      rewrite E. unfold Py.get.
      cbn [map Py.lookup String.eqb Ascii.eqb Bool.eqb].
      assert (E0 : 0 / t == 0) by (field; lra).
      split; rewrite (round_comp _ _ 4 E0); apply (round_int 0 4).
  - split; [reflexivity | now right].
Qed.

End DeepLemmas.

Section DeepTheorems.
Import PyStr Emotion Sentiment Transformers DominantSpec Sums.
Local Open Scope Q_scope.

(** X21. The transformer strategy for emotions: only the first 512
    characters of the text are looked at; an empty answer of the model is
    an IndexError; otherwise the result has the 8 categories as keys and
    its dominant label is always a category, the first argmax in category
    order. Trust and anticipation, for which the model has no label, score
    0, unless no recognised label has a positive score: then every
    category scores 0.125 and the dominant label is "joy" (where the
    lexicon strategy says "neutral"). *)
Theorem emotion_transformer_result
    (pipeline : string -> list (list LabelScore)) (text : string) :
  EmotionDeep._analyze_transformer pipeline (slice_to text 512)
  = EmotionDeep._analyze_transformer pipeline text
  /\ (pipeline (slice_to text 512) = [] ->
      EmotionDeep._analyze_transformer pipeline text = Py.Raise Py.IndexError)
  /\ (forall results rest,
        pipeline (slice_to text 512) = results :: rest ->
        exists r,
          EmotionDeep._analyze_transformer pipeline text = Py.Ok r
          /\ scores r = EmotionDeep.scores_of_results results
          /\ Py.keys (scores r) = EMOTION_CATEGORIES
          /\ Emotion.dominant_emotion r ∈ EMOTION_CATEGORIES
          /\ spec_dominant (scores r) (Emotion.dominant_emotion r)
          /\ ((Py.get (scores r) "trust" 0 == 0
               /\ Py.get (scores r) "anticipation" 0 == 0)
              \/ (scores r
                  = map (fun k => (k, Py.round (1 / 8) 4)) EMOTION_CATEGORIES
                  /\ Emotion.dominant_emotion r = "joy"))).
Proof.
  split; [| split].
  - unfold EmotionDeep._analyze_transformer. cbv zeta.
    now rewrite slice_to_twice.
  - intros E. unfold EmotionDeep._analyze_transformer. cbv zeta.
    now rewrite E.
  - intros results rest E.
    unfold EmotionDeep._analyze_transformer. cbv zeta. rewrite E.
    unfold Aggregator.index. cbn [nth_error]. rewrite bind_Ok.
    destruct (scores_of_results_shape results) as (Hk & Hshape).
    destruct (max_key_nonempty (EmotionDeep.scores_of_results results))
      as [dom Hdom].
    { intros E0. rewrite E0 in Hk. discriminate Hk. }
    rewrite Hdom, bind_Ok. eexists. split; [reflexivity |].
    cbn [scores Emotion.dominant_emotion].
    pose proof (max_key_first_argmax _ _ Hdom) as Harg.
    split; [reflexivity | split; [exact Hk | split; [| split]]].
    + rewrite <- Hk. now apply first_argmax_key.
    + now apply first_argmax_dominant.
    + destruct Hshape as [H0 | Hu]; [now left | right].
      split; [exact Hu |]. rewrite Hu in Hdom.
      vm_compute in Hdom. now injection Hdom as <-.
Qed.


(** X23. The choice of strategy. An emotion analyzer asked for the deep
    mode without the [transformers] package analyses like the lightweight
    one; asked for any other unknown mode it has no pipeline, so [analyze]
    fails on every text. A sentiment analyzer asked for anything but the
    lightweight mode uses the transformer, and VADER when [transformers]
    is missing; it cannot be built without VADER unless the transformer is
    used. *)
Theorem analyzer_strategy
    (vader : option (string -> Q * Q * Q * Q))
    (emotion_pipeline : option (string -> list (list LabelScore)))
    (sentiment_pipeline : option (string -> list LabelScore))
    (mode text : string) :
  EmotionDeep.analyze (EmotionDeep.__init__ "lightweight" emotion_pipeline) text
  = Returned (_analyze_lexicon text)
  /\ EmotionDeep.analyze (EmotionDeep.__init__ "deep" None) text
     = Returned (_analyze_lexicon text)
  /\ (forall p, EmotionDeep.analyze (EmotionDeep.__init__ "deep" (Some p)) text
                = Returned (EmotionDeep._analyze_transformer p text))
  /\ (mode <> "lightweight" -> mode <> "deep" ->
      EmotionDeep.analyze (EmotionDeep.__init__ mode emotion_pipeline) text
      = NoneUsed)
  /\ (mode <> "lightweight" ->
      forall p v,
        (exists a, SentimentDeep.__init__ mode vader (Some p) = Some a
                   /\ SentimentDeep.analyze a text
                      = Returned (SentimentDeep._analyze_transformer p text))
        /\ (exists a, SentimentDeep.__init__ mode (Some v) None = Some a
                      /\ SentimentDeep.analyze a text
                         = Returned (Py.Ok (_analyze_vader v text))))
  /\ (SentimentDeep.__init__ mode None sentiment_pipeline = None
      <-> mode = "lightweight" \/ sentiment_pipeline = None).
Proof.
  split; [reflexivity | split; [reflexivity | split; [reflexivity |]]].
  split; [| split].
  - intros H1 H2. unfold EmotionDeep.__init__, EmotionDeep.analyze.
    apply String.eqb_neq in H1, H2. rewrite H2.
    cbn [EmotionDeep.mode EmotionDeep.pipeline_attr]. now rewrite H1.
  - intros H1 p v. apply String.eqb_neq in H1.
    unfold SentimentDeep.__init__, SentimentDeep._init_vader. rewrite H1.
    split; eexists; (split; [reflexivity |]); unfold SentimentDeep.analyze;
      cbn [SentimentDeep.mode SentimentDeep.pipeline_attr SentimentDeep._vader].
    + now rewrite H1.
    + reflexivity.
  - unfold SentimentDeep.__init__, SentimentDeep._init_vader.
    destruct (String.eqb_spec mode "lightweight") as [-> | NE].
    + split; [now left | reflexivity].
    + destruct sentiment_pipeline; split; try discriminate; try tauto.
      intros [E | E]; [contradiction | discriminate].
Qed.

End DeepTheorems.

(** ** src/models/emotion.py: the lexicon strategy as a bag of words *)

Section LexiconMore.
Import PyStr Emotion Sums EmotionSpec.
Local Open Scope Q_scope.

Lemma nsum_Permutation (xs ys : list nat) :
  Permutation xs ys -> nsum xs = nsum ys.
Proof.
  unfold nsum. induction 1; cbn [fold_right]; lia.
Qed.

Lemma hit_count_Permutation (c : string) (ws ws' : list string) :
  Permutation ws ws' -> spec_hit_count c ws = spec_hit_count c ws'.
Proof.
  intros H. unfold spec_hit_count. apply nsum_Permutation.
  now apply Permutation_map.
Qed.

Lemma total_hits_Permutation (ws ws' : list string) :
  Permutation ws ws' -> spec_total_hits ws = spec_total_hits ws'.
Proof.
  intros H. unfold spec_total_hits. f_equal.
  apply map_ext. intros c. now apply hit_count_Permutation.
Qed.

Lemma lower_char_twice (c : ascii) : lower_char (lower_char c) = lower_char c.
Proof.
  destruct c as [[] [] [] [] [] [] [] []]; vm_compute; reflexivity.
Qed.

Lemma lower_twice (s : string) : lower (lower s) = lower s.
Proof.
  unfold lower. rewrite chars_str, map_map. f_equal.
  apply map_ext. intros c. apply lower_char_twice.
Qed.

Lemma nsum_elem_le {A : Type} (f : A -> nat) (l : list A) (x : A) :
  x ∈ l -> (f x <= nsum (map f l))%nat.
Proof.
  unfold nsum. induction l as [| y l IH]; intros H; [inversion H |].
  cbn [map fold_right]. apply elem_of_cons in H as [-> | H]; [lia |].
  specialize (IH H). lia.
Qed.

Lemma Qsum_inject_nsum {A : Type} (f : A -> nat) (l : list A) :
  Qsum (map (fun x => inject_Z (Z.of_nat (f x))) l)
  == inject_Z (Z.of_nat (nsum (map f l))).
Proof.
  unfold Qsum, nsum. induction l as [| y l IH]; cbn [map fold_right];
    [reflexivity |].
  rewrite IH, Nat2Z.inj_add, inject_Z_plus. reflexivity.
Qed.

(** Two texts with the same words, in any order, are analysed alike. *)
Lemma analyze_lexicon_words (text text' : string) :
  Permutation (_WORD_RE_findall (lower text)) (_WORD_RE_findall (lower text')) ->
  _analyze_lexicon text = _analyze_lexicon text'.
Proof.
  intros Hp.
  destruct (analyze_lexicon_result text) as (r & -> & Hs & H0 & H1).
  destruct (analyze_lexicon_result text') as (r' & -> & Hs' & H0' & H1').
  cbv zeta in *.
  rewrite <- (total_hits_Permutation _ _ Hp) in Hs', H0', H1'.
  assert (E : scores r' = scores r).
  { rewrite Hs, Hs'. apply map_ext. intros c.
    now rewrite (hit_count_Permutation c _ _ Hp). }
  clear Hs Hs'. f_equal. destruct r as [sc dom], r' as [sc' dom'].
  cbn [scores dominant_emotion] in *. subst sc'. f_equal.
  destruct (Nat.eq_dec (spec_total_hits (_WORD_RE_findall (lower text))) 0%nat)
    as [Ez | Enz].
  - now rewrite (H0 Ez), (H0' Ez).
  - specialize (H1 ltac:(lia)). specialize (H1' ltac:(lia)). congruence.
Qed.

(** X24. The lexicon strategy reads a text as a bag of lower-case words:
    two texts whose words (after lower-casing) are the same up to order
    get the same result; in particular letter case does not matter. *)
Theorem analyze_lexicon_bag_of_words (text text' : string) :
  (Permutation (_WORD_RE_findall (lower text)) (_WORD_RE_findall (lower text')) ->
   _analyze_lexicon text = _analyze_lexicon text')
  /\ _analyze_lexicon (lower text) = _analyze_lexicon text.
Proof.
  split; [apply analyze_lexicon_words |].
  apply analyze_lexicon_words. now rewrite lower_twice.
Qed.

(** X25. The lexicon strategy never raises, and what it returns is a
    distribution up to rounding: every score lies in [0, 1] and the 8
    scores add up to 1 within 0.0004. *)
Theorem analyze_lexicon_scores_range (text : string) :
  exists r,
    _analyze_lexicon text = Py.Ok r
    /\ Py.keys (scores r) = EMOTION_CATEGORIES
    /\ Forall (fun kv => 0 <= snd kv /\ snd kv <= 1) (scores r)
    /\ 1 - (4 # 10000) <= Qsum (Py.values (scores r))
    /\ Qsum (Py.values (scores r)) <= 1 + (4 # 10000).
Proof.
  destruct (analyze_lexicon_result text) as (r & Hr & Hs & _).
  cbv zeta in Hs. exists r. split; [exact Hr |].
  set (words := _WORD_RE_findall (lower text)) in *.
  set (T := spec_total_hits words) in *.
  rewrite Hs. split.
  { unfold Py.keys. rewrite map_map. apply map_id. }
  destruct (Nat.ltb_spec 0 T) as [Hpos | Hzero].
  - assert (HT : 0 < inject_Z (Z.of_nat T)).
    { change 0 with (inject_Z 0). rewrite <- Zlt_Qlt. lia. }
    split.
    + apply Forall_forall. intros [c v] Hin.
      apply list_elem_of_fmap in Hin as (c' & [= -> ->] & Hc). cbn [snd].
      assert (Hle : (spec_hit_count c' words <= T)%nat).
      { unfold T, spec_total_hits.
        apply (nsum_elem_le (fun c => spec_hit_count c words)). exact Hc. }
      destruct (ratio_properties _ _ Hpos Hle) as (H0 & H1 & _).
      now apply round_unit_range.
    + unfold Py.values. rewrite map_map. cbn [snd].
      change (map (fun x => Py.round (inject_Z (Z.of_nat (spec_hit_count x words))
                                      / inject_Z (Z.of_nat T)) 4)
                EMOTION_CATEGORIES)
        with (map (fun c => (fun v => Py.round (v / inject_Z (Z.of_nat T)) 4)
                              ((fun c => inject_Z (Z.of_nat (spec_hit_count c words))) c))
                EMOTION_CATEGORIES).
      rewrite <- (map_map (fun c => inject_Z (Z.of_nat (spec_hit_count c words)))
                    (fun v => Py.round (v / inject_Z (Z.of_nat T)) 4)).
      set (vs := map (fun c => inject_Z (Z.of_nat (spec_hit_count c words)))
                   EMOTION_CATEGORIES).
      assert (Hsum : Qsum vs == inject_Z (Z.of_nat T)).
      { unfold vs, T, spec_total_hits. apply Qsum_inject_nsum. }
      assert (Hlen : length vs = 8%nat) by reflexivity.
      pose proof (normalized_sum_near_one vs Hlen) as Hn.
      rewrite Hsum in Hn. specialize (Hn HT).
      rewrite (Qsum_ext (fun v => Py.round (v / inject_Z (Z.of_nat T)) 4)
                 (fun v => Py.round (v / Qsum vs) 4))
        by (intros v _; apply round_comp; now rewrite Hsum).
      exact Hn.
  - split.
    + apply Forall_forall. intros [c v] Hin.
      apply list_elem_of_fmap in Hin as (c' & [= -> ->] & Hc). cbn [snd].
      apply round_unit_range; vm_compute; discriminate.
    + vm_compute. split; discriminate.
Qed.

End LexiconMore.

(** ** src/main.py: from processed items to the index *)

Section AnalysisChain.
Import Base BaseText PyStr Sentiment Emotion Aggregator LooshIndex Pipeline.
Import LooshIndexSpec LooshIndexMore.
Local Open Scope list_scope.

Variable html_unescape : string -> string.
Variable polarity_scores : string -> Q * Q * Q * Q.

Lemma mapM_length {A B : Type} (f : A -> Py.result B) (l : list A)
    (ys : list B) :
  Py.mapM f l = Py.Ok ys -> length ys = length l.
Proof.
  revert ys. induction l as [| x l IH]; intros ys; cbn [Py.mapM].
  - now intros [= <-].
  - destruct (f x) as [y |]; cbn [Py.bind]; [| discriminate].
    destruct (Py.mapM f l) as [ys' |]; cbn [Py.bind]; [| discriminate].
    intros [= <-]. cbn [length]. now rewrite (IH ys' eq_refl).
Qed.

(** The lexicon strategy analyses every batch, text by text. *)
Lemma emotion_batch_ok (texts : list string) :
  exists es, Emotion.analyze_batch texts = Py.Ok es
             /\ length es = length texts.
Proof.
  unfold Emotion.analyze_batch.
  destruct (mapM_ok _analyze_lexicon texts) as [es Hes].
  { apply Forall_forall. intros t _.
    destruct (analyze_lexicon_result t) as (r & Hr & _). now exists r. }
  exists es. split; [exact Hes | now apply mapM_length in Hes].
Qed.

(** X26. Steps 3 to 5 of [run] in the lightweight mode, on the items that
    [process] returns: when some item is left (otherwise [run] exits), the
    batch analyses return one result per item, [aggregate] does not raise
    and counts exactly these items, and [calculate] returns one of the
    eight labels (never "No Data") with its components; the index lies
    within the scale whenever scale_min <= scale_max. *)
Theorem analysis_chain (pipeline : ProcessingPipeline)
    (aggregator : Aggregator) (calculator : LooshIndexCalculator)
    (all_items : list CollectedItem) :
  let processed_items := fst (process html_unescape pipeline all_items) in
  let texts := map combined_text processed_items in
  let sentiments := Sentiment.analyze_batch polarity_scores texts in
  processed_items <> [] ->
  exists emotions aggregated,
    Emotion.analyze_batch texts = Py.Ok emotions
    /\ length sentiments = length processed_items
    /\ length emotions = length processed_items
    /\ aggregate aggregator processed_items sentiments emotions
       = Py.Ok aggregated
    /\ items_analyzed aggregated = Z.of_nat (length processed_items)
    /\ label (calculate calculator aggregated) ∈ LABELS
    /\ components (calculate calculator aggregated) <> None
    /\ ((scale_min calculator <= scale_max calculator)%Q ->
        (scale_min calculator <= index (calculate calculator aggregated))%Q
        /\ (index (calculate calculator aggregated) <= scale_max calculator)%Q).
Proof.
  intros processed_items texts sentiments Hne.
  destruct (emotion_batch_ok texts) as (emotions & Hes & Hle).
  assert (Hls : length sentiments = length processed_items).
  { unfold sentiments, Sentiment.analyze_batch, texts. now rewrite !length_map. }
  assert (Hle' : length emotions = length processed_items).
  { rewrite Hle. unfold texts. now rewrite length_map. }
  destruct (aggregate_ok aggregator processed_items sentiments emotions
              Hne Hls Hle') as (aggregated & Hagg & Hn & _).
  exists emotions, aggregated.
  assert (Hnz : items_analyzed aggregated <> 0%Z).
  { rewrite Hn. destruct processed_items; [congruence | cbn [length]; lia]. }
  destruct (calculate_label calculator aggregated Hnz) as [Hlabel Hcomp].
  split; [exact Hes | split; [exact Hls | split; [exact Hle' |]]].
  split; [exact Hagg | split; [exact Hn | split; [| split; [exact Hcomp |]]]].
  - rewrite Hlabel. apply label_in_LABELS.
  - intros Hscale. rewrite (calculate_index calculator aggregated Hnz).
    unfold spec_clamp. now apply clamp_in_range.
Qed.

End AnalysisChain.

(** ** src/models/topics.py *)

Section TopicTokens.
Import PyStr Topics TopicsSpec.
Local Open Scope list_scope.

Lemma last_letter_cons (c d : ascii) (l : list ascii) :
  last_letter (c :: d :: l) = last_letter (d :: l).
Proof.
  unfold last_letter. cbn [rev].
  destruct (rev l) as [| e m]; reflexivity.
Qed.

(** Where a match ends: a non-empty prefix of token characters with a
    letter at its end. *)
Lemma best_end_shape (l : list ascii) (k : nat) :
  best_end l = Some k ->
  1 <= k /\ k <= length l
  /\ forallb is_token_char (firstn k l) = true
  /\ last_letter (firstn k l) = true.
Proof.
  revert k. induction l as [| c l IH]; intros k; cbn [best_end];
    [discriminate |].
  destruct (is_token_char c) eqn:Ec; [| discriminate].
  destruct (best_end l) as [k' |].
  - intros [= <-]. destruct (IH k' eq_refl) as (H1 & H2 & H3 & H4).
    cbn [length firstn forallb]. rewrite Ec, H3.
    split; [lia | split; [lia | split; [reflexivity |]]].
    destruct k' as [| k'']; [lia |]. destruct l as [| d l]; [cbn in H2; lia |].
    cbn [firstn] in *. now rewrite last_letter_cons.
  - destruct (is_az c && boundary_after l) eqn:Eb; [| discriminate].
    intros [= <-]. apply andb_prop in Eb as [Haz _].
    cbn [length firstn forallb]. rewrite Ec.
    split; [lia | split; [lia | split; [reflexivity |]]].
    unfold last_letter. cbn [rev app]. exact Haz.
Qed.

Lemma findall_tokens_shape (l : list ascii) :
  forall prev_word skip,
    Forall (fun w => is_token w = true) (findall_tokens prev_word skip l).
Proof.
  induction l as [| c l IH]; intros prev_word skip; cbn [findall_tokens];
    [constructor |].
  destruct skip as [| k]; [| apply IH].
  destruct (negb prev_word && is_az c) eqn:Estart; [| apply IH].
  destruct (best_end (c :: l)) as [k |] eqn:Ek; [| apply IH].
  constructor; [| apply IH].
  apply andb_prop in Estart as [_ Haz].
  destruct (best_end_shape _ _ Ek) as (H1 & _ & H3 & H4).
  unfold is_token. rewrite chars_str.
  destruct k as [| k']; [lia |]. cbn [firstn] in *.
  rewrite Haz, H3. exact H4.
Qed.

(** X27. Every token that [_tokenize] returns consists of the letters a to
    z, apostrophes and hyphens with a letter at both ends, is not a stop
    word and has at least [min_word_length] characters; letter case plays
    no role. *)
Theorem tokenize_tokens (self : TopicExtractor) (text : string) :
  Forall (fun w => is_token w = true
                   /\ (w ∉ _STOP_WORDS)
                   /\ (min_word_length self <= len w)%Z)
    (_tokenize self text)
  /\ _tokenize self (lower text) = _tokenize self text.
Proof.
  split.
  - unfold _tokenize. cbv zeta. apply Forall_forall. intros w Hw.
    apply list_elem_of_In, filter_In in Hw as [Hin Hkeep].
    apply andb_prop in Hkeep as [Hstop Hlen].
    split; [| split].
    + pose proof (findall_tokens_shape (chars (lower text)) false 0) as Hall.
      rewrite Forall_forall in Hall. apply Hall. now apply list_elem_of_In.
    + apply negb_true_iff, bool_decide_eq_false in Hstop. exact Hstop.
    + now apply Z.leb_le.
  - unfold _tokenize. now rewrite lower_twice.
Qed.

End TopicTokens.

Section TopicCounts.
Import PyStr Topics TopicsSpec EmotionSpec.
Local Open Scope nat_scope.
Local Open Scope list_scope.

Lemma elem_of_keys_lookup {V : Type} (d : Py.dict V) (k : string) :
  k ∈ Py.keys d <-> exists v, Py.lookup d k = Some v.
Proof.
  unfold Py.keys. induction d as [| [k' v'] d IH]; cbn [map fst Py.lookup].
  - split; [intros H; inversion H | intros [v H]; discriminate].
  - rewrite elem_of_cons, IH.
    destruct (String.eqb_spec k' k) as [-> | NE].
    + split; [eauto | auto].
    + split; [intros [E | H]; [congruence | exact H] | auto].
Qed.

Lemma keys_set {V : Type} (d : Py.dict V) (k : string) (v : V) :
  Py.keys (Py.set d k v)
  = if bool_decide (k ∈ Py.keys d) then Py.keys d else Py.keys d ++ [k].
Proof.
  destruct (decide (k ∈ Py.keys d)) as [Hin | Hout].
  - rewrite bool_decide_eq_true_2 by exact Hin.
    apply keys_set_existing. unfold EmotionDeep.has_key.
    apply elem_of_keys_lookup in Hin as [v' ->]. reflexivity.
  - rewrite bool_decide_eq_false_2 by exact Hout.
    rewrite (set_fresh d k v Hout). unfold Py.keys. now rewrite map_app.
Qed.

Lemma occ_cons (w x : string) (xs : list string) :
  occ w (x :: xs) = (if String.eqb w x then 1 else 0) + occ w xs.
Proof. unfold occ. cbn [List.filter]. now destruct (String.eqb w x). Qed.

(** Counting the elements of a list adds their numbers of occurrences. *)
Lemma update_spec (xs : list string) :
  forall c : Counter,
    NoDup (Py.keys c) ->
    NoDup (Py.keys (update c xs))
    /\ (forall w, Py.get (update c xs) w 0 = Py.get c w 0 + occ w xs)
    /\ (forall w, w ∈ Py.keys (update c xs) <-> w ∈ Py.keys c \/ w ∈ xs).
Proof.
  unfold update. induction xs as [| x xs IH]; intros c Hnd; cbn [fold_left].
  - split; [exact Hnd | split].
    + intros w. unfold occ. cbn [List.filter length]. lia.
    + intros w. rewrite elem_of_nil. tauto.
  - assert (Hnd' : NoDup (Py.keys (count_one c x))).
    { unfold count_one. rewrite keys_set.
      destruct (decide (x ∈ Py.keys c)) as [Hin | Hout].
      - now rewrite bool_decide_eq_true_2.
      - rewrite bool_decide_eq_false_2 by exact Hout.
        apply NoDup_app. split; [exact Hnd | split; [| apply NoDup_singleton]].
        intros y Hy Hx. apply list_elem_of_singleton in Hx as ->. contradiction. }
    destruct (IH (count_one c x) Hnd') as (H1 & H2 & H3).
    split; [exact H1 | split].
    + intros w. rewrite H2, occ_cons. unfold count_one. rewrite get_set.
      rewrite (String.eqb_sym w x).
      destruct (String.eqb_spec x w) as [-> | NE]; lia.
    + intros w. rewrite H3. unfold count_one. rewrite keys_set.
      destruct (decide (x ∈ Py.keys c)) as [Hin | Hout].
      * rewrite bool_decide_eq_true_2 by exact Hin. rewrite elem_of_cons.
        split; [tauto | intros [H | [-> | H]]; auto].
      * rewrite bool_decide_eq_false_2 by exact Hout.
        rewrite elem_of_app, list_elem_of_singleton, elem_of_cons. tauto.
Qed.

Lemma insert_desc_Permutation (kv : string * nat) (l : list (string * nat)) :
  Permutation (insert_desc kv l) (kv :: l).
Proof.
  induction l as [| x l IH]; cbn [insert_desc]; [reflexivity |].
  destruct (snd x <=? snd kv); [reflexivity |].
  rewrite IH. apply perm_swap.
Qed.

Lemma sorted_desc_Permutation (c : Counter) : Permutation (sorted_desc c) c.
Proof.
  unfold sorted_desc. induction c as [| kv c IH]; cbn [fold_right];
    [reflexivity |].
  rewrite insert_desc_Permutation. now constructor.
Qed.

Lemma is_desc_cons (a : string * nat) (l : list (string * nat)) :
  is_desc (a :: l) = true
  <-> is_desc l = true /\ forall b, b ∈ l -> snd b <= snd a.
Proof.
  revert a. induction l as [| b l IH]; intros a.
  - cbn [is_desc]. split; [| reflexivity].
    intros _. split; [reflexivity | intros b Hb; inversion Hb].
  - change (is_desc (a :: b :: l))
      with ((snd b <=? snd a) && is_desc (b :: l)).
    rewrite andb_true_iff, Nat.leb_le. split.
    + intros [Hba Hrest]. split; [exact Hrest |].
      intros x Hx. apply elem_of_cons in Hx as [-> | Hx]; [exact Hba |].
      apply IH in Hrest as [_ Hall]. specialize (Hall x Hx). lia.
    + intros [Hrest Hall]. split; [| exact Hrest].
      apply Hall, elem_of_cons. now left.
Qed.

Lemma insert_desc_sorted (kv : string * nat) (l : list (string * nat)) :
  is_desc l = true -> is_desc (insert_desc kv l) = true.
Proof.
  induction l as [| x l IH]; intros Hl; cbn [insert_desc]; [reflexivity |].
  destruct (Nat.leb_spec (snd x) (snd kv)) as [Hle | Hgt].
  - apply is_desc_cons. split; [exact Hl |].
    intros b Hb. apply elem_of_cons in Hb as [-> | Hb]; [exact Hle |].
    apply is_desc_cons in Hl as [_ Hall]. specialize (Hall b Hb). lia.
  - apply is_desc_cons in Hl as [Hl Hall]. apply is_desc_cons.
    split; [now apply IH |].
    intros b Hb. rewrite insert_desc_Permutation in Hb.
    apply elem_of_cons in Hb as [-> | Hb]; [lia | now apply Hall].
Qed.

Lemma sorted_desc_sorted (c : Counter) : is_desc (sorted_desc c) = true.
Proof.
  unfold sorted_desc. induction c as [| kv c IH]; cbn [fold_right];
    [reflexivity | now apply insert_desc_sorted].
Qed.

Lemma is_desc_app (l1 l2 : list (string * nat)) :
  is_desc (l1 ++ l2) = true ->
  is_desc l1 = true
  /\ forall a b, a ∈ l1 -> b ∈ l2 -> snd b <= snd a.
Proof.
  induction l1 as [| x l1 IH]; intros H.
  - split; [reflexivity | intros a b Ha; inversion Ha].
  - cbn [app] in H. apply is_desc_cons in H as [Hrest Hall].
    destruct (IH Hrest) as [H1 H2]. split.
    + apply is_desc_cons. split; [exact H1 |].
      intros b Hb. apply Hall, elem_of_app. now left.
    + intros a b Ha Hb. apply elem_of_cons in Ha as [-> | Ha].
      * apply Hall, elem_of_app. now right.
      * now apply H2.
Qed.

(** What [most_common] returns for the counter of a list. *)
Lemma most_common_top (xs : list string) (n : Z) :
  is_top n xs (most_common (update [] xs) n).
Proof.
  destruct (update_spec xs [] (NoDup_nil_2)) as (Hnd & Hget & Hkeys).
  set (c := update [] xs) in *.
  pose proof (sorted_desc_Permutation c) as Hperm.
  pose proof (sorted_desc_sorted c) as Hsorted.
  unfold most_common. set (s := sorted_desc c) in *.
  set (m := Z.to_nat n).
  assert (Hsplit : s = firstn m s ++ skipn m s)
    by (symmetry; apply firstn_skipn).
  assert (Hnds : NoDup (map fst s)).
  { unfold Py.keys in Hnd. now rewrite Hperm. }
  assert (Hentry : forall w k, (w, k) ∈ s -> k = occ w xs /\ 1 <= k).
  { intros w k Hin. rewrite Hperm in Hin.
    pose proof (elem_of_lookup_NoDup c w k Hnd Hin) as Hl.
    assert (Hk : k = occ w xs).
    { specialize (Hget w). unfold Py.get in Hget. rewrite Hl in Hget.
      cbn [Py.lookup] in Hget. lia. }
    split; [exact Hk |].
    assert (Hw : w ∈ xs).
    { assert (Hwk : w ∈ Py.keys c).
      { apply elem_of_keys_lookup. eauto. }
      apply Hkeys in Hwk as [Hwk | Hwk]; [inversion Hwk | exact Hwk]. }
    destruct (Nat.eq_dec (occ w xs) 0) as [E | NE]; [| lia].
    apply occ_zero in E. contradiction. }
  unfold is_top. split; [| split; [| split; [| split]]].
  - rewrite length_firstn. unfold m. lia.
  - rewrite Hsplit, map_app in Hnds. now apply NoDup_app in Hnds as [H _].
  - intros w k Hin. apply Hentry. rewrite Hsplit. apply elem_of_app. now left.
  - rewrite Hsplit in Hsorted. now apply is_desc_app in Hsorted as [H _].
  - intros w Hw Hout.
    assert (Hin : (w, occ w xs) ∈ s).
    { rewrite Hperm.
      assert (Hwk : w ∈ Py.keys c) by (apply Hkeys; now right).
      apply elem_of_keys_lookup in Hwk as [k Hl].
      pose proof (lookup_elem_of c w k Hl) as Hc.
      assert (Hc' : (w, k) ∈ s) by now rewrite Hperm.
      now destruct (Hentry w k Hc') as [<- _]. }
    rewrite Hsplit in Hin. apply elem_of_app in Hin as [Hin | Hin].
    { exfalso. apply Hout. apply list_elem_of_fmap.
      now exists (w, occ w xs). }
    split.
    + rewrite length_firstn. apply Nat.min_l.
      destruct (Nat.le_gt_cases m (length s)) as [H | H]; [exact H |].
      rewrite skipn_all2 in Hin by lia. inversion Hin.
    + intros kv Hkv. rewrite Hsplit in Hsorted.
      apply is_desc_app in Hsorted as [_ Hall].
      exact (Hall kv (w, occ w xs) Hkv Hin).
Qed.

Lemma update_app (c : Counter) (xs ys : list string) :
  update c (xs ++ ys) = update (update c xs) ys.
Proof. unfold update. apply fold_left_app. Qed.

(** The loop of [extract] counts all tokens and all n-grams of the batch. *)
Lemma extract_loop (self : TopicExtractor) (texts : list string) :
  forall u b t : Counter,
    fold_left (extract_step self) texts (u, b, t)
    = (update u (all_tokens self texts),
       update b (all_ngrams self 2 texts),
       update t (all_ngrams self 3 texts)).
Proof.
  induction texts as [| text texts IH]; intros u b t; cbn [fold_left];
    [reflexivity |].
  cbn [extract_step]. rewrite IH.
  unfold all_tokens, all_ngrams. cbn [flat_map].
  now rewrite !update_app.
Qed.

Lemma extract_spec (self : TopicExtractor) (texts : list string) :
  extract self texts
  = {| top_unigrams :=
         most_common (update [] (all_tokens self texts)) (top_n self);
       top_bigrams :=
         most_common (update [] (all_ngrams self 2 texts)) (top_n self);
       top_trigrams :=
         most_common (update [] (all_ngrams self 3 texts)) (top_n self) |}.
Proof. unfold extract. now rewrite extract_loop. Qed.

(** X28. [extract] returns the most frequent tokens, bigrams and trigrams
    of the batch with their true numbers of occurrences (n-grams never
    span two texts): at most [top_n] entries each, distinct, by decreasing
    count; whatever is left out occurs no more often than any listed
    entry, and only when the list is full. *)
Theorem extract_top (self : TopicExtractor) (texts : list string) :
  let r := extract self texts in
  is_top (top_n self) (all_tokens self texts) (top_unigrams r)
  /\ is_top (top_n self) (all_ngrams self 2 texts) (top_bigrams r)
  /\ is_top (top_n self) (all_ngrams self 3 texts) (top_trigrams r).
Proof.
  cbv zeta. rewrite extract_spec.
  cbn [top_unigrams top_bigrams top_trigrams].
  split; [| split]; apply most_common_top.
Qed.

(** X29. Edge cases of topic extraction: a text with fewer than [n] tokens
    has no [n]-gram and one with [k >= n] tokens has [k - n + 1]; the
    1-grams are the tokens; without texts, or with [top_n <= 0], all three
    lists are empty. *)
Theorem extract_edge_cases (self : TopicExtractor) (texts : list string)
    (tokens : list string) (n : nat) :
  length (_get_ngrams tokens n) = length tokens + 1 - n
  /\ _get_ngrams tokens 1 = tokens
  /\ extract self [] = {| top_unigrams := []; top_bigrams := [];
                          top_trigrams := [] |}
  /\ ((top_n self <= 0)%Z ->
      extract self texts = {| top_unigrams := []; top_bigrams := [];
                              top_trigrams := [] |}).
Proof.
  split; [| split; [| split]].
  - unfold _get_ngrams. now rewrite length_map, length_seq.
  - unfold _get_ngrams. replace (length tokens + 1 - 1) with (length tokens) by lia.
    induction tokens as [| w tokens IH]; [reflexivity |].
    cbn [length seq map skipn firstn join]. f_equal.
    rewrite <- seq_shift, map_map. exact IH.
  - rewrite extract_spec. unfold most_common, all_tokens, all_ngrams.
    cbn [flat_map update fold_left sorted_desc fold_right].
    now rewrite firstn_nil.
  - intros Hn. rewrite extract_spec. unfold most_common.
    replace (Z.to_nat (top_n self)) with 0 by lia. reflexivity.
Qed.

End TopicCounts.

(** ** Instances of the conditional statements above *)

Section MoreWitnesses.
Import Base BaseText PyStr TextForm Cleaner Dedup DedupSpec DedupLoop.
Import Sentiment Emotion Aggregator LooshIndex LooshIndexSpec LooshIndexMore.
Import BreakdownSpec Fixtures FixturesMore.

Lemma deduplicate_nonpositive_threshold_witness :
  (similarity_threshold dedup_zero <= 0)%Q
  /\ fst (deduplicate dedup_zero headlines)
     = firstn 1 (List.filter (is_candidate (_seen_hashes dedup_zero)) headlines).
Proof.
  assert (H : (similarity_threshold dedup_zero <= 0)%Q) by apply Qle_refl.
  split; [exact H |].
  exact (deduplicate_nonpositive_threshold dedup_zero headlines H).
Defined.

Lemma deduplicate_threshold_above_one_witness :
  (1 < similarity_threshold dedup_two)%Q
  /\ fst (deduplicate dedup_two headlines)
     = keep_exact (_seen_hashes dedup_two) headlines.
Proof.
  assert (H : (1 < similarity_threshold dedup_two)%Q) by reflexivity.
  split; [exact H |].
  exact (deduplicate_threshold_above_one dedup_two headlines H).
Defined.

Lemma clean_output_form_witness :
  clean html_unescape_plain cleaner_default markup = Some "Hello world, see now!"
  /\ is_clean_form "Hello world, see now!" = true.
Proof.
  assert (H : clean html_unescape_plain cleaner_default markup
              = Some "Hello world, see now!") by (vm_compute; reflexivity).
  split; [exact H |].
  exact (proj1 (clean_output_form html_unescape_plain cleaner_default markup
                  "Hello world, see now!" H)).
Defined.

Lemma clean_output_url_free_witness :
  clean html_unescape_plain cleaner_default markup = Some "Hello world, see now!"
  /\ url_free (chars "Hello world, see now!") = true.
Proof.
  assert (H : clean html_unescape_plain cleaner_default markup
              = Some "Hello world, see now!") by (vm_compute; reflexivity).
  split; [exact H |].
  exact (proj2 (clean_output_url_free html_unescape_plain cleaner_default markup)
           "Hello world, see now!" H).
Defined.

Lemma clean_idempotent_witness :
  (forall t, Forall (fun c => c <> "&"%char) (chars t) ->
             html_unescape_plain t = t)
  /\ (0 <= max_length cleaner_default)%Z
  /\ clean html_unescape_plain cleaner_default markup
     = Some "Hello world, see now!"
  /\ "Hello world, see now!" <> ""
  /\ no_trail_space (chars "Hello world, see now!") = true
  /\ clean html_unescape_plain cleaner_default "Hello world, see now!"
     = Some "Hello world, see now!".
Proof.
  assert (H0 : forall t, Forall (fun c => c <> "&"%char) (chars t) ->
                         html_unescape_plain t = t) by reflexivity.
  assert (H1 : (0 <= max_length cleaner_default)%Z) by (vm_compute; discriminate).
  assert (H2 : clean html_unescape_plain cleaner_default markup
               = Some "Hello world, see now!") by (vm_compute; reflexivity).
  assert (H3 : "Hello world, see now!" <> "") by discriminate.
  assert (H4 : no_trail_space (chars "Hello world, see now!") = true)
    by reflexivity.
  split; [exact H0 |]. split; [exact H1 |]. split; [exact H2 |].
  split; [exact H3 |]. split; [exact H4 |].
  exact (clean_idempotent html_unescape_plain cleaner_default markup
           "Hello world, see now!" H0 H1 H2 H3 H4).
Defined.


Lemma aggregate_index_error_witness :
  [item_thirds] <> []
  /\ (length (@nil SentimentResult) < length [item_thirds]
      \/ length [emotion_thirds] < length [item_thirds])
  /\ aggregate aggregator_default [item_thirds] [] [emotion_thirds]
     = Py.Raise Py.IndexError.
Proof.
  assert (H1 : [item_thirds] <> []) by discriminate.
  assert (H2 : length (@nil SentimentResult) < length [item_thirds]
               \/ length [emotion_thirds] < length [item_thirds])
    by (left; cbn; lia).
  split; [exact H1 |]. split; [exact H2 |].
  exact (aggregate_index_error aggregator_default [item_thirds] []
           [emotion_thirds] H1 H2).
Defined.

Lemma sentiment_flat_in_range :
  Forall (fun s => ((0 <= positive s)%Q /\ (positive s <= 1)%Q)
                   /\ ((0 <= neutral s)%Q /\ (neutral s <= 1)%Q)
                   /\ ((0 <= negative s)%Q /\ (negative s <= 1)%Q)
                   /\ ((-1 <= compound s)%Q /\ (compound s <= 1)%Q))
    [sentiment_flat].
Proof.
  constructor; [| constructor].
  repeat split; vm_compute; discriminate.
Defined.

Lemma aggregate_sentiment_range_witness :
  [item_thirds] <> []
  /\ length [sentiment_flat] = length [item_thirds]
  /\ length [item_thirds] <= length [emotion_thirds]
  /\ exists r,
       aggregate aggregator_default [item_thirds] [sentiment_flat]
         [emotion_thirds] = Py.Ok r
       /\ (-1 <= avg_compound r)%Q /\ (avg_compound r <= 1)%Q.
Proof.
  assert (H1 : [item_thirds] <> []) by discriminate.
  assert (H2 : length [sentiment_flat] = length [item_thirds]) by reflexivity.
  assert (H3 : length [item_thirds] <= length [emotion_thirds]) by (cbn; lia).
  split; [exact H1 |]. split; [exact H2 |]. split; [exact H3 |].
  destruct (aggregate_sentiment_range aggregator_default [item_thirds]
              [sentiment_flat] [emotion_thirds] H1 H2 H3
              sentiment_flat_in_range) as (r & Hr & _ & _ & Hlo & Hhi).
  exists r. split; [exact Hr | split; [exact Hlo | exact Hhi]].
Defined.

Lemma override_applies_example : spec_override_applies calc_weighted agg_sources.
Proof.
  split; [discriminate | split; [discriminate |]].
  vm_compute. reflexivity.
Defined.



Lemma agg_angry_keys_NoDup : NoDup (Py.keys (emotions agg_angry)).
Proof. apply (bool_decide_unpack _). vm_compute. exact I. Defined.


Lemma processed_headlines :
  fst (Pipeline.process html_unescape_plain Pipeline.__init__ headlines) <> [].
Proof. vm_compute. discriminate. Defined.

Lemma analysis_chain_witness :
  fst (Pipeline.process html_unescape_plain Pipeline.__init__ headlines) <> []
  /\ exists emotions aggregated,
       Emotion.analyze_batch
         (map combined_text
            (fst (Pipeline.process html_unescape_plain Pipeline.__init__
                    headlines)))
       = Py.Ok emotions
       /\ aggregate aggregator_default
            (fst (Pipeline.process html_unescape_plain Pipeline.__init__
                    headlines))
            (Sentiment.analyze_batch polarity_neutral
               (map combined_text
                  (fst (Pipeline.process html_unescape_plain Pipeline.__init__
                          headlines))))
            emotions
          = Py.Ok aggregated
       /\ label (calculate calc_default aggregated) ∈ LABELS.
Proof.
  split; [exact processed_headlines |].
  destruct (analysis_chain html_unescape_plain polarity_neutral
              Pipeline.__init__ aggregator_default calc_default headlines
              processed_headlines)
    as (emotions & aggregated & He & _ & _ & Ha & _ & Hl & _).
  exists emotions, aggregated.
  split; [exact He | split; [exact Ha | exact Hl]].
Defined.

Lemma emotion_transformer_result_witness :
  emotion_model (slice_to "What a day" 512)
  = [ {| Transformers.ls_label := "joy"; Transformers.ls_score := (9 # 10)%Q |};
      {| Transformers.ls_label := "neutral";
         Transformers.ls_score := (1 # 10)%Q |} ] :: []
  /\ exists r,
       EmotionDeep._analyze_transformer emotion_model "What a day" = Py.Ok r
       /\ Emotion.dominant_emotion r ∈ EMOTION_CATEGORIES.
Proof.
  split; [reflexivity |].
  destruct (proj2 (proj2 (emotion_transformer_result emotion_model "What a day"))
              _ _ eq_refl) as (r & Hr & _ & _ & Hd & _).
  exists r. split; [exact Hr | exact Hd].
Defined.


Lemma analyze_lexicon_bag_of_words_witness :
  Permutation (_WORD_RE_findall (lower "Happy war"))
    (_WORD_RE_findall (lower "WAR, happy!"))
  /\ _analyze_lexicon "Happy war" = _analyze_lexicon "WAR, happy!".
Proof.
  assert (H : Permutation (_WORD_RE_findall (lower "Happy war"))
                (_WORD_RE_findall (lower "WAR, happy!")))
    by (vm_compute; apply perm_swap).
  split; [exact H |].
  exact (proj1 (analyze_lexicon_bag_of_words "Happy war" "WAR, happy!") H).
Defined.

Lemma extract_edge_cases_witness :
  (Topics.top_n extractor_top_zero <= 0)%Z
  /\ Topics.extract extractor_top_zero ["climate change"; "climate"]
     = {| Topics.top_unigrams := []; Topics.top_bigrams := [];
          Topics.top_trigrams := [] |}.
Proof.
  assert (H : (Topics.top_n extractor_top_zero <= 0)%Z) by reflexivity.
  split; [exact H |].
  exact (proj2 (proj2 (proj2 (extract_edge_cases extractor_top_zero
                                ["climate change"; "climate"] [] 0))) H).
Defined.

End MoreWitnesses.
